(** * ajankovic/smpp: the PDU codec and the session engine

    A shallow embedding of the Go sources of the SMPP 3.4 library
    (packages [pdu], [time] and [smpp]) together with the properties
    that were checked against it.

    Conventions of the embedding:
    - a Go [uint32], [uint16], [byte] or [int] is a [Z]; conversions
      such as [byte(x)] and [uint32(x)] are written out as [x mod 2^w];
    - a [[]byte] is a [list Z] whose elements are in [0, 256);
    - a Go [string] is a [string]; [[]byte(s)] and [string(b)] are
      [bytes_of_string] and [string_of_bytes];
    - a Go [map] is a [gmap]; where the source ranges over a map the
      iteration order is an explicit argument;
    - a Go interface is a type class, a nil pointer or a nil interface
      value is [None];
    - a run-time panic is the [Panic] outcome. *)

From Stdlib Require Import ZArith List String Ascii Bool Lia DecimalString.
From stdpp Require Import gmap strings list fin_maps.

Local Open Scope Z_scope.

(** ** Machine integers and byte strings *)

Definition uint32 (x : Z) : Z := x mod 2 ^ 32.
Definition uint16 (x : Z) : Z := x mod 2 ^ 16.
Definition byte (x : Z) : Z := x mod 2 ^ 8.

Abbreviation bytes := (list Z) (only parsing).

Definition is_byte (b : Z) : Prop := 0 <= b < 256.

(** [len(b)] *)
Definition len {A} (l : list A) : Z := Z.of_nat (length l).

(** [b[lo:hi]] for [0 <= lo <= hi <= len(b)] (the callers below check
    the bounds before slicing, as the source does). *)
Definition slice {A} (l : list A) (lo hi : Z) : list A :=
  take (Z.to_nat (hi - lo)) (drop (Z.to_nat lo) l).

Definition bytes_of_string (s : string) : bytes :=
  map (fun a => Z.of_N (N_of_ascii a)) (list_ascii_of_string s).

Definition string_of_bytes (b : bytes) : string :=
  string_of_list_ascii (map (fun x => ascii_of_N (Z.to_N x)) b).

(** [binary.BigEndian.PutUint32] and [PutUint16] on a fresh buffer. *)
Definition PutUint32 (v : Z) : bytes :=
  [ Z.shiftr v 24 mod 256; Z.shiftr v 16 mod 256; Z.shiftr v 8 mod 256; v mod 256 ].

Definition PutUint16 (v : Z) : bytes :=
  [ Z.shiftr v 8 mod 256; v mod 256 ].

(** The outcome of a call that may panic. *)
Inductive outcome (A : Type) : Type :=
  | Return (a : A)
  | Panic (reason : string).
Arguments Return {A} a.
Arguments Panic {A} reason.

(** [binary.BigEndian.Uint16(b)]: the standard library first evaluates
    [b[1]] as a bounds check, so a slice shorter than two bytes panics. *)
Definition Uint16 (b : bytes) : outcome Z :=
  match b with
  | b0 :: b1 :: _ => Return (Z.lor b1 (Z.shiftl b0 8))
  | _ => Panic "index out of range"
  end.

Definition Uint32 (b : bytes) : outcome Z :=
  match b with
  | b0 :: b1 :: b2 :: b3 :: _ =>
      Return (Z.lor (Z.lor (Z.lor b3 (Z.shiftl b2 8)) (Z.shiftl b1 16)) (Z.shiftl b0 24))
  | _ => Panic "index out of range"
  end.

(** ** Errors

    An [error] value records how the source built it: [errors.New],
    [fmt.Errorf] with its format string and arguments (the arguments are
    kept, the formatted text is not computed), the [io.EOF] sentinel, or
    a [smpp.Error] struct with its [Temp] flag (its [Msg] is a literal or
    the result of [fmt.Sprintf], kept as format and arguments). *)
#[warnings="-register-all"]
Inductive error : Type :=
  | errors_New (text : string)
  | fmt_Errorf (format : string) (args : list fmtarg)
  | io_EOF
  | smpp_Error (Msg : string) (args : list fmtarg) (Temp : bool)
with fmtarg : Type :=
  | ArgInt (z : Z)
  | ArgStr (s : string)
  | ArgBytes (b : list Z)
  | ArgErr (e : error)
  | ArgSprintf (format : string) (args : list fmtarg).

(** A Go result pair [(value, error)] of which exactly one is set. *)
Inductive result (A : Type) : Type :=
  | Ok (a : A)
  | Err (e : error).
Arguments Ok {A} a.
Arguments Err {A} e.

(** ** Interfaces of the standard library

    [io.Writer] and [io.Closer], as far as the library uses them: the
    stream after the call and the error.  By the contract of
    [io.Writer] a short write comes with a non-nil error. *)
Class Stream (W : Type) := {
  Write : W -> list Z -> W * option error;
  io_Close : W -> W * option error
}.

(** An in-memory stream in the manner of [bytes.Buffer] (which the
    tests write to): [Write] appends and never fails; [Close] marks the
    stream closed. *)
Record Buffer := { buf_bytes : list Z; buf_closed : bool }.

#[global] Instance Buffer_Stream : Stream Buffer := {
  Write b data := ({| buf_bytes := buf_bytes b ++ data; buf_closed := buf_closed b |}, None);
  io_Close b := ({| buf_bytes := buf_bytes b; buf_closed := true |}, None)
}.

(** A stream whose peer is gone: every [Write] fails and writes nothing. *)
Record Broken := { broken_closed : bool }.

#[global] Instance Broken_Stream : Stream Broken := {
  Write b data := (b, Some (errors_New "write: broken pipe"));
  io_Close b := ({| broken_closed := true |}, None)
}.

(** * The Go standard library: package time

    The library calls [time.Parse], [time.ParseInLocation], [time.Date],
    [Time.Format], [Time.AddDate] and [Time.Add].  They are not part of
    the repository; this module describes them as the Go documentation
    and sources do, for the three layouts the library uses.  A [Time] is
    an instant (seconds and nanoseconds since January 1, year 1,
    00:00:00 UTC) together with the offset of its location, in seconds
    east of UTC; UTC is offset 0, and daylight saving is not modelled. *)

Module Gotime.

Record Time := { sec : Z; nsec : Z; zone : Z }.

(** [time.Time{}] *)
Definition zeroTime : Time := {| sec := 0; nsec := 0; zone := 0 |}.

Definition IsZero (t : Time) : bool := (sec t =? 0) && (nsec t =? 0).

Definition isLeap (y : Z) : bool :=
  (y mod 4 =? 0) && (negb (y mod 100 =? 0) || (y mod 400 =? 0)).

Definition daysIn (m y : Z) : Z :=
  if (m =? 2) && isLeap y then 29
  else nth (Z.to_nat (m - 1)) [31; 28; 31; 30; 31; 30; 31; 31; 30; 31; 30; 31] 0.

(** Days from January 1, year 1 to the first day of month [m] (in
    [1, 12]) of year [y], in the proleptic Gregorian calendar. *)
Definition daysBeforeMonth (y m : Z) : Z :=
  let y' := if m <=? 2 then y - 1 else y in
  let era := y' / 400 in
  let yoe := y' - era * 400 in
  let mp := (m + 9) mod 12 in
  let doy := (153 * mp + 2) / 5 in
  let doe := yoe * 365 + yoe / 4 - yoe / 100 + doy in
  era * 146097 + doe - 306.

(** [time.Date]: the month is normalised into the year first; the other
    fields may overflow and are added up as they are. *)
Definition Date (y m d h mi s ns off : Z) : Time :=
  let m0 := m - 1 in
  let y := y + m0 / 12 in
  let m := m0 mod 12 + 1 in
  let secs := (daysBeforeMonth y m + (d - 1)) * 86400 + h * 3600 + mi * 60 + s in
  {| sec := secs + ns / 1000000000 - off; nsec := ns mod 1000000000; zone := off |}.

(** Year, month and day of a day number counted from January 1, year 1. *)
Definition civilOfDays (days : Z) : Z * Z * Z :=
  let z := days + 306 in
  let era := z / 146097 in
  let doe := z - era * 146097 in
  let yoe := (doe - doe / 1460 + doe / 36524 - doe / 146096) / 365 in
  let doy := doe - (365 * yoe + yoe / 4 - yoe / 100) in
  let mp := (5 * doy + 2) / 153 in
  let d := doy - (153 * mp + 2) / 5 + 1 in
  let m := if mp <? 10 then mp + 3 else mp - 9 in
  let y := yoe + era * 400 in
  (if m <=? 2 then y + 1 else y, m, d).

(** [t.Date()] and [t.Clock()], in the location of [t]. *)
Definition DateOf (t : Time) : Z * Z * Z := civilOfDays ((sec t + zone t) / 86400).

Definition ClockOf (t : Time) : Z * Z * Z :=
  let r := (sec t + zone t) mod 86400 in
  (r / 3600, r mod 3600 / 60, r mod 60).

(** [t.In(loc)], [t.After(u)], [t.Add(d)] with [d] in nanoseconds, and
    [t.AddDate(years, months, days)]. *)
Definition In (t : Time) (off : Z) : Time :=
  {| sec := sec t; nsec := nsec t; zone := off |}.

Definition After (t u : Time) : bool :=
  (sec u <? sec t) || ((sec t =? sec u) && (nsec u <? nsec t)).

Definition Add (t : Time) (d : Z) : Time :=
  let ns := nsec t + d in
  {| sec := sec t + ns / 1000000000; nsec := ns mod 1000000000; zone := zone t |}.

Definition AddDate (t : Time) (years months days : Z) : Time :=
  let '(y, m, d) := DateOf t in
  let '(h, mi, s) := ClockOf t in
  Date (y + years) (m + months) (d + days) h mi s (nsec t) (zone t).

(** Decimal text of a non-negative number, zero-padded to two digits:
    what [%02d] prints and what the two-digit fields of [Format] hold. *)
Definition pad2 (n : Z) : string :=
  let digits := NilZero.string_of_uint (N.to_uint (Z.to_N n)) in
  if n <? 10 then String "0" digits else digits.

(** [t.Format("060102150405")] and [t.Format("0601021504")] *)
Definition Format (withSeconds : bool) (t : Time) : string :=
  let '(y, m, d) := DateOf t in
  let '(h, mi, s) := ClockOf t in
  (pad2 (Z.abs y mod 100) ++ pad2 m ++ pad2 d ++ pad2 h ++ pad2 mi
   ++ if withSeconds then pad2 s else "")%string.

(** The fields of a layout, as [nextStdChunk] finds them. *)
Inductive chunk : Type :=
  | stdYear | stdLongYear | stdZeroMonth | stdZeroDay | stdHour
  | stdZeroMinute | stdZeroSecond.

(** ["0601021504"], ["060102150405"] and ["20060102150405"] *)
Definition layoutMinutes : list chunk :=
  [stdYear; stdZeroMonth; stdZeroDay; stdHour; stdZeroMinute].
Definition layoutSeconds : list chunk :=
  [stdYear; stdZeroMonth; stdZeroDay; stdHour; stdZeroMinute; stdZeroSecond].
Definition layoutLongSeconds : list chunk :=
  [stdLongYear; stdZeroMonth; stdZeroDay; stdHour; stdZeroMinute; stdZeroSecond].

Definition code (c : ascii) : Z := Z.of_N (N_of_ascii c).
Definition isDigit (c : ascii) : bool := (48 <=? code c) && (code c <=? 57).
Definition digit (c : ascii) : Z := code c - 48.

Definition parseError (value what : string) : error :=
  fmt_Errorf "parsing time %q%s" [ArgStr value; ArgStr what].

(** [getnum(s, fixed)]: one or two digits; two when [fixed]. *)
Definition getnum (s : string) (fixed : bool) : option (Z * string) :=
  match s with
  | String c0 rest =>
      if isDigit c0 then
        match rest with
        | String c1 rest' =>
            if isDigit c1 then Some (digit c0 * 10 + digit c1, rest')
            else if fixed then None else Some (digit c0, rest)
        | EmptyString => if fixed then None else Some (digit c0, rest)
        end
      else None
  | EmptyString => None
  end.

(** [atoi] on the two characters of a short year: two digits, or a sign
    and a digit. *)
Definition atoi2 (c0 c1 : ascii) : option Z :=
  if isDigit c1 then
    if isDigit c0 then Some (digit c0 * 10 + digit c1)
    else if (code c0 =? 43) then Some (digit c1)
    else if (code c0 =? 45) then Some (- digit c1)
    else None
  else None.

Record parsed := { p_year : Z; p_month : Z; p_day : Z; p_hour : Z; p_min : Z; p_sec : Z }.

(** One field of the layout; [None] is [errBad] or a range error. *)
Definition parseChunk (c : chunk) (f : parsed) (value : string) : option (parsed * string) :=
  match c with
  | stdYear =>
      match value with
      | String c0 (String c1 rest) =>
          match atoi2 c0 c1 with
          | Some y =>
              let y := if 69 <=? y then y + 1900 else y + 2000 in
              Some ({| p_year := y; p_month := p_month f; p_day := p_day f;
                       p_hour := p_hour f; p_min := p_min f; p_sec := p_sec f |}, rest)
          | None => None
          end
      | _ => None
      end
  | stdLongYear =>
      match value with
      | String c0 (String c1 (String c2 (String c3 rest))) =>
          if isDigit c0 && isDigit c1 && isDigit c2 && isDigit c3 then
            let y := digit c0 * 1000 + digit c1 * 100 + digit c2 * 10 + digit c3 in
            Some ({| p_year := y; p_month := p_month f; p_day := p_day f;
                     p_hour := p_hour f; p_min := p_min f; p_sec := p_sec f |}, rest)
          else None
      | _ => None
      end
  | stdZeroMonth =>
      match getnum value true with
      | Some (m, rest) =>
          if (m <=? 0) || (12 <? m) then None
          else Some ({| p_year := p_year f; p_month := m; p_day := p_day f;
                        p_hour := p_hour f; p_min := p_min f; p_sec := p_sec f |}, rest)
      | None => None
      end
  | stdZeroDay =>
      match getnum value true with
      | Some (d, rest) =>
          Some ({| p_year := p_year f; p_month := p_month f; p_day := d;
                   p_hour := p_hour f; p_min := p_min f; p_sec := p_sec f |}, rest)
      | None => None
      end
  | stdHour =>
      match getnum value false with
      | Some (h, rest) =>
          if (h <? 0) || (24 <=? h) then None
          else Some ({| p_year := p_year f; p_month := p_month f; p_day := p_day f;
                        p_hour := h; p_min := p_min f; p_sec := p_sec f |}, rest)
      | None => None
      end
  | stdZeroMinute =>
      match getnum value true with
      | Some (mi, rest) =>
          if (mi <? 0) || (60 <=? mi) then None
          else Some ({| p_year := p_year f; p_month := p_month f; p_day := p_day f;
                        p_hour := p_hour f; p_min := mi; p_sec := p_sec f |}, rest)
      | None => None
      end
  | stdZeroSecond =>
      match getnum value true with
      | Some (s, rest) =>
          if (s <? 0) || (60 <=? s) then None
          else Some ({| p_year := p_year f; p_month := p_month f; p_day := p_day f;
                        p_hour := p_hour f; p_min := p_min f; p_sec := s |}, rest)
      | None => None
      end
  end.

Fixpoint parseChunks (layout : list chunk) (f : parsed) (value : string)
  : option (parsed * string) :=
  match layout with
  | [] => Some (f, value)
  | c :: layout =>
      match parseChunk c f value with
      | Some (f, value) => parseChunks layout f value
      | None => None
      end
  end.

(** [time.ParseInLocation(layout, value, loc)] for a layout made of the
    fields above and a value without a fraction of a second: every
    field must parse, no text may be left over, and the day must exist
    in its month. *)
Definition ParseInLocation (layout : list chunk) (value : string) (off : Z) : result Time :=
  match parseChunks layout
          {| p_year := 0; p_month := -1; p_day := -1; p_hour := 0; p_min := 0; p_sec := 0 |}
          value with
  | None => Err (parseError value "")
  | Some (f, rest) =>
      if negb (String.eqb rest "") then Err (parseError value ": extra text")
      else if (p_day f <? 1) || (daysIn (p_month f) (p_year f) <? p_day f)
      then Err (parseError value ": day out of range")
      else Ok (Date (p_year f) (p_month f) (p_day f) (p_hour f) (p_min f) (p_sec f) 0 off)
  end.

(** [time.Parse(layout, value)]: the location is UTC. *)
Definition Parse (layout : list chunk) (value : string) : result Time :=
  ParseInLocation layout value 0.

End Gotime.

(** * Package time (smpp/time): time.go *)

Module Smpptime.

Inductive Layout : Type := SimpleSeconds | SimpleMinutes | Absolute | Relative.

(** [int((in[i]-48)*10 + (in[i+1]-48))]: arithmetic on bytes wraps at 256. *)
Definition twoDigits (inp : bytes) (i : nat) : Z :=
  byte (byte (nth i inp 0 - 48) * 10 + byte (nth (S i) inp 0 - 48)).

(** [func Parse(in []byte) (time.Time, error)]; [now] is what
    [time.Now()] returns. *)
Definition Parse (now : Gotime.Time) (inp : bytes) : result Gotime.Time :=
  let l := len inp in
  let invalid := Err (fmt_Errorf "smpp/time: invalid layout length %s" [ArgBytes inp]) in
  if (l =? 1) || (l =? 0) then Ok Gotime.zeroTime
  else if l =? 12 then Gotime.Parse Gotime.layoutSeconds (string_of_bytes inp)
  else if l =? 14 then Gotime.Parse Gotime.layoutLongSeconds (string_of_bytes inp)
  else if l =? 10 then Gotime.Parse Gotime.layoutMinutes (string_of_bytes inp)
  else if l =? 16 then
    let layoutIndicator := nth 15 inp 0 in
    if layoutIndicator =? 82 then
      let y := twoDigits inp 0 in
      let mo := twoDigits inp 2 in
      let d := twoDigits inp 4 in
      let h := twoDigits inp 6 in
      let mi := twoDigits inp 8 in
      let s := twoDigits inp 10 in
      Ok (Gotime.Add (Gotime.AddDate now y mo d)
                     ((h * 3600 + mi * 60 + s) * 1000000000))
    else if (layoutIndicator =? 45) || (layoutIndicator =? 43) then
      let nn := twoDigits inp 13 in
      let offset := nn * 900 in
      let offset := if layoutIndicator =? 45 then - offset else offset in
      match Gotime.ParseInLocation Gotime.layoutSeconds
              (string_of_bytes (slice inp 0 (l - 4))) offset with
      | Err err => Err err
      | Ok t => Ok (Gotime.Add t (byte (nth 12 inp 0 - 48) * 100 * 1000000))
      end
    else invalid
  else invalid.

(** [func diff(a, b time.Time) (year, month, day, hour, min, sec int)] *)
Definition diff (a b : Gotime.Time) : Z * Z * Z * Z * Z * Z :=
  let b := if Gotime.zone a =? Gotime.zone b then b else Gotime.In b (Gotime.zone a) in
  let '(a, b) := if Gotime.After a b then (b, a) else (a, b) in
  let '(y1, M1, d1) := Gotime.DateOf a in
  let '(y2, M2, d2) := Gotime.DateOf b in
  let '(h1, m1, s1) := Gotime.ClockOf a in
  let '(h2, m2, s2) := Gotime.ClockOf b in
  let year := y2 - y1 in
  let month := M2 - M1 in
  let day := d2 - d1 in
  let hour := h2 - h1 in
  let min := m2 - m1 in
  let sec := s2 - s1 in
  let '(sec, min) := if sec <? 0 then (sec + 60, min - 1) else (sec, min) in
  let '(min, hour) := if min <? 0 then (min + 60, hour - 1) else (min, hour) in
  let '(hour, day) := if hour <? 0 then (hour + 24, day - 1) else (hour, day) in
  let '(day, month) :=
    if day <? 0 then
      let t := Gotime.Date y1 M1 32 0 0 0 0 0 in
      let '(_, _, tday) := Gotime.DateOf t in
      (day + (32 - tday), month - 1)
    else (day, month) in
  let '(month, year) := if month <? 0 then (month + 12, year - 1) else (month, year) in
  (year, month, day, hour, min, sec).

(** [func Format(layout Layout, t time.Time) (string, error)]; the error
    is nil for the four layouts. *)
Definition Format (now : Gotime.Time) (layout : Layout) (t : Gotime.Time) : string :=
  match layout with
  | SimpleSeconds => Gotime.Format true t
  | SimpleMinutes => Gotime.Format false t
  | Relative =>
      let '(y, mo, d, h, mi, s) := diff t now in
      (Gotime.pad2 y ++ Gotime.pad2 mo ++ Gotime.pad2 d ++ Gotime.pad2 h ++ Gotime.pad2 mi
       ++ Gotime.pad2 s ++ "000R")%string
  | Absolute =>
      let z := Gotime.zone t in
      let offset := Z.quot z 900 in
      let sign := if offset <? 0 then "-" else "+" in
      let offset := if offset <? 0 then - offset else offset in
      (Gotime.Format true t
       ++ NilZero.string_of_uint (N.to_uint (Z.to_N (Gotime.nsec t / 100000000)))
       ++ Gotime.pad2 offset ++ sign)%string
  end.

End Smpptime.

(** * The Go standard library: package regexp

    [regexp.Regexp.FindAllStringSubmatch] for the expressions the
    library compiles.  Go finds the leftmost match and, among the
    matches that start there, the one a backtracking search meets first
    (greedy repetitions, left to right); a group inside a repetition
    reports its last iteration.  The matcher below is that backtracking
    search, in continuation-passing style. *)

Module Regexp.

Inductive regex : Type :=
  | Class (p : ascii -> bool)
  | Seq (r1 r2 : regex)
  | Opt (r : regex)
  | Plus (r : regex)
  | Group (i : nat) (r : regex).

(** The text still to be read, the position reached, and the spans
    (start and end position) of the groups closed so far. *)
Record mstate := { rest : list ascii; pos : nat; caps : list (nat * (nat * nat)) }.

(** [matchAt r st k]: the end state of the first way, in backtracking
    order, to match [r] from [st] and then go on with [k].  A [Plus]
    repeats its body as often as it can before it lets [k] try; every
    iteration of the bodies used here reads at least one character, so
    the text that is left bounds the number of iterations. *)
Fixpoint matchAt (r : regex) (st : mstate) (k : mstate -> option mstate) {struct r}
  : option mstate :=
  match r with
  | Class p =>
      match rest st with
      | c :: tl =>
          if p c then k {| rest := tl; pos := S (pos st); caps := caps st |} else None
      | [] => None
      end
  | Seq r1 r2 => matchAt r1 st (fun st' => matchAt r2 st' k)
  | Opt r' =>
      match matchAt r' st k with
      | Some res => Some res
      | None => k st
      end
  | Plus r' =>
      (fix iterate (n : nat) (st : mstate) : option mstate :=
         match n with
         | O => None
         | S n' =>
             matchAt r' st (fun st' =>
               match iterate n' st' with
               | Some res => Some res
               | None => k st'
               end)
         end) (S (length (rest st))) st
  | Group i r' =>
      matchAt r' st (fun st' =>
        k {| rest := rest st'; pos := pos st';
             caps := (i, (pos st, pos st')) :: caps st' |})
  end.

(** The leftmost match at or after the position of [st]. *)
Fixpoint search (r : regex) (text : list ascii) (p : nat) : option (nat * mstate) :=
  match matchAt r {| rest := text; pos := p; caps := [] |} Some with
  | Some res => Some (p, res)
  | None =>
      match text with
      | [] => None
      | _ :: tl => search r tl (S p)
      end
  end.

(** The text of group [i] of a match: the span recorded last. *)
Definition groupText (s : string) (cs : list (nat * (nat * nat))) (i : nat) : string :=
  match List.find (fun c => Nat.eqb (fst c) i) cs with
  | Some (_, (b, e)) => substring b (e - b) s
  | None => EmptyString
  end.

(** The successive matches from position [p] on; each match of the
    expressions used here is non-empty, so the next search starts where
    the match ended. *)
Fixpoint findAllFrom (fuel : nat) (r : regex) (groups : nat) (s : string)
    (text : list ascii) (p : nat) : list (list string) :=
  match fuel with
  | O => []
  | S fuel =>
      match search r text p with
      | None => []
      | Some (b, res) =>
          (substring b (pos res - b) s :: map (groupText s (caps res)) (seq 1 groups))
          :: findAllFrom fuel r groups s (rest res) (pos res)
      end
  end.

(** [re.FindAllStringSubmatch(s, -1)] for an expression with [groups]
    groups. *)
Definition FindAllStringSubmatch (r : regex) (groups : nat) (s : string) : list (list string) :=
  findAllFrom (S (String.length s)) r groups s (list_ascii_of_string s) 0.

(** [\w] is an ASCII letter, a digit or the underscore. *)
Definition isWord (c : ascii) : bool :=
  let n := N_of_ascii c in
  ((48 <=? n) && (n <=? 57) || (65 <=? n) && (n <=? 90)
   || (97 <=? n) && (n <=? 122) || (n =? 95))%N.

Definition Lit (a : ascii) : regex := Class (Ascii.eqb a).

End Regexp.

(** * Package pdu *)

Module Pdu.

(** ** constants.go *)

Definition MaxPDUSize : Z := 4096.

Definition StatusOK : Z := 0x00000000.
Definition StatusInvBnd : Z := 0x00000004.
Definition StatusSysErr : Z := 0x00000008.
Definition StatusThrottled : Z := 0x00000058.

Definition GenericNackID : Z := 0x80000000.
Definition BindReceiverID : Z := 0x00000001.
Definition BindReceiverRespID : Z := 0x80000001.
Definition BindTransmitterID : Z := 0x00000002.
Definition BindTransmitterRespID : Z := 0x80000002.
Definition QuerySmID : Z := 0x00000003.
Definition QuerySmRespID : Z := 0x80000003.
Definition SubmitSmID : Z := 0x00000004.
Definition SubmitSmRespID : Z := 0x80000004.
Definition DeliverSmID : Z := 0x00000005.
Definition DeliverSmRespID : Z := 0x80000005.
Definition UnbindID : Z := 0x00000006.
Definition UnbindRespID : Z := 0x80000006.
Definition ReplaceSmID : Z := 0x00000007.
Definition ReplaceSmRespID : Z := 0x80000007.
Definition CancelSmID : Z := 0x00000008.
Definition CancelSmRespID : Z := 0x80000008.
Definition BindTransceiverID : Z := 0x00000009.
Definition BindTransceiverRespID : Z := 0x80000009.
Definition OutbindID : Z := 0x0000000B.
Definition EnquireLinkID : Z := 0x00000015.
Definition EnquireLinkRespID : Z := 0x80000015.
Definition SubmitMultiID : Z := 0x00000021.
Definition SubmitMultiRespID : Z := 0x80000021.
Definition AlertNotificationID : Z := 0x00000102.
Definition DataSmID : Z := 0x00000103.
Definition DataSmRespID : Z := 0x80000103.

Definition TagReceiptedMessageID : Z := 0x001E.
Definition TagUserMessageReference : Z := 0x0204.
Definition TagSarMsgRefNum : Z := 0x020C.
Definition TagSarTotalSegments : Z := 0x020E.
Definition TagSarSegmentSeqnum : Z := 0x020F.
Definition TagScInterfaceVersion : Z := 0x0210.
Definition TagMessagePayload : Z := 0x0424.
Definition TagMessageState : Z := 0x0427.
Definition TagAlertOnMessageDeliv : Z := 0x130C.

(** ** The sequencer *)

(** [type Sequencer interface { Next() uint32 }]: [Next] returns the
    number and the sequencer after the call. *)
Class Sequencer (S : Type) := Next : S -> Z * S.

(** [type defaultSequencer struct { n uint32 }] *)
Record defaultSequencer := { seq_n : Z }.

(** [NewSequencer(n)] *)
Definition NewSequencer (n : Z) : defaultSequencer :=
  {| seq_n := if n =? 0 then 1 else n |}.

(** [func (seq *defaultSequencer) Next() uint32]: [seq.n++] is a
    [uint32] increment, it wraps at [2^32]. *)
Definition defaultSequencer_Next (seq : defaultSequencer) : Z * defaultSequencer :=
  let n := seq_n seq in
  (n, {| seq_n := uint32 (seq_n seq + 1) |}).

#[global] Instance defaultSequencer_Sequencer : Sequencer defaultSequencer :=
  defaultSequencer_Next.

(** The sequencer after [k] calls of [Next], and the number returned by
    call number [k] (counting from 0). *)
Definition afterCalls {S} `{Sequencer S} (k : nat) (s : S) : S :=
  Nat.iter k (fun s => snd (Next s)) s.

Definition nthNext {S} `{Sequencer S} (k : nat) (s : S) : Z :=
  fst (Next (afterCalls k s)).

(** ** options.go *)

(** [type Options struct { fields map[TagID][]byte }] *)
Record Options := { fields : gmap Z bytes }.

Definition NewOptions : Options := {| fields := ∅ |}.

(** [o.fields[tag] = val] *)
Definition Set_ (o : Options) (tag : Z) (val : bytes) : Options :=
  {| fields := <[tag := val]> (fields o) |}.

Definition SetSingle (o : Options) (tag : Z) (val : Z) : Options :=
  Set_ o tag [byte val].

Definition SetDouble (o : Options) (tag : Z) (val : Z) : Options :=
  Set_ o tag (PutUint16 (uint16 val)).

Definition SetString (o : Options) (tag : Z) (val : string) : Options :=
  Set_ o tag (bytes_of_string val).

Definition SetCString (o : Options) (tag : Z) (val : string) : Options :=
  Set_ o tag (bytes_of_string val ++ [0]).

(** A nil slice and [false] when the tag is absent. *)
Definition Get (o : Options) (tag : Z) : bytes * bool :=
  match fields o !! tag with
  | Some val => (val, true)
  | None => ([], false)
  end.

(** [return int(val[0]), true] indexes the stored value without looking
    at its length. *)
Definition GetSingle (o : Options) (tag : Z) : outcome (Z * bool) :=
  match fields o !! tag with
  | None => Return (0, false)
  | Some val =>
      match val with
      | v0 :: _ => Return (v0, true)
      | [] => Panic "index out of range"
      end
  end.

(** [return int(binary.BigEndian.Uint16(b)), true] *)
Definition GetDouble (o : Options) (tag : Z) : outcome (Z * bool) :=
  match fields o !! tag with
  | None => Return (0, false)
  | Some b =>
      match Uint16 b with
      | Return v => Return (v, true)
      | Panic r => Panic r
      end
  end.

Definition GetString (o : Options) (tag : Z) : string * bool :=
  match fields o !! tag with
  | None => (EmptyString, false)
  | Some b => (string_of_bytes b, true)
  end.

Definition GetCString (o : Options) (tag : Z) : string * bool :=
  match fields o !! tag with
  | None => (EmptyString, false)
  | Some b =>
      if len b =? 0 then (EmptyString, false)
      else (string_of_bytes (slice b 0 (len b - 1)), true)
  end.

Definition SetUserMessageReference (o : Options) (val : Z) : Options :=
  SetDouble o TagUserMessageReference val.
Definition SetSarMsgRefNum (o : Options) (val : Z) : Options :=
  SetDouble o TagSarMsgRefNum val.
Definition SetSarTotalSegments (o : Options) (val : Z) : Options :=
  SetSingle o TagSarTotalSegments val.
Definition SetSarSegmentSeqnum (o : Options) (val : Z) : Options :=
  SetSingle o TagSarSegmentSeqnum val.
Definition SetScInterfaceVersion (o : Options) (val : Z) : Options :=
  SetSingle o TagScInterfaceVersion val.
Definition SetMessagePayload (o : Options) (val : string) : Options :=
  SetString o TagMessagePayload val.
Definition SetMessageState (o : Options) (val : Z) : Options :=
  SetSingle o TagMessageState val.
Definition SetReceiptedMessageID (o : Options) (val : string) : Options :=
  SetCString o TagReceiptedMessageID val.

(** One record of [MarshalBinary]: a 4-byte header and the value. *)
Definition marshalTLV (tag : Z) (val : bytes) : bytes :=
  PutUint16 (uint16 tag) ++ PutUint16 (uint16 (len val)) ++ val.

(** [Options.MarshalBinary] ranges over the map, and Go leaves the order
    of a map range unspecified: [MarshalBinary_in order] is the output
    when the range visits the entries in [order], and [range_order]
    says which orders can occur.  The error result is always nil. *)
Definition MarshalBinary_in (order : list (Z * bytes)) : bytes :=
  fold_left (fun out '(tag, val) => out ++ marshalTLV tag val) order [].

Definition range_order (o : Options) (order : list (Z * bytes)) : Prop :=
  order ≡ₚ map_to_list (fields o).

(** The output for one admissible order, used to run examples. *)
Definition Options_MarshalBinary (o : Options) : bytes :=
  MarshalBinary_in (map_to_list (fields o)).

(** Big-endian decoding of a two-byte slice that is known to be in
    bounds ([Uint16] above is the version with the bounds check). *)
Definition uint16be (b : bytes) : Z :=
  Z.lor (nth 1 b 0) (Z.shiftl (nth 0 b 0) 8).

(** The loop of [Options.UnmarshalBinary] from position [n].  Every
    round advances [n] by at least 4, so [len(buf)] rounds are enough;
    [None] means that [fuel] ran out before the loop ended. *)
Fixpoint unmarshalLoop (fuel : nat) (buf : bytes) (n : Z) (flds : gmap Z bytes)
  : option (gmap Z bytes * option error) :=
  if n <? len buf then
    match fuel with
    | O => None
    | S fuel' =>
        if len buf - n <=? 4 then
          Some (flds, Some (fmt_Errorf "smpp/pdu: invalid optional body length" []))
        else
          let tag := uint16be (slice buf n (n + 2)) in
          let l := uint16be (slice buf (n + 2) (n + 4)) in
          if n + 4 + l >=? len buf + 1 then
            Some (flds, Some (fmt_Errorf "smpp/pdu: invalid optional field length (%s %d)"
                                         [ArgInt tag; ArgInt l]))
          else
            unmarshalLoop fuel' buf (n + 4 + l)
                          (<[tag := slice buf (n + 4) (n + 4 + l)]> flds)
    end
  else Some (flds, None).

(** [Options.UnmarshalBinary(buf)]: the receiver keeps the records
    stored before an error. *)
Definition Options_UnmarshalBinary (o : Options) (buf : bytes)
  : option (Options * option error) :=
  match unmarshalLoop (length buf) buf 0 (fields o) with
  | Some (flds, err) => Some ({| fields := flds |}, err)
  | None => None
  end.

(** ** pdu.go: the PDU interface and the encoder *)

(** [type PDU interface { CommandID(); MarshalBinary(); UnmarshalBinary() }].
    [UnmarshalBinary] has a pointer receiver: it returns the receiver
    after the call together with the error.  [None] stands for a call
    that ran out of fuel (see [unmarshalLoop]). *)
Class PDU (P : Type) := {
  CommandID : P -> Z;
  MarshalBinary : P -> result bytes;
  UnmarshalBinary : P -> bytes -> option (P * option error)
}.

(** [type Encoder struct { w io.Writer; seq Sequencer }] *)
Record Encoder (W S : Type) := { enc_w : W; enc_seq : S }.
Arguments enc_w {W S} _.
Arguments enc_seq {W S} _.

(** [NewEncoder(w, seq)] with a non-nil [seq]. *)
Definition NewEncoder {W S} (w : W) (seq : S) : Encoder W S :=
  {| enc_w := w; enc_seq := seq |}.

(** [NewEncoder(w, nil)]: the default sequencer, starting at 1. *)
Definition NewEncoder_nil {W} (w : W) : Encoder W defaultSequencer :=
  {| enc_w := w; enc_seq := NewSequencer 1 |}.

Record encoderOpts := { eo_seq : Z; eo_status : Z }.

(** [type EncoderOption func(opts)], a function on a pointer to [encoderOpts] *)
Definition EncoderOption := encoderOpts -> encoderOpts.

Definition EncodeSeq (seq : Z) : EncoderOption :=
  fun eOpts => {| eo_seq := seq; eo_status := eo_status eOpts |}.

Definition EncodeStatus (status : Z) : EncoderOption :=
  fun eOpts => {| eo_seq := eo_seq eOpts; eo_status := status |}.

(** The frame that [Encode] assembles in [buf]. *)
Definition frame (l commandID status seq : Z) (body : bytes) : bytes :=
  PutUint32 (uint32 l) ++ PutUint32 (uint32 commandID) ++ PutUint32 (uint32 status)
  ++ PutUint32 seq ++ body.

(** [func (en *Encoder) Encode(p PDU, opts ...EncoderOption) (uint32, error)].
    The body is marshalled, the options are applied, the header is
    written in front of the body and the buffer goes to the writer in
    one [Write].  Nothing compares [l] with [MaxPDUSize]. *)
Definition Encode {W S P} {HW : Stream W} {HS : Sequencer S} {HP : PDU P}
    (en : Encoder W S) (p : P) (opts : list EncoderOption)
  : Encoder W S * (Z * option error) :=
  match MarshalBinary p with
  | Err err => (en, (0, Some err))
  | Ok body =>
      let eOpts := fold_left (fun e (o : EncoderOption) => o e) opts
                             {| eo_seq := 0; eo_status := 0 |} in
      let l := len body + 16 in
      let '(seq, sq) :=
        if eo_seq eOpts =? 0 then Next (enc_seq en) else (eo_seq eOpts, enc_seq en) in
      let buf := frame l (CommandID p) (eo_status eOpts) seq body in
      let '(w, err) := Write (enc_w en) buf in
      ({| enc_w := w; enc_seq := sq |}, (seq, err))
  end.

(** ** simple.go: the PDUs without a body *)

Inductive Unbind : Type := mkUnbind.
Inductive UnbindResp : Type := mkUnbindResp.
Inductive EnquireLink : Type := mkEnquireLink.
Inductive EnquireLinkResp : Type := mkEnquireLinkResp.
Inductive GenericNack : Type := mkGenericNack.

(** [MarshalBinary] returns [nil, nil] and [UnmarshalBinary] returns
    [nil] whatever the body is. *)
#[global] Instance Unbind_PDU : PDU Unbind := {
  CommandID _ := UnbindID;
  MarshalBinary _ := Ok [];
  UnmarshalBinary p _ := Some (p, None)
}.
#[global] Instance UnbindResp_PDU : PDU UnbindResp := {
  CommandID _ := UnbindRespID;
  MarshalBinary _ := Ok [];
  UnmarshalBinary p _ := Some (p, None)
}.
#[global] Instance EnquireLink_PDU : PDU EnquireLink := {
  CommandID _ := EnquireLinkID;
  MarshalBinary _ := Ok [];
  UnmarshalBinary p _ := Some (p, None)
}.
#[global] Instance EnquireLinkResp_PDU : PDU EnquireLinkResp := {
  CommandID _ := EnquireLinkRespID;
  MarshalBinary _ := Ok [];
  UnmarshalBinary p _ := Some (p, None)
}.
#[global] Instance GenericNack_PDU : PDU GenericNack := {
  CommandID _ := GenericNackID;
  MarshalBinary _ := Ok [];
  UnmarshalBinary p _ := Some (p, None)
}.

(** ** pdu.go: helpers of the body codecs *)

(** [type EsmClass struct { Mode, Type, Feature int }] *)
Record EsmClass := { Mode : Z; Type_ : Z; Feature : Z }.

(** [func (ec EsmClass) Byte() byte]: the shifts act on bytes. *)
Definition EsmClass_Byte (ec : EsmClass) : Z :=
  let out := 0 in
  let out := Z.lor out (byte (Mode ec)) in
  let out := Z.lor out (byte (Z.shiftl (byte (Type_ ec)) 2)) in
  let out := Z.lor out (byte (Z.shiftl (byte (Feature ec)) 6)) in
  out.

Definition ParseEsmClass (b : Z) : EsmClass :=
  {| Mode := Z.land b 0x03;
     Type_ := Z.land (Z.shiftr b 2) 0x0F;
     Feature := Z.shiftr b 6 |}.

(** [type RegisteredDelivery struct { Receipt, SMEAck, InterNotification int }] *)
Record RegisteredDelivery := { Receipt : Z; SMEAck : Z; InterNotification : Z }.

Definition RegisteredDelivery_Byte (rd : RegisteredDelivery) : Z :=
  let out := 0 in
  let out := Z.lor out (byte (Receipt rd)) in
  let out := Z.lor out (byte (Z.shiftl (byte (SMEAck rd)) 2)) in
  let out := Z.lor out (byte (Z.shiftl (byte (InterNotification rd)) 4)) in
  out.

Definition ParseRegisteredDelivery (b : Z) : RegisteredDelivery :=
  {| Receipt := Z.land b 0x03;
     SMEAck := Z.land (Z.shiftr b 2) 0x0F;
     InterNotification := Z.land (Z.shiftr b 4) 0x01 |}.

(** [func writeTime(layout, t) ([]byte, error)]: a zero time is written
    as the empty C string. *)
Definition writeTime (now : Gotime.Time) (layout : Smpptime.Layout) (t : Gotime.Time) : bytes :=
  let schedDel :=
    if negb (Gotime.IsZero t) then bytes_of_string (Smpptime.Format now layout t) else [] in
  schedDel ++ [0].

(** *** The reader

    [UnmarshalBinary] reads its fields one after the other from a
    [pduReader] and assigns them to the receiver; the first error ends
    the call.  A [Reader P A] is a step of such a call: from the unread
    bytes and the receiver to the same after the step, and the value
    read or the error. *)
Definition Reader (P A : Type) : Type := bytes * P -> (bytes * P) * result A.

Definition ret {P A} (a : A) : Reader P A := fun st => (st, Ok a).

Definition bind {P A B} (m : Reader P A) (k : A -> Reader P B) : Reader P B :=
  fun st =>
    match m st with
    | (st, Ok a) => k a st
    | (st, Err e) => (st, Err e)
    end.

Notation "'let!' x ':=' m 'in' k" := (bind m (fun x => k))
  (at level 10, x name, m at level 100, k at level 200).
Notation "'do!' m 'in' k" := (bind m (fun _ => k))
  (at level 10, m at level 100, k at level 200).

(** [if err != nil { return fmt.Errorf(format, err) }] *)
Definition orFail {P A} (format : string) (m : Reader P A) : Reader P A :=
  fun st =>
    match m st with
    | (st, Ok a) => (st, Ok a)
    | (st, Err e) => (st, Err (fmt_Errorf format [ArgErr e]))
    end.

(** An assignment to a field of the receiver. *)
Definition assign {P} (f : P -> P) : Reader P unit :=
  fun '(buf, p) => ((buf, f p), Ok tt).

(** [bytes.Buffer.ReadByte] *)
Definition ReadByte {P} : Reader P Z :=
  fun '(buf, p) =>
    match buf with
    | [] => (([], p), Err io_EOF)
    | b :: rest => ((rest, p), Ok b)
    end.

(** The loop of [ReadCString]: [i] bytes were read, [out] holds them. *)
Fixpoint readCString (limit i : Z) (out buf : bytes) : bytes * result bytes :=
  match buf with
  | [] => ([], Err io_EOF)
  | b :: rest =>
      let i := i + 1 in
      if b =? 0 then (rest, Ok out)
      else if i =? limit then (rest, Err (errors_New "invalid c string length"))
      else readCString limit i (out ++ [b]) rest
  end.

(** [func (r *pduReader) ReadCString(limit int) ([]byte, error)] *)
Definition ReadCString {P} (limit : Z) : Reader P bytes :=
  fun '(buf, p) => let '(rest, r) := readCString limit 0 [] buf in ((rest, p), r).

(** [func (r *pduReader) ReadString(limit int) ([]byte, error)]:
    [bytes.Buffer.Read] returns [io.EOF] when asked for bytes from an
    empty buffer, and otherwise as many bytes as it has. *)
Definition ReadString {P} (limit : Z) : Reader P bytes :=
  fun '(buf, p) =>
    match buf with
    | [] => (([], p), Err io_EOF)
    | l :: rest =>
        if limit <? l then ((rest, p), Err (errors_New "invalid string length"))
        else if (len rest =? 0) && negb (l =? 0) then ((rest, p), Err io_EOF)
        else
          let out := take (Z.to_nat l) rest in
          let rest := drop (Z.to_nat l) rest in
          if negb (len out =? l) then ((rest, p), Err (errors_New "read count missmatch"))
          else ((rest, p), Ok out)
    end.

(** [buf.Len()] and [buf.Bytes()] *)
Definition unread {P} : Reader P bytes := fun '(buf, p) => ((buf, p), Ok buf).

(** Run the steps of an [UnmarshalBinary] on [body]. *)
Definition runReader {P} (m : Reader P unit) (p : P) (body : bytes) : P * option error :=
  match m (body, p) with
  | ((_, p), Ok _) => (p, None)
  | ((_, p), Err e) => (p, Some e)
  end.

(** ** The bind family *)

Record BindTRx := {
  bind_SystemID : string;
  bind_Password : string;
  bind_SystemType : string;
  bind_InterfaceVersion : Z;
  bind_AddrTon : Z;
  bind_AddrNpi : Z;
  bind_AddressRange : string
}.

Definition marshalBind (systemID password systemType : string)
    (interfaceVer addrTon addrNpi : Z) (addrRange : string) : bytes :=
  let out := bytes_of_string systemID ++ [0] in
  let out := out ++ (bytes_of_string password ++ [0]) in
  let out := out ++ (bytes_of_string systemType ++ [0]) in
  let out := out ++ [byte interfaceVer; byte addrTon; byte addrNpi] in
  let out := out ++ (bytes_of_string addrRange ++ [0]) in
  out.

Definition unmarshalBind (p : BindTRx) (body : bytes) : BindTRx * option error :=
  if len body <? 7 then
    (p, Some (fmt_Errorf "smpp/pdu: bind body too short: %d" [ArgInt (len body)]))
  else
    runReader (
      let! res := orFail "smpp/pdu: decoding system_id %s" (ReadCString 16) in
      do! assign (fun p => {| bind_SystemID := string_of_bytes res;
          bind_Password := bind_Password p; bind_SystemType := bind_SystemType p;
          bind_InterfaceVersion := bind_InterfaceVersion p; bind_AddrTon := bind_AddrTon p;
          bind_AddrNpi := bind_AddrNpi p; bind_AddressRange := bind_AddressRange p |}) in
      let! res := orFail "smpp/pdu: decoding password %s" (ReadCString 9) in
      do! assign (fun p => {| bind_SystemID := bind_SystemID p;
          bind_Password := string_of_bytes res; bind_SystemType := bind_SystemType p;
          bind_InterfaceVersion := bind_InterfaceVersion p; bind_AddrTon := bind_AddrTon p;
          bind_AddrNpi := bind_AddrNpi p; bind_AddressRange := bind_AddressRange p |}) in
      let! res := orFail "smpp/pdu: decoding system_type %s" (ReadCString 13) in
      do! assign (fun p => {| bind_SystemID := bind_SystemID p;
          bind_Password := bind_Password p; bind_SystemType := string_of_bytes res;
          bind_InterfaceVersion := bind_InterfaceVersion p; bind_AddrTon := bind_AddrTon p;
          bind_AddrNpi := bind_AddrNpi p; bind_AddressRange := bind_AddressRange p |}) in
      let! b := orFail "smpp/pdu: decoding interface_version %s" ReadByte in
      do! assign (fun p => {| bind_SystemID := bind_SystemID p;
          bind_Password := bind_Password p; bind_SystemType := bind_SystemType p;
          bind_InterfaceVersion := b; bind_AddrTon := bind_AddrTon p;
          bind_AddrNpi := bind_AddrNpi p; bind_AddressRange := bind_AddressRange p |}) in
      let! b := orFail "smpp/pdu: decoding addr_ton %s" ReadByte in
      do! assign (fun p => {| bind_SystemID := bind_SystemID p;
          bind_Password := bind_Password p; bind_SystemType := bind_SystemType p;
          bind_InterfaceVersion := bind_InterfaceVersion p; bind_AddrTon := b;
          bind_AddrNpi := bind_AddrNpi p; bind_AddressRange := bind_AddressRange p |}) in
      let! b := orFail "smpp/pdu: decoding addr_npi %s" ReadByte in
      do! assign (fun p => {| bind_SystemID := bind_SystemID p;
          bind_Password := bind_Password p; bind_SystemType := bind_SystemType p;
          bind_InterfaceVersion := bind_InterfaceVersion p; bind_AddrTon := bind_AddrTon p;
          bind_AddrNpi := b; bind_AddressRange := bind_AddressRange p |}) in
      let! res := orFail "smpp/pdu: decoding addr_range %s" (ReadCString 41) in
      assign (fun p => {| bind_SystemID := bind_SystemID p;
          bind_Password := bind_Password p; bind_SystemType := bind_SystemType p;
          bind_InterfaceVersion := bind_InterfaceVersion p; bind_AddrTon := bind_AddrTon p;
          bind_AddrNpi := bind_AddrNpi p; bind_AddressRange := string_of_bytes res |})
    ) p body.

#[global] Instance BindTRx_PDU : PDU BindTRx := {
  CommandID _ := BindTransceiverID;
  MarshalBinary p :=
    Ok (marshalBind (bind_SystemID p) (bind_Password p) (bind_SystemType p)
                    (bind_InterfaceVersion p) (bind_AddrTon p) (bind_AddrNpi p)
                    (bind_AddressRange p));
  UnmarshalBinary p body := Some (unmarshalBind p body)
}.

(** ** The responses made of a C string and options *)

(** The first loop of [cStringOptsRespUnmarshal]: [n] is one past the
    first NUL found at or after position [i], and [-1] if there is none. *)
Fixpoint findNul (body : bytes) (i : Z) : Z :=
  match body with
  | [] => -1
  | b :: rest => if b =? 0 then i + 1 else findNul rest (i + 1)
  end.

(** [func cStringOptsRespUnmarshal(body []byte) (string, *Options, error)] *)
Definition cStringOptsRespUnmarshal (body : bytes)
  : option (string * option Options * option error) :=
  let n := findNul body 0 in
  if n <? 0 then
    Some (EmptyString, None, Some (errors_New "smpp/pdu: c string is not terminated"))
  else
    let tail := slice body n (len body) in
    if 0 <? len tail then
      match Options_UnmarshalBinary NewOptions tail with
      | None => None
      | Some (opts, Some err) => Some (EmptyString, None, Some err)
      | Some (opts, None) => Some (string_of_bytes (slice body 0 (n - 1)), Some opts, None)
      end
    else Some (string_of_bytes (slice body 0 (n - 1)), None, None).

(** [func cStringOptsRespMarshal(str string, opts *Options) ([]byte, error)],
    when the range over the options follows [order]. *)
Definition cStringOptsRespMarshal (order : gmap Z bytes -> list (Z * bytes))
    (str : string) (opts : option Options) : bytes :=
  let out := bytes_of_string str ++ [0] in
  match opts with
  | None => out
  | Some opts => out ++ MarshalBinary_in (order (fields opts))
  end.

Record BindTRxResp := { trxresp_SystemID : string; trxresp_Options : option Options }.
Record BindTxResp := { txresp_SystemID : string; txresp_Options : option Options }.
Record BindRxResp := { rxresp_SystemID : string; rxresp_Options : option Options }.

(** The three bind responses as PDUs.  [MarshalBinary] ranges over the
    map of the options, in an order that Go leaves open:
    [BindTRxResp_PDU_in order] is the PDU when that range follows
    [order].  [p.SystemID, p.Options, err = cStringOptsRespUnmarshal(body)]:
    the receiver is overwritten on an error too. *)
Definition BindTRxResp_PDU_in (order : gmap Z bytes -> list (Z * bytes))
  : PDU BindTRxResp := {|
  CommandID _ := BindTransceiverRespID;
  MarshalBinary p :=
    Ok (cStringOptsRespMarshal order (trxresp_SystemID p) (trxresp_Options p));
  UnmarshalBinary p body :=
    match cStringOptsRespUnmarshal body with
    | Some (sid, opts, err) =>
        Some ({| trxresp_SystemID := sid; trxresp_Options := opts |}, err)
    | None => None
    end
|}.

Definition BindTxResp_PDU_in (order : gmap Z bytes -> list (Z * bytes))
  : PDU BindTxResp := {|
  CommandID _ := BindTransmitterRespID;
  MarshalBinary p :=
    Ok (cStringOptsRespMarshal order (txresp_SystemID p) (txresp_Options p));
  UnmarshalBinary p body :=
    match cStringOptsRespUnmarshal body with
    | Some (sid, opts, err) =>
        Some ({| txresp_SystemID := sid; txresp_Options := opts |}, err)
    | None => None
    end
|}.

Definition BindRxResp_PDU_in (order : gmap Z bytes -> list (Z * bytes))
  : PDU BindRxResp := {|
  CommandID _ := BindReceiverRespID;
  MarshalBinary p :=
    Ok (cStringOptsRespMarshal order (rxresp_SystemID p) (rxresp_Options p));
  UnmarshalBinary p body :=
    match cStringOptsRespUnmarshal body with
    | Some (sid, opts, err) =>
        Some ({| rxresp_SystemID := sid; rxresp_Options := opts |}, err)
    | None => None
    end
|}.

(** The instances that class resolution finds, for the places where
    the options are not marshalled ([CommandID], [UnmarshalBinary], the
    decoder) and for running examples: they take one of the orders
    that can occur. *)
#[global] Instance BindTRxResp_PDU : PDU BindTRxResp := BindTRxResp_PDU_in map_to_list.
#[global] Instance BindTxResp_PDU : PDU BindTxResp := BindTxResp_PDU_in map_to_list.
#[global] Instance BindRxResp_PDU : PDU BindRxResp := BindRxResp_PDU_in map_to_list.

(** ** submit_sm.go *)

(** [type SubmitSm struct]; the fields [EsmClass], [RegisteredDelivery]
    and [Options] carry a trailing underscore here, their names being
    those of their types. *)
Record SubmitSm := {
  ServiceType : string;
  SourceAddrTon : Z;
  SourceAddrNpi : Z;
  SourceAddr : string;
  DestAddrTon : Z;
  DestAddrNpi : Z;
  DestinationAddr : string;
  EsmClass_ : EsmClass;
  ProtocolID : Z;
  PriorityFlag : Z;
  ScheduleDeliveryTime : Gotime.Time;
  ValidityPeriod : Gotime.Time;
  RegisteredDelivery_ : RegisteredDelivery;
  ReplaceIfPresentFlag : Z;
  DataCoding : Z;
  SmDefaultMsgID : Z;
  ShortMessage : string;
  Options_ : option Options
}.

(** The assignments [p.Field = v] of [UnmarshalBinary]. *)
Definition set_ServiceType (v : string) (p : SubmitSm) : SubmitSm :=
  {| ServiceType := v; SourceAddrTon := SourceAddrTon p; SourceAddrNpi := SourceAddrNpi p;
     SourceAddr := SourceAddr p; DestAddrTon := DestAddrTon p; DestAddrNpi := DestAddrNpi p;
     DestinationAddr := DestinationAddr p; EsmClass_ := EsmClass_ p;
     ProtocolID := ProtocolID p; PriorityFlag := PriorityFlag p;
     ScheduleDeliveryTime := ScheduleDeliveryTime p; ValidityPeriod := ValidityPeriod p;
     RegisteredDelivery_ := RegisteredDelivery_ p;
     ReplaceIfPresentFlag := ReplaceIfPresentFlag p; DataCoding := DataCoding p;
     SmDefaultMsgID := SmDefaultMsgID p; ShortMessage := ShortMessage p;
     Options_ := Options_ p |}.
Definition set_SourceAddrTon (v : Z) (p : SubmitSm) : SubmitSm :=
  {| ServiceType := ServiceType p; SourceAddrTon := v; SourceAddrNpi := SourceAddrNpi p;
     SourceAddr := SourceAddr p; DestAddrTon := DestAddrTon p; DestAddrNpi := DestAddrNpi p;
     DestinationAddr := DestinationAddr p; EsmClass_ := EsmClass_ p;
     ProtocolID := ProtocolID p; PriorityFlag := PriorityFlag p;
     ScheduleDeliveryTime := ScheduleDeliveryTime p; ValidityPeriod := ValidityPeriod p;
     RegisteredDelivery_ := RegisteredDelivery_ p;
     ReplaceIfPresentFlag := ReplaceIfPresentFlag p; DataCoding := DataCoding p;
     SmDefaultMsgID := SmDefaultMsgID p; ShortMessage := ShortMessage p;
     Options_ := Options_ p |}.
Definition set_SourceAddrNpi (v : Z) (p : SubmitSm) : SubmitSm :=
  {| ServiceType := ServiceType p; SourceAddrTon := SourceAddrTon p; SourceAddrNpi := v;
     SourceAddr := SourceAddr p; DestAddrTon := DestAddrTon p; DestAddrNpi := DestAddrNpi p;
     DestinationAddr := DestinationAddr p; EsmClass_ := EsmClass_ p;
     ProtocolID := ProtocolID p; PriorityFlag := PriorityFlag p;
     ScheduleDeliveryTime := ScheduleDeliveryTime p; ValidityPeriod := ValidityPeriod p;
     RegisteredDelivery_ := RegisteredDelivery_ p;
     ReplaceIfPresentFlag := ReplaceIfPresentFlag p; DataCoding := DataCoding p;
     SmDefaultMsgID := SmDefaultMsgID p; ShortMessage := ShortMessage p;
     Options_ := Options_ p |}.
Definition set_SourceAddr (v : string) (p : SubmitSm) : SubmitSm :=
  {| ServiceType := ServiceType p; SourceAddrTon := SourceAddrTon p;
     SourceAddrNpi := SourceAddrNpi p; SourceAddr := v; DestAddrTon := DestAddrTon p;
     DestAddrNpi := DestAddrNpi p; DestinationAddr := DestinationAddr p;
     EsmClass_ := EsmClass_ p; ProtocolID := ProtocolID p; PriorityFlag := PriorityFlag p;
     ScheduleDeliveryTime := ScheduleDeliveryTime p; ValidityPeriod := ValidityPeriod p;
     RegisteredDelivery_ := RegisteredDelivery_ p;
     ReplaceIfPresentFlag := ReplaceIfPresentFlag p; DataCoding := DataCoding p;
     SmDefaultMsgID := SmDefaultMsgID p; ShortMessage := ShortMessage p;
     Options_ := Options_ p |}.
Definition set_DestAddrTon (v : Z) (p : SubmitSm) : SubmitSm :=
  {| ServiceType := ServiceType p; SourceAddrTon := SourceAddrTon p;
     SourceAddrNpi := SourceAddrNpi p; SourceAddr := SourceAddr p; DestAddrTon := v;
     DestAddrNpi := DestAddrNpi p; DestinationAddr := DestinationAddr p;
     EsmClass_ := EsmClass_ p; ProtocolID := ProtocolID p; PriorityFlag := PriorityFlag p;
     ScheduleDeliveryTime := ScheduleDeliveryTime p; ValidityPeriod := ValidityPeriod p;
     RegisteredDelivery_ := RegisteredDelivery_ p;
     ReplaceIfPresentFlag := ReplaceIfPresentFlag p; DataCoding := DataCoding p;
     SmDefaultMsgID := SmDefaultMsgID p; ShortMessage := ShortMessage p;
     Options_ := Options_ p |}.
Definition set_DestAddrNpi (v : Z) (p : SubmitSm) : SubmitSm :=
  {| ServiceType := ServiceType p; SourceAddrTon := SourceAddrTon p;
     SourceAddrNpi := SourceAddrNpi p; SourceAddr := SourceAddr p;
     DestAddrTon := DestAddrTon p; DestAddrNpi := v; DestinationAddr := DestinationAddr p;
     EsmClass_ := EsmClass_ p; ProtocolID := ProtocolID p; PriorityFlag := PriorityFlag p;
     ScheduleDeliveryTime := ScheduleDeliveryTime p; ValidityPeriod := ValidityPeriod p;
     RegisteredDelivery_ := RegisteredDelivery_ p;
     ReplaceIfPresentFlag := ReplaceIfPresentFlag p; DataCoding := DataCoding p;
     SmDefaultMsgID := SmDefaultMsgID p; ShortMessage := ShortMessage p;
     Options_ := Options_ p |}.
Definition set_DestinationAddr (v : string) (p : SubmitSm) : SubmitSm :=
  {| ServiceType := ServiceType p; SourceAddrTon := SourceAddrTon p;
     SourceAddrNpi := SourceAddrNpi p; SourceAddr := SourceAddr p;
     DestAddrTon := DestAddrTon p; DestAddrNpi := DestAddrNpi p; DestinationAddr := v;
     EsmClass_ := EsmClass_ p; ProtocolID := ProtocolID p; PriorityFlag := PriorityFlag p;
     ScheduleDeliveryTime := ScheduleDeliveryTime p; ValidityPeriod := ValidityPeriod p;
     RegisteredDelivery_ := RegisteredDelivery_ p;
     ReplaceIfPresentFlag := ReplaceIfPresentFlag p; DataCoding := DataCoding p;
     SmDefaultMsgID := SmDefaultMsgID p; ShortMessage := ShortMessage p;
     Options_ := Options_ p |}.
Definition set_EsmClass_ (v : EsmClass) (p : SubmitSm) : SubmitSm :=
  {| ServiceType := ServiceType p; SourceAddrTon := SourceAddrTon p;
     SourceAddrNpi := SourceAddrNpi p; SourceAddr := SourceAddr p;
     DestAddrTon := DestAddrTon p; DestAddrNpi := DestAddrNpi p;
     DestinationAddr := DestinationAddr p; EsmClass_ := v; ProtocolID := ProtocolID p;
     PriorityFlag := PriorityFlag p; ScheduleDeliveryTime := ScheduleDeliveryTime p;
     ValidityPeriod := ValidityPeriod p; RegisteredDelivery_ := RegisteredDelivery_ p;
     ReplaceIfPresentFlag := ReplaceIfPresentFlag p; DataCoding := DataCoding p;
     SmDefaultMsgID := SmDefaultMsgID p; ShortMessage := ShortMessage p;
     Options_ := Options_ p |}.
Definition set_ProtocolID (v : Z) (p : SubmitSm) : SubmitSm :=
  {| ServiceType := ServiceType p; SourceAddrTon := SourceAddrTon p;
     SourceAddrNpi := SourceAddrNpi p; SourceAddr := SourceAddr p;
     DestAddrTon := DestAddrTon p; DestAddrNpi := DestAddrNpi p;
     DestinationAddr := DestinationAddr p; EsmClass_ := EsmClass_ p; ProtocolID := v;
     PriorityFlag := PriorityFlag p; ScheduleDeliveryTime := ScheduleDeliveryTime p;
     ValidityPeriod := ValidityPeriod p; RegisteredDelivery_ := RegisteredDelivery_ p;
     ReplaceIfPresentFlag := ReplaceIfPresentFlag p; DataCoding := DataCoding p;
     SmDefaultMsgID := SmDefaultMsgID p; ShortMessage := ShortMessage p;
     Options_ := Options_ p |}.
Definition set_PriorityFlag (v : Z) (p : SubmitSm) : SubmitSm :=
  {| ServiceType := ServiceType p; SourceAddrTon := SourceAddrTon p;
     SourceAddrNpi := SourceAddrNpi p; SourceAddr := SourceAddr p;
     DestAddrTon := DestAddrTon p; DestAddrNpi := DestAddrNpi p;
     DestinationAddr := DestinationAddr p; EsmClass_ := EsmClass_ p;
     ProtocolID := ProtocolID p; PriorityFlag := v;
     ScheduleDeliveryTime := ScheduleDeliveryTime p; ValidityPeriod := ValidityPeriod p;
     RegisteredDelivery_ := RegisteredDelivery_ p;
     ReplaceIfPresentFlag := ReplaceIfPresentFlag p; DataCoding := DataCoding p;
     SmDefaultMsgID := SmDefaultMsgID p; ShortMessage := ShortMessage p;
     Options_ := Options_ p |}.
Definition set_ScheduleDeliveryTime (v : Gotime.Time) (p : SubmitSm) : SubmitSm :=
  {| ServiceType := ServiceType p; SourceAddrTon := SourceAddrTon p;
     SourceAddrNpi := SourceAddrNpi p; SourceAddr := SourceAddr p;
     DestAddrTon := DestAddrTon p; DestAddrNpi := DestAddrNpi p;
     DestinationAddr := DestinationAddr p; EsmClass_ := EsmClass_ p;
     ProtocolID := ProtocolID p; PriorityFlag := PriorityFlag p; ScheduleDeliveryTime := v;
     ValidityPeriod := ValidityPeriod p; RegisteredDelivery_ := RegisteredDelivery_ p;
     ReplaceIfPresentFlag := ReplaceIfPresentFlag p; DataCoding := DataCoding p;
     SmDefaultMsgID := SmDefaultMsgID p; ShortMessage := ShortMessage p;
     Options_ := Options_ p |}.
Definition set_ValidityPeriod (v : Gotime.Time) (p : SubmitSm) : SubmitSm :=
  {| ServiceType := ServiceType p; SourceAddrTon := SourceAddrTon p;
     SourceAddrNpi := SourceAddrNpi p; SourceAddr := SourceAddr p;
     DestAddrTon := DestAddrTon p; DestAddrNpi := DestAddrNpi p;
     DestinationAddr := DestinationAddr p; EsmClass_ := EsmClass_ p;
     ProtocolID := ProtocolID p; PriorityFlag := PriorityFlag p;
     ScheduleDeliveryTime := ScheduleDeliveryTime p; ValidityPeriod := v;
     RegisteredDelivery_ := RegisteredDelivery_ p;
     ReplaceIfPresentFlag := ReplaceIfPresentFlag p; DataCoding := DataCoding p;
     SmDefaultMsgID := SmDefaultMsgID p; ShortMessage := ShortMessage p;
     Options_ := Options_ p |}.
Definition set_RegisteredDelivery_ (v : RegisteredDelivery) (p : SubmitSm) : SubmitSm :=
  {| ServiceType := ServiceType p; SourceAddrTon := SourceAddrTon p;
     SourceAddrNpi := SourceAddrNpi p; SourceAddr := SourceAddr p;
     DestAddrTon := DestAddrTon p; DestAddrNpi := DestAddrNpi p;
     DestinationAddr := DestinationAddr p; EsmClass_ := EsmClass_ p;
     ProtocolID := ProtocolID p; PriorityFlag := PriorityFlag p;
     ScheduleDeliveryTime := ScheduleDeliveryTime p; ValidityPeriod := ValidityPeriod p;
     RegisteredDelivery_ := v; ReplaceIfPresentFlag := ReplaceIfPresentFlag p;
     DataCoding := DataCoding p; SmDefaultMsgID := SmDefaultMsgID p;
     ShortMessage := ShortMessage p; Options_ := Options_ p |}.
Definition set_ReplaceIfPresentFlag (v : Z) (p : SubmitSm) : SubmitSm :=
  {| ServiceType := ServiceType p; SourceAddrTon := SourceAddrTon p;
     SourceAddrNpi := SourceAddrNpi p; SourceAddr := SourceAddr p;
     DestAddrTon := DestAddrTon p; DestAddrNpi := DestAddrNpi p;
     DestinationAddr := DestinationAddr p; EsmClass_ := EsmClass_ p;
     ProtocolID := ProtocolID p; PriorityFlag := PriorityFlag p;
     ScheduleDeliveryTime := ScheduleDeliveryTime p; ValidityPeriod := ValidityPeriod p;
     RegisteredDelivery_ := RegisteredDelivery_ p; ReplaceIfPresentFlag := v;
     DataCoding := DataCoding p; SmDefaultMsgID := SmDefaultMsgID p;
     ShortMessage := ShortMessage p; Options_ := Options_ p |}.
Definition set_DataCoding (v : Z) (p : SubmitSm) : SubmitSm :=
  {| ServiceType := ServiceType p; SourceAddrTon := SourceAddrTon p;
     SourceAddrNpi := SourceAddrNpi p; SourceAddr := SourceAddr p;
     DestAddrTon := DestAddrTon p; DestAddrNpi := DestAddrNpi p;
     DestinationAddr := DestinationAddr p; EsmClass_ := EsmClass_ p;
     ProtocolID := ProtocolID p; PriorityFlag := PriorityFlag p;
     ScheduleDeliveryTime := ScheduleDeliveryTime p; ValidityPeriod := ValidityPeriod p;
     RegisteredDelivery_ := RegisteredDelivery_ p;
     ReplaceIfPresentFlag := ReplaceIfPresentFlag p; DataCoding := v;
     SmDefaultMsgID := SmDefaultMsgID p; ShortMessage := ShortMessage p;
     Options_ := Options_ p |}.
Definition set_SmDefaultMsgID (v : Z) (p : SubmitSm) : SubmitSm :=
  {| ServiceType := ServiceType p; SourceAddrTon := SourceAddrTon p;
     SourceAddrNpi := SourceAddrNpi p; SourceAddr := SourceAddr p;
     DestAddrTon := DestAddrTon p; DestAddrNpi := DestAddrNpi p;
     DestinationAddr := DestinationAddr p; EsmClass_ := EsmClass_ p;
     ProtocolID := ProtocolID p; PriorityFlag := PriorityFlag p;
     ScheduleDeliveryTime := ScheduleDeliveryTime p; ValidityPeriod := ValidityPeriod p;
     RegisteredDelivery_ := RegisteredDelivery_ p;
     ReplaceIfPresentFlag := ReplaceIfPresentFlag p; DataCoding := DataCoding p;
     SmDefaultMsgID := v; ShortMessage := ShortMessage p; Options_ := Options_ p |}.
Definition set_ShortMessage (v : string) (p : SubmitSm) : SubmitSm :=
  {| ServiceType := ServiceType p; SourceAddrTon := SourceAddrTon p;
     SourceAddrNpi := SourceAddrNpi p; SourceAddr := SourceAddr p;
     DestAddrTon := DestAddrTon p; DestAddrNpi := DestAddrNpi p;
     DestinationAddr := DestinationAddr p; EsmClass_ := EsmClass_ p;
     ProtocolID := ProtocolID p; PriorityFlag := PriorityFlag p;
     ScheduleDeliveryTime := ScheduleDeliveryTime p; ValidityPeriod := ValidityPeriod p;
     RegisteredDelivery_ := RegisteredDelivery_ p;
     ReplaceIfPresentFlag := ReplaceIfPresentFlag p; DataCoding := DataCoding p;
     SmDefaultMsgID := SmDefaultMsgID p; ShortMessage := v; Options_ := Options_ p |}.
Definition set_Options_ (v : option Options) (p : SubmitSm) : SubmitSm :=
  {| ServiceType := ServiceType p; SourceAddrTon := SourceAddrTon p;
     SourceAddrNpi := SourceAddrNpi p; SourceAddr := SourceAddr p;
     DestAddrTon := DestAddrTon p; DestAddrNpi := DestAddrNpi p;
     DestinationAddr := DestinationAddr p; EsmClass_ := EsmClass_ p;
     ProtocolID := ProtocolID p; PriorityFlag := PriorityFlag p;
     ScheduleDeliveryTime := ScheduleDeliveryTime p; ValidityPeriod := ValidityPeriod p;
     RegisteredDelivery_ := RegisteredDelivery_ p;
     ReplaceIfPresentFlag := ReplaceIfPresentFlag p; DataCoding := DataCoding p;
     SmDefaultMsgID := SmDefaultMsgID p; ShortMessage := ShortMessage p; Options_ := v |}.

(** [SubmitSm{}] *)
Definition zeroSubmitSm : SubmitSm :=
  {| ServiceType := ""; SourceAddrTon := 0; SourceAddrNpi := 0;
     SourceAddr := ""; DestAddrTon := 0; DestAddrNpi := 0;
     DestinationAddr := "";
     EsmClass_ := {| Mode := 0; Type_ := 0; Feature := 0 |};
     ProtocolID := 0; PriorityFlag := 0;
     ScheduleDeliveryTime := Gotime.zeroTime; ValidityPeriod := Gotime.zeroTime;
     RegisteredDelivery_ := {| Receipt := 0; SMEAck := 0; InterNotification := 0 |};
     ReplaceIfPresentFlag := 0; DataCoding := 0; SmDefaultMsgID := 0;
     ShortMessage := ""; Options_ := None |}.

(** [func (p SubmitSm) MarshalBinary() ([]byte, error)], when the range
    over the options follows [order]; both [writeTime] calls use the
    absolute layout, whose formatting cannot fail. *)
Definition SubmitSm_MarshalBinary (now : Gotime.Time)
    (order : gmap Z bytes -> list (Z * bytes)) (p : SubmitSm) : result bytes :=
  let out := bytes_of_string (ServiceType p)
             ++ [0; byte (SourceAddrTon p); byte (SourceAddrNpi p)] in
  let out := out ++ (bytes_of_string (SourceAddr p) ++ [0]) in
  let out := out ++ [byte (DestAddrTon p); byte (DestAddrNpi p)] in
  let out := out ++ (bytes_of_string (DestinationAddr p) ++ [0]) in
  let out := out ++ [EsmClass_Byte (EsmClass_ p); byte (ProtocolID p); byte (PriorityFlag p)] in
  let tm := writeTime now Smpptime.Absolute (ScheduleDeliveryTime p) in
  let out := out ++ tm in
  let tm := writeTime now Smpptime.Absolute (ValidityPeriod p) in
  let out := out ++ tm in
  let l := len (bytes_of_string (ShortMessage p)) in
  let out := out ++ [RegisteredDelivery_Byte (RegisteredDelivery_ p);
                     byte (ReplaceIfPresentFlag p); byte (DataCoding p);
                     byte (SmDefaultMsgID p); byte l] in
  let out := if 0 <? l then out ++ bytes_of_string (ShortMessage p) else out in
  match Options_ p with
  | None => Ok out
  | Some o => Ok (out ++ MarshalBinary_in (order (fields o)))
  end.

(** A result of a pure call, as a step of the reader. *)
Definition liftResult {P A} (r : result A) : Reader P A := fun st => (st, r).

(** The mandatory fields of [SubmitSm.UnmarshalBinary]. *)
Definition readSubmitSm (now : Gotime.Time) : Reader SubmitSm unit :=
  let! res := orFail "smpp/pdu: decoding service_type %s" (ReadCString 6) in
  do! assign (set_ServiceType (string_of_bytes res)) in
  let! b := orFail "smpp/pdu: decoding source_addr_ton %s" ReadByte in
  do! assign (set_SourceAddrTon b) in
  let! b := orFail "smpp/pdu: decoding source_addr_npi %s" ReadByte in
  do! assign (set_SourceAddrNpi b) in
  let! res := orFail "smpp/pdu: decoding source_addr %s" (ReadCString 21) in
  do! assign (set_SourceAddr (string_of_bytes res)) in
  let! b := orFail "smpp/pdu: decoding dest_addr_ton %s" ReadByte in
  do! assign (set_DestAddrTon b) in
  let! b := orFail "smpp/pdu: decoding dest_addr_npi %s" ReadByte in
  do! assign (set_DestAddrNpi b) in
  let! res := orFail "smpp/pdu: decoding dest_addr %s" (ReadCString 21) in
  do! assign (set_DestinationAddr (string_of_bytes res)) in
  let! b := orFail "smpp/pdu: decoding esm_class %s" ReadByte in
  do! assign (set_EsmClass_ (ParseEsmClass b)) in
  let! b := orFail "smpp/pdu: decoding protocol_id %s" ReadByte in
  do! assign (set_ProtocolID b) in
  let! b := orFail "smpp/pdu: decoding priority_flag %s" ReadByte in
  do! assign (set_PriorityFlag b) in
  let! res := orFail "smpp/pdu: decoding schedule_delivery_time %s" (ReadCString 17) in
  let! t := orFail "smpp/pdu: decoding schedule_delivery_time %s"
                   (liftResult (Smpptime.Parse now res)) in
  do! assign (set_ScheduleDeliveryTime t) in
  let! res := orFail "smpp/pdu: decoding validity_period %s" (ReadCString 17) in
  let! t := orFail "smpp/pdu: decoding validity_period %s"
                   (liftResult (Smpptime.Parse now res)) in
  do! assign (set_ValidityPeriod t) in
  let! b := orFail "smpp/pdu: decoding registered_delivery %s" ReadByte in
  do! assign (set_RegisteredDelivery_ (ParseRegisteredDelivery b)) in
  let! b := orFail "smpp/pdu: decoding replace_if_present_flag %s" ReadByte in
  do! assign (set_ReplaceIfPresentFlag b) in
  let! b := orFail "smpp/pdu: decoding data_coding %s" ReadByte in
  do! assign (set_DataCoding b) in
  let! b := orFail "smpp/pdu: decoding sm_default_msg_id %s" ReadByte in
  do! assign (set_SmDefaultMsgID b) in
  let! sm := orFail "smpp/pdu: decoding short_message %s" (ReadString 254) in
  assign (set_ShortMessage (string_of_bytes sm)).

(** [func (p *SubmitSm) UnmarshalBinary(body []byte) error] *)
Definition SubmitSm_UnmarshalBinary (now : Gotime.Time) (p : SubmitSm) (body : bytes)
  : option (SubmitSm * option error) :=
  if len body <? 25 then
    Some (p, Some (fmt_Errorf "smpp/pdu: submit_sm body too short: %d" [ArgInt (len body)]))
  else
    match readSubmitSm now (body, p) with
    | ((_, p), Err e) => Some (p, Some e)
    | ((rest, p), Ok _) =>
        if len rest =? 0 then Some (p, None)
        else
          let opts := match Options_ p with None => NewOptions | Some o => o end in
          match Options_UnmarshalBinary opts rest with
          | None => None
          | Some (opts, err) => Some (set_Options_ (Some opts) p, err)
          end
    end.

(** [SubmitSm] as a [PDU], with the clock reading [now]; the range
    over the options follows [map_to_list]. *)
Definition SubmitSm_PDU (now : Gotime.Time) : PDU SubmitSm := {|
  CommandID _ := SubmitSmID;
  MarshalBinary := SubmitSm_MarshalBinary now map_to_list;
  UnmarshalBinary := SubmitSm_UnmarshalBinary now
|}.

(** ** header.go *)

(** [type header struct { length uint32; commandID; status; sequence }] *)
Record header := {
  h_length : Z;
  h_commandID : Z;
  h_status : Z;
  h_sequence : Z
}.

(** [func (h *header) UnmarshalBinary(body []byte) error]: the length is
    stored before it is checked, and the other three words are read
    only when it passed both checks.  Each slice expression panics on
    a body that is too short for it (the capacity of [body] is taken
    to be its length). *)
Definition header_UnmarshalBinary (h : header) (body : bytes) : outcome (header * option error) :=
  if len body <? 4 then Panic "slice bounds out of range"
  else
    match Uint32 (slice body 0 4) with
    | Panic msg => Panic msg
    | Return l =>
        let h := {| h_length := l; h_commandID := h_commandID h; h_status := h_status h;
                    h_sequence := h_sequence h |} in
        if l <? 16 then Return (h, Some (errors_New "smpp: pdu length under lower limit"))
        else if MaxPDUSize <? l
        then Return (h, Some (errors_New "smpp: pdu length over upper limit"))
        else if len body <? 16 then Panic "slice bounds out of range"
        else
          match Uint32 (slice body 4 8), Uint32 (slice body 8 12),
                Uint32 (slice body 12 16) with
          | Return c, Return st, Return sq =>
              Return ({| h_length := l; h_commandID := c; h_status := st; h_sequence := sq |},
                      None)
          | _, _, _ => Panic "index out of range"
          end
    end.

(** ** The other PDU types *)

(** [type BindTx struct] and [type BindRx struct] have the fields of
    [BindTRx] and the same [marshalBind] and [unmarshalBind]; they
    differ in their command id. *)
Inductive BindTx : Type := mkBindTx (f : BindTRx).
Inductive BindRx : Type := mkBindRx (f : BindTRx).

(** [BindTRx{}] *)
Definition zeroBind : BindTRx :=
  {| bind_SystemID := ""; bind_Password := ""; bind_SystemType := "";
     bind_InterfaceVersion := 0; bind_AddrTon := 0; bind_AddrNpi := 0;
     bind_AddressRange := "" |}.

#[global] Instance BindTx_PDU : PDU BindTx := {
  CommandID _ := BindTransmitterID;
  MarshalBinary '(mkBindTx p) := MarshalBinary p;
  UnmarshalBinary '(mkBindTx p) body :=
    let '(p, err) := unmarshalBind p body in Some (mkBindTx p, err)
}.

#[global] Instance BindRx_PDU : PDU BindRx := {
  CommandID _ := BindReceiverID;
  MarshalBinary '(mkBindRx p) := MarshalBinary p;
  UnmarshalBinary '(mkBindRx p) body :=
    let '(p, err) := unmarshalBind p body in Some (mkBindRx p, err)
}.

(** [type SubmitSmResp struct { MessageID string; Options *Options }] *)
Record SubmitSmResp := { sresp_MessageID : string; sresp_Options : option Options }.

(** [SubmitSmResp] as a PDU when the range over the options follows
    [order], and the instance for one of the orders that can occur. *)
Definition SubmitSmResp_PDU_in (order : gmap Z bytes -> list (Z * bytes))
  : PDU SubmitSmResp := {|
  CommandID _ := SubmitSmRespID;
  MarshalBinary p :=
    Ok (cStringOptsRespMarshal order (sresp_MessageID p) (sresp_Options p));
  UnmarshalBinary p body :=
    match cStringOptsRespUnmarshal body with
    | Some (mid, opts, err) =>
        Some ({| sresp_MessageID := mid; sresp_Options := opts |}, err)
    | None => None
    end
|}.

#[global] Instance SubmitSmResp_PDU : PDU SubmitSmResp := SubmitSmResp_PDU_in map_to_list.

(** deliver_sm.go: [type DeliverSm struct] has the fields of
    [SubmitSm]; its [MarshalBinary] is the same, and so is its
    [UnmarshalBinary] up to the text of the first error. *)
Inductive DeliverSm : Type := mkDeliverSm (f : SubmitSm).

Definition DeliverSm_UnmarshalBinary (now : Gotime.Time) (p : SubmitSm) (body : bytes)
  : option (SubmitSm * option error) :=
  if len body <? 25 then
    Some (p, Some (fmt_Errorf "smpp/pdu: deliver_sm body too short: %d" [ArgInt (len body)]))
  else
    match readSubmitSm now (body, p) with
    | ((_, p), Err e) => Some (p, Some e)
    | ((rest, p), Ok _) =>
        if len rest =? 0 then Some (p, None)
        else
          let opts := match Options_ p with None => NewOptions | Some o => o end in
          match Options_UnmarshalBinary opts rest with
          | None => None
          | Some (opts, err) => Some (set_Options_ (Some opts) p, err)
          end
    end.

Definition DeliverSm_PDU (now : Gotime.Time) : PDU DeliverSm := {|
  CommandID _ := DeliverSmID;
  MarshalBinary '(mkDeliverSm p) := SubmitSm_MarshalBinary now map_to_list p;
  UnmarshalBinary '(mkDeliverSm p) body :=
    match DeliverSm_UnmarshalBinary now p body with
    | Some (p, err) => Some (mkDeliverSm p, err)
    | None => None
    end
|}.

(** [type DeliverSmResp struct { MessageID string }]: the body is a
    single NUL whatever the message id is, and nothing is read back. *)
Record DeliverSmResp := { dresp_MessageID : string }.

#[global] Instance DeliverSmResp_PDU : PDU DeliverSmResp := {
  CommandID _ := DeliverSmRespID;
  MarshalBinary _ := Ok [0];
  UnmarshalBinary p _ := Some (p, None)
}.

(** query_sm.go *)
Record QuerySm := {
  q_MessageID : string;
  q_SourceAddrTon : Z;
  q_SourceAddrNpi : Z;
  q_SourceAddr : string
}.

Definition QuerySm_UnmarshalBinary (p : QuerySm) (body : bytes) : QuerySm * option error :=
  if len body <? 6 then
    (p, Some (fmt_Errorf "smpp/pdu: query_sm body too short: %d" [ArgInt (len body)]))
  else
    runReader (
      let! res := orFail "smpp/pdu: decoding message_id %s" (ReadCString 65) in
      do! assign (fun p => {| q_MessageID := string_of_bytes res;
          q_SourceAddrTon := q_SourceAddrTon p; q_SourceAddrNpi := q_SourceAddrNpi p;
          q_SourceAddr := q_SourceAddr p |}) in
      let! b := orFail "smpp/pdu: decoding source_addr_ton %s" ReadByte in
      do! assign (fun p => {| q_MessageID := q_MessageID p;
          q_SourceAddrTon := b; q_SourceAddrNpi := q_SourceAddrNpi p;
          q_SourceAddr := q_SourceAddr p |}) in
      let! b := orFail "smpp/pdu: decoding source_addr_npi %s" ReadByte in
      do! assign (fun p => {| q_MessageID := q_MessageID p;
          q_SourceAddrTon := q_SourceAddrTon p; q_SourceAddrNpi := b;
          q_SourceAddr := q_SourceAddr p |}) in
      let! res := orFail "smpp/pdu: decoding source_addr %s" (ReadCString 21) in
      assign (fun p => {| q_MessageID := q_MessageID p;
          q_SourceAddrTon := q_SourceAddrTon p; q_SourceAddrNpi := q_SourceAddrNpi p;
          q_SourceAddr := string_of_bytes res |})
    ) p body.

#[global] Instance QuerySm_PDU : PDU QuerySm := {
  CommandID _ := QuerySmID;
  MarshalBinary p :=
    let out := bytes_of_string (q_MessageID p) ++ [0] in
    let out := out ++ [byte (q_SourceAddrTon p); byte (q_SourceAddrNpi p)] in
    let out := out ++ (bytes_of_string (q_SourceAddr p) ++ [0]) in
    Ok out;
  UnmarshalBinary p body := Some (QuerySm_UnmarshalBinary p body)
}.

Record QuerySmResp := {
  qresp_MessageID : string;
  qresp_FinalDate : Gotime.Time;
  qresp_MessageState : Z;
  qresp_ErrorCode : Z
}.

Definition QuerySmResp_UnmarshalBinary (now : Gotime.Time) (p : QuerySmResp) (body : bytes)
  : QuerySmResp * option error :=
  if len body <? 6 then
    (p, Some (fmt_Errorf "smpp/pdu: query_sm body too short: %d" [ArgInt (len body)]))
  else
    runReader (
      let! res := orFail "smpp/pdu: decoding message_id %s" (ReadCString 65) in
      do! assign (fun p => {| qresp_MessageID := string_of_bytes res;
          qresp_FinalDate := qresp_FinalDate p; qresp_MessageState := qresp_MessageState p;
          qresp_ErrorCode := qresp_ErrorCode p |}) in
      let! res := orFail "smpp/pdu: decoding final_date %s" (ReadCString 17) in
      let! t := orFail "smpp/pdu: decoding final_date %s"
                       (liftResult (Smpptime.Parse now res)) in
      do! assign (fun p => {| qresp_MessageID := qresp_MessageID p;
          qresp_FinalDate := t; qresp_MessageState := qresp_MessageState p;
          qresp_ErrorCode := qresp_ErrorCode p |}) in
      let! b := orFail "smpp/pdu: decoding message_state %s" ReadByte in
      do! assign (fun p => {| qresp_MessageID := qresp_MessageID p;
          qresp_FinalDate := qresp_FinalDate p; qresp_MessageState := b;
          qresp_ErrorCode := qresp_ErrorCode p |}) in
      let! b := orFail "smpp/pdu: decoding error_code %s" ReadByte in
      assign (fun p => {| qresp_MessageID := qresp_MessageID p;
          qresp_FinalDate := qresp_FinalDate p; qresp_MessageState := qresp_MessageState p;
          qresp_ErrorCode := b |})
    ) p body.

Definition QuerySmResp_PDU (now : Gotime.Time) : PDU QuerySmResp := {|
  CommandID _ := QuerySmRespID;
  MarshalBinary p :=
    let out := bytes_of_string (qresp_MessageID p) ++ [0] in
    let tm := writeTime now Smpptime.Absolute (qresp_FinalDate p) in
    let out := out ++ tm in
    let out := out ++ [byte (qresp_MessageState p); byte (qresp_ErrorCode p)] in
    Ok out;
  UnmarshalBinary p body := Some (QuerySmResp_UnmarshalBinary now p body)
|}.

(** notsupportedyet.go: eleven empty structs whose [MarshalBinary] and
    [UnmarshalBinary] return the same error. *)
Inductive ReplaceSm : Type := mkReplaceSm.
Inductive ReplaceSmResp : Type := mkReplaceSmResp.
Inductive CancelSm : Type := mkCancelSm.
Inductive CancelSmResp : Type := mkCancelSmResp.
Inductive Outbind : Type := mkOutbind.
Inductive SubmitMulti : Type := mkSubmitMulti.
Inductive SubmitMultiResp : Type := mkSubmitMultiResp.
Inductive AlertNotification : Type := mkAlertNotification.
Inductive DataSm : Type := mkDataSm.
Inductive DataSmResp : Type := mkDataSmResp.

Definition notSupported (ID : Z) : error :=
  fmt_Errorf "Command %s is not supported yet" [ArgInt ID].

(** The three methods of such a struct with command id [ID]. *)
Definition notSupported_PDU {P : Type} (ID : Z) : PDU P := {|
  CommandID _ := ID;
  MarshalBinary _ := Err (notSupported ID);
  UnmarshalBinary p _ := Some (p, Some (notSupported ID))
|}.

#[global] Instance ReplaceSm_PDU : PDU ReplaceSm := notSupported_PDU ReplaceSmID.
#[global] Instance ReplaceSmResp_PDU : PDU ReplaceSmResp := notSupported_PDU ReplaceSmRespID.
#[global] Instance CancelSm_PDU : PDU CancelSm := notSupported_PDU CancelSmID.
#[global] Instance CancelSmResp_PDU : PDU CancelSmResp := notSupported_PDU CancelSmRespID.
#[global] Instance Outbind_PDU : PDU Outbind := notSupported_PDU OutbindID.
#[global] Instance SubmitMulti_PDU : PDU SubmitMulti := notSupported_PDU SubmitMultiID.
#[global] Instance SubmitMultiResp_PDU : PDU SubmitMultiResp :=
  notSupported_PDU SubmitMultiRespID.
#[global] Instance AlertNotification_PDU : PDU AlertNotification :=
  notSupported_PDU AlertNotificationID.
#[global] Instance DataSm_PDU : PDU DataSm := notSupported_PDU DataSmID.
#[global] Instance DataSmResp_PDU : PDU DataSmResp := notSupported_PDU DataSmRespID.

(** ** pdu.go: the decoder *)

(** A value of the interface type [PDU]: a value of some type together
    with its methods. *)
Record anyPDU := Any { any_type : Type; any_PDU : PDU any_type; any_value : any_type }.
Arguments Any {any_type} any_PDU any_value.

(** [func NewPDU(commandID CommandID) PDU]: a pointer to the zero value
    of the type of the command, and a panic for any other id. *)
Definition NewPDU (now : Gotime.Time) (commandID : Z) : outcome anyPDU :=
  if commandID =? GenericNackID then Return (Any GenericNack_PDU mkGenericNack)
  else if commandID =? BindReceiverID then Return (Any BindRx_PDU (mkBindRx zeroBind))
  else if commandID =? BindReceiverRespID
  then Return (Any BindRxResp_PDU {| rxresp_SystemID := ""; rxresp_Options := None |})
  else if commandID =? BindTransmitterID then Return (Any BindTx_PDU (mkBindTx zeroBind))
  else if commandID =? BindTransmitterRespID
  then Return (Any BindTxResp_PDU {| txresp_SystemID := ""; txresp_Options := None |})
  else if commandID =? BindTransceiverID then Return (Any BindTRx_PDU zeroBind)
  else if commandID =? BindTransceiverRespID
  then Return (Any BindTRxResp_PDU {| trxresp_SystemID := ""; trxresp_Options := None |})
  else if commandID =? EnquireLinkID then Return (Any EnquireLink_PDU mkEnquireLink)
  else if commandID =? EnquireLinkRespID
  then Return (Any EnquireLinkResp_PDU mkEnquireLinkResp)
  else if commandID =? QuerySmID
  then Return (Any QuerySm_PDU {| q_MessageID := ""; q_SourceAddrTon := 0;
                                 q_SourceAddrNpi := 0; q_SourceAddr := "" |})
  else if commandID =? QuerySmRespID
  then Return (Any (QuerySmResp_PDU now)
                   {| qresp_MessageID := ""; qresp_FinalDate := Gotime.zeroTime;
                      qresp_MessageState := 0; qresp_ErrorCode := 0 |})
  else if commandID =? SubmitSmID then Return (Any (SubmitSm_PDU now) zeroSubmitSm)
  else if commandID =? SubmitSmRespID
  then Return (Any SubmitSmResp_PDU {| sresp_MessageID := ""; sresp_Options := None |})
  else if commandID =? DeliverSmID
  then Return (Any (DeliverSm_PDU now) (mkDeliverSm zeroSubmitSm))
  else if commandID =? DeliverSmRespID
  then Return (Any DeliverSmResp_PDU {| dresp_MessageID := "" |})
  else if commandID =? UnbindID then Return (Any Unbind_PDU mkUnbind)
  else if commandID =? UnbindRespID then Return (Any UnbindResp_PDU mkUnbindResp)
  else if commandID =? ReplaceSmID then Return (Any ReplaceSm_PDU mkReplaceSm)
  else if commandID =? ReplaceSmRespID then Return (Any ReplaceSmResp_PDU mkReplaceSmResp)
  else if commandID =? CancelSmID then Return (Any CancelSm_PDU mkCancelSm)
  else if commandID =? CancelSmRespID then Return (Any CancelSmResp_PDU mkCancelSmResp)
  else if commandID =? OutbindID then Return (Any Outbind_PDU mkOutbind)
  else if commandID =? SubmitMultiID then Return (Any SubmitMulti_PDU mkSubmitMulti)
  else if commandID =? SubmitMultiRespID
  then Return (Any SubmitMultiResp_PDU mkSubmitMultiResp)
  else if commandID =? AlertNotificationID
  then Return (Any AlertNotification_PDU mkAlertNotification)
  else if commandID =? DataSmID then Return (Any DataSm_PDU mkDataSm)
  else if commandID =? DataSmRespID then Return (Any DataSmResp_PDU mkDataSmResp)
  else Panic "pdu: unsupported PDU command".

(** [func IsRequest(id CommandID) bool] *)
Definition IsRequest (id : Z) : bool :=
  negb (existsb (Z.eqb id) [GenericNackID; BindReceiverRespID; BindTransmitterRespID; QuerySmRespID;
                     SubmitSmRespID; DeliverSmRespID; UnbindRespID; ReplaceSmRespID;
                     CancelSmRespID; BindTransceiverRespID; EnquireLinkRespID;
                     SubmitMultiRespID; DataSmRespID]).

(** [io.ReadFull(r, buf)] with [len(buf) = n], on a reader that yields
    the bytes [r] and then [io.EOF]: the bytes read are consumed, and
    too few of them give [io.ErrUnexpectedEOF]. *)
Definition ReadFull (r : bytes) (n : Z) : bytes * result bytes :=
  if n <=? 0 then (r, Ok [])
  else if len r =? 0 then (r, Err io_EOF)
  else if len r <? n then ([], Err (errors_New "unexpected EOF"))
  else (drop (Z.to_nat n) r, Ok (take (Z.to_nat n) r)).

(** What [Decode] returns: the header, the PDU and the error, each of
    which may be nil. *)
Definition decoded : Type := option header * option anyPDU * option error.

(** [func (d *Decoder) Decode() (Header, PDU, error)] on the reader
    [r]; the result comes with what is left of [r].  A body is read and
    unmarshalled only when the length of the header exceeds 16.  [None]
    stands for an [UnmarshalBinary] that ran out of fuel. *)
Definition Decode (now : Gotime.Time) (r : bytes) : option (outcome (bytes * decoded)) :=
  match ReadFull r 16 with
  | (r, Err err) => Some (Return (r, (None, None, Some err)))
  | (r, Ok headerBytes) =>
      match header_UnmarshalBinary
              {| h_length := 0; h_commandID := 0; h_status := 0; h_sequence := 0 |}
              headerBytes with
      | Panic msg => Some (Panic msg)
      | Return (h, Some err) => Some (Return (r, (Some h, None, Some err)))
      | Return (h, None) =>
          if h_length h <? 16 then
            Some (Return (r, (Some h, None,
                              Some (fmt_Errorf "smpp: invalid pdu header byte length: %d"
                                               [ArgInt (h_length h)]))))
          else
            match NewPDU now (h_commandID h) with
            | Panic msg => Some (Panic msg)
            | Return pdu =>
                if h_length h =? 16 then Some (Return (r, (Some h, Some pdu, None)))
                else
                  let n := h_length h - 16 in
                  match ReadFull r n with
                  | (r, Err _) =>
                      Some (Return (r, (Some h, Some pdu,
                        Some (fmt_Errorf
                                "smpp: pdu length doesn't match read body length %d != %d"
                                [ArgInt (h_length h); ArgInt n]))))
                  | (r, Ok bodyBytes) =>
                      match UnmarshalBinary (PDU := any_PDU pdu) (any_value pdu) bodyBytes with
                      | None => None
                      | Some (p, err) =>
                          Some (Return (r, (Some h, Some (Any (any_PDU pdu) p), err)))
                      end
                  end
            end
      end
  end.

(** ** receipt.go *)

(** [type DeliveryReceipt struct] *)
Record DeliveryReceipt := {
  Id : string;
  Sub : string;
  Dlvrd : string;
  SubmitDate : Gotime.Time;
  DoneDate : Gotime.Time;
  Stat : string;
  Err_ : string;
  Text : string
}.

(** [regexp.MustCompile(`(\w+ ?\w+)+:([\w\-]+)`)] *)
Definition deliveryReceipt : Regexp.regex :=
  let w := Regexp.Class Regexp.isWord in
  Regexp.Seq
    (Regexp.Plus
       (Regexp.Group 1
          (Regexp.Seq (Regexp.Plus w) (Regexp.Seq (Regexp.Opt (Regexp.Lit " ")) (Regexp.Plus w)))))
    (Regexp.Seq (Regexp.Lit ":")
       (Regexp.Group 2
          (Regexp.Plus (Regexp.Class (fun c => Regexp.isWord c || Ascii.eqb c "-"))))).

(** [recDateLayout = "0601021504"] and [secRecDateLayout = "060102150405"] *)
Definition recDateLayout : list Gotime.chunk := Gotime.layoutMinutes.
Definition secRecDateLayout : list Gotime.chunk := Gotime.layoutSeconds.

(** The two [time.Parse] calls of the cases 3 and 4: the minute layout
    first, the layout with seconds if that fails. *)
Definition parseRecDate (value : string) : result Gotime.Time :=
  match Gotime.Parse recDateLayout value with
  | Ok t => Ok t
  | Err _ =>
      match Gotime.Parse secRecDateLayout value with
      | Ok t => Ok t
      | Err err => Err err
      end
  end.

Definition invalidReceipt : error := errors_New "smpp: invalid receipt format".

(** The loop [for idx, m := range match] of [ParseDeliveryReceipt]. *)
Fixpoint receiptLoop (idx : nat) (matches : list (list string)) (delRec : DeliveryReceipt)
  : result DeliveryReceipt :=
  match matches with
  | [] => Ok delRec
  | m :: matches =>
      if negb (Nat.eqb (length m) 3) then Err invalidReceipt
      else
        let m1 := nth 1 m EmptyString in
        let m2 := nth 2 m EmptyString in
        match idx with
        | 0%nat =>
            if negb (String.eqb m1 "id") then Err invalidReceipt
            else receiptLoop (S idx) matches
                   {| Id := m2; Sub := Sub delRec; Dlvrd := Dlvrd delRec;
                      SubmitDate := SubmitDate delRec; DoneDate := DoneDate delRec;
                      Stat := Stat delRec; Err_ := Err_ delRec; Text := Text delRec |}
        | 1%nat =>
            if negb (String.eqb m1 "sub") then Err invalidReceipt
            else receiptLoop (S idx) matches
                   {| Id := Id delRec; Sub := m2; Dlvrd := Dlvrd delRec;
                      SubmitDate := SubmitDate delRec; DoneDate := DoneDate delRec;
                      Stat := Stat delRec; Err_ := Err_ delRec; Text := Text delRec |}
        | 2%nat =>
            if negb (String.eqb m1 "dlvrd") then Err invalidReceipt
            else receiptLoop (S idx) matches
                   {| Id := Id delRec; Sub := Sub delRec; Dlvrd := m2;
                      SubmitDate := SubmitDate delRec; DoneDate := DoneDate delRec;
                      Stat := Stat delRec; Err_ := Err_ delRec; Text := Text delRec |}
        | 3%nat =>
            if negb (String.eqb m1 "submit date") then Err invalidReceipt
            else
              match parseRecDate m2 with
              | Err _ => Err invalidReceipt
              | Ok t =>
                  receiptLoop (S idx) matches
                    {| Id := Id delRec; Sub := Sub delRec; Dlvrd := Dlvrd delRec;
                       SubmitDate := t; DoneDate := DoneDate delRec;
                       Stat := Stat delRec; Err_ := Err_ delRec; Text := Text delRec |}
              end
        | 4%nat =>
            if negb (String.eqb m1 "done date") then Err invalidReceipt
            else
              match parseRecDate m2 with
              | Err _ => Err invalidReceipt
              | Ok t =>
                  receiptLoop (S idx) matches
                    {| Id := Id delRec; Sub := Sub delRec; Dlvrd := Dlvrd delRec;
                       SubmitDate := SubmitDate delRec; DoneDate := t;
                       Stat := Stat delRec; Err_ := Err_ delRec; Text := Text delRec |}
              end
        | 5%nat =>
            if negb (String.eqb m1 "stat") then Err invalidReceipt
            else receiptLoop (S idx) matches
                   {| Id := Id delRec; Sub := Sub delRec; Dlvrd := Dlvrd delRec;
                      SubmitDate := SubmitDate delRec; DoneDate := DoneDate delRec;
                      Stat := m2; Err_ := Err_ delRec; Text := Text delRec |}
        | 6%nat =>
            if negb (String.eqb m1 "err") then Err invalidReceipt
            else receiptLoop (S idx) matches
                   {| Id := Id delRec; Sub := Sub delRec; Dlvrd := Dlvrd delRec;
                      SubmitDate := SubmitDate delRec; DoneDate := DoneDate delRec;
                      Stat := Stat delRec; Err_ := m2; Text := Text delRec |}
        | _ => Err invalidReceipt
        end
  end.

(** [strings.Index(sm, "text:")], and [strings.Index(sm, "Text:")] when
    the first is [-1]. *)
Definition textIndex (sm : string) : option nat :=
  match String.index 0 "text:" sm with
  | Some i => Some i
  | None => String.index 0 "Text:" sm
  end.

(** [func ParseDeliveryReceipt(sm string)]: the receipt or the error. *)
Definition ParseDeliveryReceipt (sm : string) : result DeliveryReceipt :=
  match textIndex sm with
  | None => Err invalidReceipt
  | Some i =>
      let delRec :=
        {| Id := ""; Sub := ""; Dlvrd := ""; SubmitDate := Gotime.zeroTime;
           DoneDate := Gotime.zeroTime; Stat := ""; Err_ := ""; Text := "" |} in
      let matches := Regexp.FindAllStringSubmatch deliveryReceipt 2 (substring 0 i sm) in
      match receiptLoop 0 matches delRec with
      | Err e => Err e
      | Ok delRec =>
          Ok {| Id := Id delRec; Sub := Sub delRec; Dlvrd := Dlvrd delRec;
                SubmitDate := SubmitDate delRec; DoneDate := DoneDate delRec;
                Stat := Stat delRec; Err_ := Err_ delRec;
                Text := substring (i + 5) (String.length sm - (i + 5)) sm |}
      end
  end.

(** ** constants.go: the other command statuses *)

Definition StatusInvMsgLen : Z := 0x00000001.
Definition StatusInvCmdLen : Z := 0x00000002.
Definition StatusInvCmdID : Z := 0x00000003.
Definition StatusAlyBnd : Z := 0x00000005.
Definition StatusInvPrtFlg : Z := 0x00000006.
Definition StatusInvRegDlvFlg : Z := 0x00000007.
Definition StatusInvSrcAdr : Z := 0x0000000A.
Definition StatusInvDstAdr : Z := 0x0000000B.
Definition StatusInvMsgID : Z := 0x0000000C.
Definition StatusBindFail : Z := 0x0000000D.
Definition StatusInvPaswd : Z := 0x0000000E.
Definition StatusInvSysID : Z := 0x0000000F.
Definition StatusCancelFail : Z := 0x00000011.
Definition StatusReplaceFail : Z := 0x00000013.
Definition StatusMsgQFul : Z := 0x00000014.
Definition StatusInvSerTyp : Z := 0x00000015.
Definition StatusInvNumDe : Z := 0x00000033.
Definition StatusInvDLName : Z := 0x00000034.
Definition StatusInvDestFlag : Z := 0x00000040.
Definition StatusInvSubRep : Z := 0x00000042.
Definition StatusInvEsmClass : Z := 0x00000043.
Definition StatusCntSubDL : Z := 0x00000044.
Definition StatusSubmitFail : Z := 0x00000045.
Definition StatusInvSrcTON : Z := 0x00000048.
Definition StatusInvSrcNPI : Z := 0x00000049.
Definition StatusInvDstTON : Z := 0x00000050.
Definition StatusInvDstNPI : Z := 0x00000051.
Definition StatusInvSysTyp : Z := 0x00000053.
Definition StatusInvRepFlag : Z := 0x00000054.
Definition StatusInvNumMsgs : Z := 0x00000055.
Definition StatusInvSched : Z := 0x00000061.
Definition StatusInvExpiry : Z := 0x00000062.
Definition StatusInvDftMsgID : Z := 0x00000063.
Definition StatusTempAppErr : Z := 0x00000064.
Definition StatusPermAppErr : Z := 0x00000065.
Definition StatusRejeAppErr : Z := 0x00000066.
Definition StatusQueryFail : Z := 0x00000067.
Definition StatusInvOptParStream : Z := 0x000000C0.
Definition StatusOptParNotAllwd : Z := 0x000000C1.
Definition StatusInvParLen : Z := 0x000000C2.
Definition StatusMissingOptParam : Z := 0x000000C3.
Definition StatusInvOptParamVal : Z := 0x000000C4.
Definition StatusDeliveryFailure : Z := 0x000000FE.
Definition StatusUnknownErr : Z := 0x000000FF.

(** ** pdu.go: the user data header *)

(** [func SeparateUDH(c []byte) ([]byte, []byte, error)]: the header is
    the length byte and the [l] bytes after it. *)
Definition SeparateUDH (c : bytes) : bytes * bytes * option error :=
  match c with
  | [] => ([], c, Some (errors_New "smpp: invalid udh length"))
  | l :: _ =>
      if l >=? len c then ([], c, Some (errors_New "smpp: invalid udh length value"))
      else (slice c 0 (l + 1), slice c (l + 1) (len c), None)
  end.

(** ** pdu.go: the PDUs as the decoder hands them on *)

(** The dynamic type of a value of the interface [PDU], for the code
    that switches on it: one case for each type [NewPDU] makes. *)
Inductive pduValue : Type :=
  | PGenericNack (p : GenericNack)
  | PBindRx (p : BindRx)
  | PBindRxResp (p : BindRxResp)
  | PBindTx (p : BindTx)
  | PBindTxResp (p : BindTxResp)
  | PBindTRx (p : BindTRx)
  | PBindTRxResp (p : BindTRxResp)
  | PEnquireLink (p : EnquireLink)
  | PEnquireLinkResp (p : EnquireLinkResp)
  | PQuerySm (p : QuerySm)
  | PQuerySmResp (p : QuerySmResp)
  | PSubmitSm (p : SubmitSm)
  | PSubmitSmResp (p : SubmitSmResp)
  | PDeliverSm (p : DeliverSm)
  | PDeliverSmResp (p : DeliverSmResp)
  | PUnbind (p : Unbind)
  | PUnbindResp (p : UnbindResp)
  | PReplaceSm (p : ReplaceSm)
  | PReplaceSmResp (p : ReplaceSmResp)
  | PCancelSm (p : CancelSm)
  | PCancelSmResp (p : CancelSmResp)
  | POutbind (p : Outbind)
  | PSubmitMulti (p : SubmitMulti)
  | PSubmitMultiResp (p : SubmitMultiResp)
  | PAlertNotification (p : AlertNotification)
  | PDataSm (p : DataSm)
  | PDataSmResp (p : DataSmResp).

(** The interface value of a [pduValue]. *)
Definition toAny (now : Gotime.Time) (v : pduValue) : anyPDU :=
  match v with
  | PGenericNack p => Any GenericNack_PDU p
  | PBindRx p => Any BindRx_PDU p
  | PBindRxResp p => Any BindRxResp_PDU p
  | PBindTx p => Any BindTx_PDU p
  | PBindTxResp p => Any BindTxResp_PDU p
  | PBindTRx p => Any BindTRx_PDU p
  | PBindTRxResp p => Any BindTRxResp_PDU p
  | PEnquireLink p => Any EnquireLink_PDU p
  | PEnquireLinkResp p => Any EnquireLinkResp_PDU p
  | PQuerySm p => Any QuerySm_PDU p
  | PQuerySmResp p => Any (QuerySmResp_PDU now) p
  | PSubmitSm p => Any (SubmitSm_PDU now) p
  | PSubmitSmResp p => Any SubmitSmResp_PDU p
  | PDeliverSm p => Any (DeliverSm_PDU now) p
  | PDeliverSmResp p => Any DeliverSmResp_PDU p
  | PUnbind p => Any Unbind_PDU p
  | PUnbindResp p => Any UnbindResp_PDU p
  | PReplaceSm p => Any ReplaceSm_PDU p
  | PReplaceSmResp p => Any ReplaceSmResp_PDU p
  | PCancelSm p => Any CancelSm_PDU p
  | PCancelSmResp p => Any CancelSmResp_PDU p
  | POutbind p => Any Outbind_PDU p
  | PSubmitMulti p => Any SubmitMulti_PDU p
  | PSubmitMultiResp p => Any SubmitMultiResp_PDU p
  | PAlertNotification p => Any AlertNotification_PDU p
  | PDataSm p => Any DataSm_PDU p
  | PDataSmResp p => Any DataSmResp_PDU p
  end.

(** [func SystemID(p PDU) string]: the system id of the six PDUs of
    the bind family, the empty string for the others. *)
Definition SystemID (p : pduValue) : string :=
  match p with
  | PBindRx (mkBindRx p) => bind_SystemID p
  | PBindTx (mkBindTx p) => bind_SystemID p
  | PBindTRx p => bind_SystemID p
  | PBindRxResp p => rxresp_SystemID p
  | PBindTxResp p => txresp_SystemID p
  | PBindTRxResp p => trxresp_SystemID p
  | _ => ""
  end.

End Pdu.

(** * Package smpp: session.go *)

Module Smpp.
Import Pdu.

(** [func (e Error) Temporary() bool]; the errors built with
    [fmt.Errorf] or [errors.New] have no such method. *)
Definition Temporary (e : error) : bool :=
  match e with
  | smpp_Error _ _ Temp => Temp
  | _ => false
  end.

Inductive SessionState : Type :=
  | StateOpen
  | StateBinding
  | StateBoundTx
  | StateBoundRx
  | StateBoundTRx
  | StateUnbinding
  | StateClosing
  | StateClosed.

#[global] Instance SessionState_eq_dec : EqDecision SessionState.
Proof. solve_decision. Defined.

(** The [iota] value of a state; error messages print states. *)
Definition SessionState_iota (st : SessionState) : Z :=
  match st with
  | StateOpen => 0 | StateBinding => 1 | StateBoundTx => 2 | StateBoundRx => 3
  | StateBoundTRx => 4 | StateUnbinding => 5 | StateClosing => 6 | StateClosed => 7
  end.

Inductive SessionType : Type := ESME | SMSC.

#[global] Instance SessionType_eq_dec : EqDecision SessionType.
Proof. solve_decision. Defined.

(** [type SessionConf struct].  [SessionStateHook] tells whether the
    [SessionState] callback is non-nil; the logger and the request
    handler take no part in the operations modelled here. *)
Record SessionConf := {
  Type_ : SessionType;
  SendWinSize : Z;
  ReqWinSize : Z;
  WindowTimeout : Z;
  SessionStateHook : bool;
  conf_SystemID : string;
  ID : string
}.

(** [type response struct { resp pdu.PDU; err error }] *)
Definition response (R : Type) : Type := R * option error.

(** A reply slot is a channel of capacity 1: open with at most one
    queued response, or closed. *)
Inductive chanState (R : Type) : Type :=
  | ChanOpen (queued : option R)
  | ChanClosed.
Arguments ChanOpen {R} queued.
Arguments ChanClosed {R}.

Section Session.
Context {W S R : Type} `{Stream W} `{Sequencer S}.

(** [type Session struct].  [rwc] and [enc.w] are one and the same
    stream, kept in [enc].  Channels live in the store [chans];
    [sent] maps a sequence number to the channel of its slot, which
    the waiting [Send] call holds as well.  [hookCalls] lists the
    calls made to the state hook, [wg] counts the tasks of the wait
    group and [closed] says whether the [closed] channel was closed. *)
Record Session := {
  conf : SessionConf;
  enc : Encoder W S;
  wg : Z;
  reqCount : Z;
  sent : gmap Z nat;
  chans : gmap nat (chanState (response R));
  state : SessionState;
  systemID : string;
  closed : bool;
  hookCalls : list (string * string * SessionState)
}.

Definition rwc (sess : Session) : W := enc_w (enc sess).

Definition with_state (sess : Session) (st : SessionState)
    (calls : list (string * string * SessionState)) : Session :=
  {| conf := conf sess; enc := enc sess; wg := wg sess; reqCount := reqCount sess;
     sent := sent sess; chans := chans sess; state := st; systemID := systemID sess;
     closed := closed sess; hookCalls := calls |}.

Definition with_enc (sess : Session) (e : Encoder W S) : Session :=
  {| conf := conf sess; enc := e; wg := wg sess; reqCount := reqCount sess;
     sent := sent sess; chans := chans sess; state := state sess;
     systemID := systemID sess; closed := closed sess; hookCalls := hookCalls sess |}.

Definition with_slots (sess : Session) (tbl : gmap Z nat)
    (store : gmap nat (chanState (response R))) : Session :=
  {| conf := conf sess; enc := enc sess; wg := wg sess; reqCount := reqCount sess;
     sent := tbl; chans := store; state := state sess;
     systemID := systemID sess; closed := closed sess; hookCalls := hookCalls sess |}.

(** [NewSession(rwc, conf)] with a non-nil [conf.Sequencer]; [randID]
    is what [genSessionID] draws.  The session starts in the zero
    state, [StateOpen], with the [serve] task in the wait group. *)
Definition NewSession (rwc : W) (c : SessionConf) (seq : S) (randID : string) : Session :=
  let c := {| Type_ := Type_ c;
              SendWinSize := if SendWinSize c =? 0 then 10 else SendWinSize c;
              ReqWinSize := if ReqWinSize c =? 0 then 10 else ReqWinSize c;
              WindowTimeout := if WindowTimeout c =? 0 then 10 * 1000000000 else WindowTimeout c;
              SessionStateHook := SessionStateHook c;
              conf_SystemID := conf_SystemID c;
              ID := if String.eqb (ID c) "" then randID else ID c |} in
  {| conf := c; enc := NewEncoder rwc seq; wg := 1; reqCount := 0;
     sent := ∅; chans := ∅; state := StateOpen; systemID := "";
     closed := false; hookCalls := [] |}.

(** [func (sess *Session) SystemID() string] *)
Definition SystemID (sess : Session) : string :=
  if negb (String.eqb (conf_SystemID (conf sess)) "") then conf_SystemID (conf sess)
  else if negb (String.eqb (systemID sess) "") then systemID sess
  else "-".

(** [func (sess *Session) String() string], as a format argument. *)
Definition String_ (sess : Session) : fmtarg :=
  ArgSprintf "(%s:%s:%s)"
             [ArgInt (match Type_ (conf sess) with ESME => 0 | SMSC => 1 end); ArgStr (SystemID sess);
              ArgStr (ID (conf sess))].

(** The tail of [setState]: store the state and call the hook. *)
Definition commitState (sess : Session) (st : SessionState) : Session * option error :=
  let calls :=
    if SessionStateHook (conf sess)
    then hookCalls sess ++ [(ID (conf sess), SystemID sess, st)]
    else hookCalls sess in
  (with_state sess st calls, None).

Definition stateErr (format : string) (st : SessionState) : option error :=
  Some (fmt_Errorf format [ArgInt (SessionState_iota st)]).

(** [func (sess *Session) setState(state SessionState) error] *)
Definition setState (sess : Session) (st : SessionState) : Session * option error :=
  if decide (state sess = st) then
    (sess, stateErr "smpp: setting same state twice %s" st)
  else
    match state sess with
    | StateOpen =>
        if decide (st <> StateBinding) then
          (sess, stateErr "smpp: setting open session to invalid state %s" st)
        else commitState sess st
    | StateBinding =>
        match st with
        | StateOpen | StateBoundRx | StateBoundTRx | StateBoundTx => commitState sess st
        | _ => (sess, stateErr "smpp: setting binding session to invalid state %s" st)
        end
    | StateBoundRx | StateBoundTRx | StateBoundTx =>
        match st with
        | StateUnbinding | StateClosing => commitState sess st
        | _ => (sess, stateErr "smpp: setting bound session to invalid state %s" st)
        end
    | StateUnbinding =>
        if decide (st <> StateClosing) then
          (sess, stateErr "smpp: setting unbinding session to invalid state %s" st)
        else commitState sess st
    | StateClosing =>
        if decide (st <> StateClosed) then
          (sess, stateErr "smpp: setting closing session to invalid state %s" st)
        else commitState sess st
    | StateClosed =>
        (sess, Some (fmt_Errorf "smpp: session %s already in closed state %s"
                                [String_ sess; ArgInt (SessionState_iota st)]))
    end.

(** [case a, b, c:] of a [switch ID] *)
Definition oneOf (ID : Z) (cases : list Z) : bool := existsb (Z.eqb ID) cases.

(** The error of the last line of [makeTransition]. *)
Definition invalidState (ID : Z) (st : SessionState) : error :=
  smpp_Error "smpp: processing '%s' in invalid session state '%s'"
             [ArgInt ID; ArgInt (SessionState_iota st)] true.

(** [func (sess *Session) makeTransition(ID pdu.CommandID, received bool) error] *)
Definition makeTransition (sess : Session) (ID : Z) (received : bool)
  : Session * option error :=
  let invalid := (sess, Some (invalidState ID (state sess))) in
  let ty := Type_ (conf sess) in
  if (bool_decide (ty = ESME) && negb received) || (bool_decide (ty = SMSC) && received) then
    match state sess with
    | StateOpen =>
        if oneOf ID [BindTransceiverID; BindTransmitterID; BindReceiverID]
        then setState sess StateBinding else invalid
    | StateBinding =>
        if ID =? GenericNackID then setState sess StateOpen else invalid
    | StateBoundTx =>
        if oneOf ID [UnbindID] then setState sess StateUnbinding
        else if oneOf ID [UnbindRespID; DeliverSmRespID; DataSmID; SubmitSmID; SubmitMultiID;
                          DataSmRespID; EnquireLinkID; EnquireLinkRespID; ReplaceSmID;
                          GenericNackID]
        then (sess, None) else invalid
    | StateBoundRx =>
        if oneOf ID [UnbindID] then setState sess StateUnbinding
        else if oneOf ID [UnbindRespID; DeliverSmRespID; DataSmID;
                          DataSmRespID; EnquireLinkID; EnquireLinkRespID;
                          GenericNackID]
        then (sess, None) else invalid
    | StateBoundTRx =>
        if oneOf ID [UnbindID] then setState sess StateUnbinding
        else if oneOf ID [SubmitSmID; SubmitSmRespID; DeliverSmRespID;
                          DataSmID; DataSmRespID; EnquireLinkID; EnquireLinkRespID;
                          SubmitMultiID; SubmitMultiRespID;
                          QuerySmID; CancelSmID; GenericNackID]
        then (sess, None) else invalid
    | StateUnbinding =>
        if ID =? UnbindRespID then (sess, None) else invalid
    | StateClosing | StateClosed => invalid
    end
  else if (bool_decide (ty = SMSC) && negb received) || (bool_decide (ty = ESME) && received) then
    match state sess with
    | StateOpen =>
        if oneOf ID [OutbindID] then (sess, None) else invalid
    | StateBinding =>
        if oneOf ID [BindTransceiverRespID] then setState sess StateBoundTRx
        else if oneOf ID [BindTransmitterRespID] then setState sess StateBoundTx
        else if oneOf ID [BindReceiverRespID] then setState sess StateBoundRx
        else if oneOf ID [GenericNackID] then setState sess StateOpen
        else invalid
    | StateBoundTx =>
        if oneOf ID [UnbindID] then setState sess StateUnbinding
        else if oneOf ID [SubmitSmRespID; SubmitMultiRespID; DataSmID; DataSmRespID;
                          QuerySmRespID; CancelSmRespID; ReplaceSmRespID; EnquireLinkID;
                          EnquireLinkRespID; GenericNackID]
        then (sess, None) else invalid
    | StateBoundRx =>
        if oneOf ID [UnbindID] then setState sess StateUnbinding
        else if oneOf ID [DeliverSmID; DataSmID; DataSmRespID;
                          EnquireLinkID; EnquireLinkRespID; AlertNotificationID;
                          GenericNackID]
        then (sess, None) else invalid
    | StateBoundTRx =>
        if oneOf ID [UnbindID] then setState sess StateUnbinding
        else if oneOf ID [SubmitSmRespID; SubmitMultiRespID; DataSmID; DataSmRespID;
                          DeliverSmID; QuerySmRespID; CancelSmRespID; AlertNotificationID;
                          ReplaceSmRespID; EnquireLinkID; EnquireLinkRespID; GenericNackID]
        then (sess, None) else invalid
    | StateUnbinding =>
        if ID =? UnbindRespID then (sess, None) else invalid
    | StateClosing | StateClosed => invalid
    end
  else invalid.

(** *** Send *)

(** Where [Send] stands after its critical section: it returned an
    error, or it waits on channel [l] for the response to [seq]. *)
Inductive sendStep : Type :=
  | SendFailed (e : error)
  | SendWaiting (seq : Z) (l : nat).

(** [make(chan response, 1)]: the next free place of the store. *)
Definition newChan (store : gmap nat (chanState (response R))) : nat :=
  fresh (dom store).

(** [func (sess *Session) Send(ctx, req)] up to the [select]; a nil
    [req] is [None]. *)
Definition Send {P} {HP : PDU P} (sess : Session) (req : option P) : Session * sendStep :=
  match req with
  | None => (sess, SendFailed (smpp_Error "smpp: sending nil pdu" [] false))
  | Some req =>
      if Z.of_nat (size (sent sess)) =? SendWinSize (conf sess) then
        (sess, SendFailed (smpp_Error "smpp: sending window closed" [] true))
      else
        match makeTransition sess (CommandID req) false with
        | (sess, Some err) => (sess, SendFailed err)
        | (sess, None) =>
            match Encode (enc sess) req [] with
            | (en, (seq, Some err)) => (with_enc sess en, SendFailed err)
            | (en, (seq, None)) =>
                let sess := with_enc sess en in
                let l := newChan (chans sess) in
                (with_slots sess (<[seq := l]> (sent sess))
                            (<[l := ChanOpen None]> (chans sess)),
                 SendWaiting seq l)
            end
        end
  end.

(** What the [select] of [Send] picks up. *)
Inductive sendEvent : Type :=
  | SlotDelivered (r : response R)
  | SlotClosed
  | CtxDone (ctxErr : error).

(** The [select] at the end of [Send]. *)
Definition Send_select (ev : sendEvent) : option R * option error :=
  match ev with
  | SlotClosed =>
      (None, Some (errors_New "smpp: session closed before receiving response"))
  | SlotDelivered (resp, Some err) => (Some resp, Some err)
  | SlotDelivered (resp, None) => (Some resp, None)
  | CtxDone ctxErr => (None, Some ctxErr)
  end.

(** *** Close *)

(** [close(l)]: closing a closed (or nil) channel panics. *)
Definition close_chan (store : gmap nat (chanState (response R))) (l : nat)
  : outcome (gmap nat (chanState (response R))) :=
  match store !! l with
  | Some (ChanOpen _) => Return (<[l := ChanClosed]> store)
  | Some ChanClosed => Panic "close of closed channel"
  | None => Panic "close of nil channel"
  end.

(** [for k, l := range sess.sent { delete(sess.sent, k); close(l) }],
    visiting the entries in the order [slots]. *)
Fixpoint closeAll (slots : list (Z * nat)) (tbl : gmap Z nat)
    (store : gmap nat (chanState (response R)))
  : outcome (gmap Z nat * gmap nat (chanState (response R))) :=
  match slots with
  | [] => Return (tbl, store)
  | (k, l) :: rest =>
      match close_chan store l with
      | Return store => closeAll rest (delete k tbl) store
      | Panic r => Panic r
      end
  end.

(** [func (sess *Session) Close() error].  [sess.wg.Wait()] blocks
    until [serve] and the handlers have returned; the model resumes
    after it with the wait group empty. *)
Definition Close (sess : Session) : outcome (Session * option error) :=
  match setState sess StateClosing with
  | (sess, Some err) => Return (sess, Some err)
  | (sess, None) =>
      match closeAll (map_to_list (sent sess)) (sent sess) (chans sess) with
      | Panic r => Panic r
      | Return (tbl, store) =>
          let sess := with_slots sess tbl store in
          let '(w, _) := io_Close (rwc sess) in
          let sess := with_enc sess {| enc_w := w; enc_seq := enc_seq (enc sess) |} in
          match setState sess StateClosed with
          | (sess, Some err) => Return (sess, Some err)
          | (sess, None) =>
              let sess :=
                {| conf := conf sess; enc := enc sess; wg := 0; reqCount := reqCount sess;
                   sent := sent sess; chans := chans sess; state := state sess;
                   systemID := systemID sess; closed := true;
                   hookCalls := hookCalls sess |} in
              Return (sess, None)
          end
      end
  end.

End Session.
Arguments Session W S R : clear implicits.

(** ** The receiving side *)

(** [type StatusError struct { msg string; status pdu.Status }] *)
Record StatusError := { se_msg : string; se_status : Z }.

(** [func toError(status pdu.Status) error]; [None] is the nil error. *)
Definition toError (status : Z) : option StatusError :=
  if status =? Pdu.StatusOK then None
  else if status =? Pdu.StatusInvMsgLen
  then Some {| se_msg := "Message Length is invalid"; se_status := Pdu.StatusInvMsgLen |}
  else if status =? Pdu.StatusInvCmdLen
  then Some {| se_msg := "Command Length is invalid"; se_status := Pdu.StatusInvCmdLen |}
  else if status =? Pdu.StatusInvCmdID
  then Some {| se_msg := "Invalid Command ID"; se_status := Pdu.StatusInvCmdID |}
  else if status =? Pdu.StatusInvBnd
  then Some {| se_msg := "Incorrect BIND Status for given command"; se_status := Pdu.StatusInvBnd |}
  else if status =? Pdu.StatusAlyBnd
  then Some {| se_msg := "ESME Already in Bound State"; se_status := Pdu.StatusAlyBnd |}
  else if status =? Pdu.StatusInvPrtFlg
  then Some {| se_msg := "Invalid Priority Flag"; se_status := Pdu.StatusInvPrtFlg |}
  else if status =? Pdu.StatusInvRegDlvFlg
  then Some {| se_msg := "Invalid Registered Delivery Flag"; se_status := Pdu.StatusInvRegDlvFlg |}
  else if status =? Pdu.StatusSysErr
  then Some {| se_msg := "System Error"; se_status := Pdu.StatusSysErr |}
  else if status =? Pdu.StatusInvSrcAdr
  then Some {| se_msg := "Invalid Source Address"; se_status := Pdu.StatusInvSrcAdr |}
  else if status =? Pdu.StatusInvDstAdr
  then Some {| se_msg := "Invalid Destination Address"; se_status := Pdu.StatusInvDstAdr |}
  else if status =? Pdu.StatusInvMsgID
  then Some {| se_msg := "Message ID is invalid"; se_status := Pdu.StatusInvMsgID |}
  else if status =? Pdu.StatusBindFail
  then Some {| se_msg := "Bind Failed"; se_status := Pdu.StatusBindFail |}
  else if status =? Pdu.StatusInvPaswd
  then Some {| se_msg := "Invalid Password"; se_status := Pdu.StatusInvPaswd |}
  else if status =? Pdu.StatusInvSysID
  then Some {| se_msg := "Invalid System ID"; se_status := Pdu.StatusInvSysID |}
  else if status =? Pdu.StatusCancelFail
  then Some {| se_msg := "Cancel SM Failed"; se_status := Pdu.StatusCancelFail |}
  else if status =? Pdu.StatusReplaceFail
  then Some {| se_msg := "Replace SM Failed"; se_status := Pdu.StatusReplaceFail |}
  else if status =? Pdu.StatusMsgQFul
  then Some {| se_msg := "Message Queue Full"; se_status := Pdu.StatusMsgQFul |}
  else if status =? Pdu.StatusInvSerTyp
  then Some {| se_msg := "Invalid Service Type"; se_status := Pdu.StatusInvSerTyp |}
  else if status =? Pdu.StatusInvNumDe
  then Some {| se_msg := "Invalid number of destinations"; se_status := Pdu.StatusInvNumDe |}
  else if status =? Pdu.StatusInvDLName
  then Some {| se_msg := "Invalid Distribution List name"; se_status := Pdu.StatusInvDLName |}
  else if status =? Pdu.StatusInvDestFlag
  then Some {| se_msg := "Destination flag (submit_multi)"; se_status := Pdu.StatusInvDestFlag |}
  else if status =? Pdu.StatusInvSubRep
  then Some {| se_msg := "Invalid ‘submit with replace’ request"; se_status := Pdu.StatusInvSubRep |}
  else if status =? Pdu.StatusInvEsmClass
  then Some {| se_msg := "Invalid esm_class field data"; se_status := Pdu.StatusInvEsmClass |}
  else if status =? Pdu.StatusCntSubDL
  then Some {| se_msg := "Cannot Submit to Distribution List"; se_status := Pdu.StatusCntSubDL |}
  else if status =? Pdu.StatusSubmitFail
  then Some {| se_msg := "submit_sm or submit_multi failed"; se_status := Pdu.StatusSubmitFail |}
  else if status =? Pdu.StatusInvSrcTON
  then Some {| se_msg := "Invalid Source address TON"; se_status := Pdu.StatusInvSrcTON |}
  else if status =? Pdu.StatusInvSrcNPI
  then Some {| se_msg := "Invalid Source address NPI"; se_status := Pdu.StatusInvSrcNPI |}
  else if status =? Pdu.StatusInvDstTON
  then Some {| se_msg := "Invalid Destination address TON"; se_status := Pdu.StatusInvDstTON |}
  else if status =? Pdu.StatusInvDstNPI
  then Some {| se_msg := "Invalid Destination address NPI"; se_status := Pdu.StatusInvDstNPI |}
  else if status =? Pdu.StatusInvSysTyp
  then Some {| se_msg := "Invalid system_type field"; se_status := Pdu.StatusInvSysTyp |}
  else if status =? Pdu.StatusInvRepFlag
  then Some {| se_msg := "Invalid replace_if_present flag"; se_status := Pdu.StatusInvRepFlag |}
  else if status =? Pdu.StatusInvNumMsgs
  then Some {| se_msg := "Invalid number of messages"; se_status := Pdu.StatusInvNumMsgs |}
  else if status =? Pdu.StatusThrottled
  then Some {| se_msg := "Throttling error (ESME has exceeded allowed message limits)"; se_status := Pdu.StatusThrottled |}
  else if status =? Pdu.StatusInvSched
  then Some {| se_msg := "Invalid Scheduled Delivery Time"; se_status := Pdu.StatusInvSched |}
  else if status =? Pdu.StatusInvExpiry
  then Some {| se_msg := "Invalid message Expiry time"; se_status := Pdu.StatusInvExpiry |}
  else if status =? Pdu.StatusInvDftMsgID
  then Some {| se_msg := "Predefined Message Invalid or Not Found"; se_status := Pdu.StatusInvDftMsgID |}
  else if status =? Pdu.StatusTempAppErr
  then Some {| se_msg := "ESME Receiver Temporary App Error Code"; se_status := Pdu.StatusTempAppErr |}
  else if status =? Pdu.StatusPermAppErr
  then Some {| se_msg := "ESME Receiver Permanent App Error Code"; se_status := Pdu.StatusPermAppErr |}
  else if status =? Pdu.StatusRejeAppErr
  then Some {| se_msg := "ESME Receiver Reject Message Error Code"; se_status := Pdu.StatusRejeAppErr |}
  else if status =? Pdu.StatusQueryFail
  then Some {| se_msg := "query_sm request failed"; se_status := Pdu.StatusQueryFail |}
  else if status =? Pdu.StatusInvOptParStream
  then Some {| se_msg := "Error in the optional part of the PDU Body."; se_status := Pdu.StatusInvOptParStream |}
  else if status =? Pdu.StatusOptParNotAllwd
  then Some {| se_msg := "Optional Parameter not allowed"; se_status := Pdu.StatusOptParNotAllwd |}
  else if status =? Pdu.StatusInvParLen
  then Some {| se_msg := "Invalid Parameter Length."; se_status := Pdu.StatusInvParLen |}
  else if status =? Pdu.StatusMissingOptParam
  then Some {| se_msg := "Expected Optional Parameter missing"; se_status := Pdu.StatusMissingOptParam |}
  else if status =? Pdu.StatusInvOptParamVal
  then Some {| se_msg := "Invalid Optional Parameter Value"; se_status := Pdu.StatusInvOptParamVal |}
  else if status =? Pdu.StatusDeliveryFailure
  then Some {| se_msg := "Delivery Failure"; se_status := Pdu.StatusDeliveryFailure |}
  else if status =? Pdu.StatusUnknownErr
  then Some {| se_msg := "Unknown Error"; se_status := Pdu.StatusUnknownErr |}
  else Some {| se_msg := "Unknown Status"; se_status := status |}.

(** A [StatusError] as a value of the interface [error]: what its
    [Error] method formats, [fmt.Sprintf("%s '0x%X'", se.msg, int(se.status))]. *)
Definition StatusError_error (se : StatusError) : error :=
  fmt_Errorf "%s '0x%X'" [ArgStr (se_msg se); ArgInt (se_status se)].

Section Serve.
Context {W S : Type} `{Stream W} `{Pdu.Sequencer S}.

(** The session of a receive loop: the responses it hands to the
    waiting [Send] calls are the PDUs of the decoder. *)
Local Abbreviation Session := (Session W S Pdu.pduValue).

Definition with_systemID (sess : Session) (id : string) : Session :=
  {| conf := conf sess; enc := enc sess; wg := wg sess; reqCount := reqCount sess;
     sent := sent sess; chans := chans sess; state := state sess; systemID := id;
     closed := closed sess; hookCalls := hookCalls sess |}.

Definition with_requests (sess : Session) (tasks count : Z) : Session :=
  {| conf := conf sess; enc := enc sess; wg := tasks; reqCount := count;
     sent := sent sess; chans := chans sess; state := state sess;
     systemID := systemID sess; closed := closed sess; hookCalls := hookCalls sess |}.

(** [func (sess *Session) throttle(seq uint32)]: a [generic_nack] with
    the status [StatusThrottled]; the error of [Encode] is logged. *)
Definition throttle (sess : Session) (seq : Z) : Session :=
  let '(en, _) := Pdu.Encode (enc sess) Pdu.mkGenericNack
                             [Pdu.EncodeStatus Pdu.StatusThrottled; Pdu.EncodeSeq seq] in
  with_enc sess en.

(** [l <- r] on a channel of capacity 1: the value is queued when the
    channel is open and empty; the send blocks ([None]) when the
    channel is full or nil, and panics when it is closed. *)
Definition chan_send {A} (store : gmap nat (chanState A)) (l : nat) (r : A)
  : outcome (option (gmap nat (chanState A))) :=
  match store !! l with
  | Some (ChanOpen None) => Return (Some (<[l := ChanOpen (Some r)]> store))
  | Some (ChanOpen (Some _)) => Return None
  | Some ChanClosed => Panic "send on closed channel"
  | None => Return None
  end.

(** What one round of the loop of [serve] did with a decoded PDU. *)
Inductive served : Type :=
  | Refused (err : error)
  | Throttled
  | Handling (seq : Z) (req : Pdu.pduValue)
  | Delivered (l : nat)
  | Blocked (l : nat)
  | Unexpected.

(** One round of [func (sess *Session) serve()] after [Decode]
    returned the header [h] and the PDU [p] without an error: the
    system id is stored, the transition is made, a request is handed
    to a new [handleRequest] task or throttled, and a response goes to
    the slot of its sequence number, which leaves the table. *)
Definition serve_step (sess : Session) (h : Pdu.header) (p : Pdu.pduValue)
  : outcome (Session * served) :=
  let sess := with_systemID sess (Pdu.SystemID p) in
  match makeTransition sess (Pdu.h_commandID h) true with
  | (sess, Some err) => Return (sess, Refused err)
  | (sess, None) =>
      if Pdu.IsRequest (Pdu.h_commandID h) then
        if reqCount sess =? ReqWinSize (conf sess) then
          Return (throttle sess (Pdu.h_sequence h), Throttled)
        else
          Return (with_requests sess (wg sess + 1) (reqCount sess + 1),
                  Handling (Pdu.h_sequence h) p)
      else
        match sent sess !! Pdu.h_sequence h with
        | Some l =>
            let sess := with_slots sess (delete (Pdu.h_sequence h) (sent sess)) (chans sess) in
            let err := match toError (Pdu.h_status h) with
                       | Some se => Some (StatusError_error se)
                       | None => None
                       end in
            match chan_send (chans sess) l (p, err) with
            | Panic msg => Panic msg
            | Return None => Return (sess, Blocked l)
            | Return (Some store) => Return (with_slots sess (sent sess) store, Delivered l)
            end
        | None => Return (sess, Unexpected)
        end
  end.


(** [resp, ok := <-l] in the [select] of [Send]: the event that a
    channel holding a value or a closed channel gives; [None] while
    the channel is open and empty. *)
Definition chan_recv (store : gmap nat (chanState (response Pdu.pduValue))) (l : nat)
  : option (sendEvent (R := Pdu.pduValue)) :=
  match store !! l with
  | Some (ChanOpen (Some r)) => Some (SlotDelivered r)
  | Some ChanClosed => Some SlotClosed
  | _ => None
  end.

End Serve.

End Smpp.

(** * Properties *)

Section SequencerFacts.
Import Pdu.

Lemma afterCalls_default (k : nat) (n : Z) :
  0 <= n < 2 ^ 32 ->
  afterCalls k {| seq_n := n |} = {| seq_n := (n + Z.of_nat k) mod 2 ^ 32 |}.
Proof.
  intros Hn. induction k as [|k IH].
  - simpl. rewrite Z.add_0_r, Z.mod_small by lia. reflexivity.
  - unfold afterCalls in *. rewrite Nat.iter_succ, IH.
    unfold Next, defaultSequencer_Sequencer, defaultSequencer_Next, uint32. simpl.
    f_equal. rewrite Zplus_mod_idemp_l. f_equal. lia.
Qed.

Lemma nthNext_default (k : nat) :
  nthNext k (NewSequencer 1) = (1 + Z.of_nat k) mod 2 ^ 32.
Proof.
  unfold nthNext, NewSequencer. change (1 =? 0) with false. cbv iota.
  rewrite afterCalls_default by lia. reflexivity.
Qed.
End SequencerFacts.

(** C3. The default sequencer starts at 1 but does not wrap at
    [0x7FFFFFFF]: the call that follows the one returning [0x7FFFFFFF]
    returns [0x80000000], and the counter only wraps at [2^32], where it
    yields [0].  So the numbers it hands out leave [1, 0x7FFFFFFF]. *)
Theorem default_sequencer_overruns_range :
  Pdu.nthNext 0 (Pdu.NewSequencer 1) = 1
  /\ Pdu.nthNext (Z.to_nat 0x7FFFFFFE) (Pdu.NewSequencer 1) = 0x7FFFFFFF
  /\ Pdu.nthNext (Z.to_nat 0x7FFFFFFF) (Pdu.NewSequencer 1) = 0x80000000
  /\ Pdu.nthNext (Z.to_nat 0xFFFFFFFF) (Pdu.NewSequencer 1) = 0
  /\ Pdu.defaultSequencer_Next {| Pdu.seq_n := 0x7FFFFFFF |}
     = (0x7FFFFFFF, {| Pdu.seq_n := 0x80000000 |}).
Proof.
  split; [reflexivity|].
  split; [rewrite nthNext_default, Z2Nat.id by lia; reflexivity|].
  split; [rewrite nthNext_default, Z2Nat.id by lia; reflexivity|].
  split; [rewrite nthNext_default, Z2Nat.id by lia; reflexivity|].
  reflexivity.
Qed.

(** ** The session state machine *)

Section StateMachineFacts.
Import Pdu Smpp.
Context {W S R : Type} `{Stream W} `{Sequencer S}.
Implicit Type sess : Session W S R.

(** The transition table as the code has it: [clientToServer] is the
    direction test of [makeTransition] (sending from an ESME or
    receiving on an SMSC), and [allowed ty received st] lists the
    command ids of the [case] lines of its [switch] for the state
    [st], that is, the events that [makeTransition] accepts. *)
Definition clientToServer (ty : SessionType) (received : bool) : bool :=
  match ty with
  | ESME => negb received
  | SMSC => received
  end.

Definition allowed (ty : SessionType) (received : bool) (st : SessionState) : list Z :=
  if clientToServer ty received then
    match st with
    | StateOpen => [BindTransceiverID; BindTransmitterID; BindReceiverID]
    | StateBinding => [GenericNackID]
    | StateBoundTx =>
        [UnbindID; UnbindRespID; DeliverSmRespID; DataSmID; SubmitSmID; SubmitMultiID;
         DataSmRespID; EnquireLinkID; EnquireLinkRespID; ReplaceSmID; GenericNackID]
    | StateBoundRx =>
        [UnbindID; UnbindRespID; DeliverSmRespID; DataSmID; DataSmRespID; EnquireLinkID;
         EnquireLinkRespID; GenericNackID]
    | StateBoundTRx =>
        [UnbindID; SubmitSmID; SubmitSmRespID; DeliverSmRespID; DataSmID; DataSmRespID;
         EnquireLinkID; EnquireLinkRespID; SubmitMultiID; SubmitMultiRespID; QuerySmID;
         CancelSmID; GenericNackID]
    | StateUnbinding => [UnbindRespID]
    | StateClosing | StateClosed => []
    end
  else
    match st with
    | StateOpen => [OutbindID]
    | StateBinding =>
        [BindTransceiverRespID; BindTransmitterRespID; BindReceiverRespID; GenericNackID]
    | StateBoundTx =>
        [UnbindID; SubmitSmRespID; SubmitMultiRespID; DataSmID; DataSmRespID; QuerySmRespID;
         CancelSmRespID; ReplaceSmRespID; EnquireLinkID; EnquireLinkRespID; GenericNackID]
    | StateBoundRx =>
        [UnbindID; DeliverSmID; DataSmID; DataSmRespID; EnquireLinkID; EnquireLinkRespID;
         AlertNotificationID; GenericNackID]
    | StateBoundTRx =>
        [UnbindID; SubmitSmRespID; SubmitMultiRespID; DataSmID; DataSmRespID; DeliverSmID;
         QuerySmRespID; CancelSmRespID; AlertNotificationID; ReplaceSmRespID; EnquireLinkID;
         EnquireLinkRespID; GenericNackID]
    | StateUnbinding => [UnbindRespID]
    | StateClosing | StateClosed => []
    end.

(** The allowed sets as section 4.7 of the design document words them,
    to be compared with [allowed]: the events that its table and the
    lists under it name for a state, taken together whatever their
    direction.  Open: the three bind requests.  Binding: the three
    bind responses and [generic_nack].  BoundTx: "submit_sm,
    submit_multi, data_sm, query_sm, cancel_sm, replace_sm,
    enquire_link, generic_nack; and must handle unbind".  BoundRx:
    "deliver_sm_resp, data_sm, data_sm_resp, enquire_link; inbound:
    deliver_sm, alert_notification", and [unbind] as for every bound
    state.  BoundTRx: the union of the two.  Unbinding:
    [unbind_resp].  An event outside [spec_allowed st] is outside the
    set of the document for either direction. *)
Definition spec_allowed (st : SessionState) : list Z :=
  let boundTx := [SubmitSmID; SubmitMultiID; DataSmID; QuerySmID; CancelSmID; ReplaceSmID;
                  EnquireLinkID; GenericNackID; UnbindID] in
  let boundRx := [DeliverSmRespID; DataSmID; DataSmRespID; EnquireLinkID; DeliverSmID;
                  AlertNotificationID; UnbindID] in
  match st with
  | StateOpen => [BindTransmitterID; BindReceiverID; BindTransceiverID]
  | StateBinding =>
      [BindTransmitterRespID; BindReceiverRespID; BindTransceiverRespID; GenericNackID]
  | StateBoundTx => boundTx
  | StateBoundRx => boundRx
  | StateBoundTRx => boundTx ++ boundRx
  | StateUnbinding => [UnbindRespID]
  | StateClosing | StateClosed => []
  end.

Lemma oneOf_elem (ID : Z) (cases : list Z) : oneOf ID cases = true <-> ID ∈ cases.
Proof.
  unfold oneOf. rewrite existsb_exists. split.
  - intros (x & Hx & Heq). apply Z.eqb_eq in Heq. subst. by apply list_elem_of_In.
  - intros Hin. exists ID. split; [by apply list_elem_of_In | apply Z.eqb_refl].
Qed.

Lemma oneOf_false (ID : Z) (cases : list Z) : ID ∉ cases -> oneOf ID cases = false.
Proof.
  intros Hn. destruct (oneOf ID cases) eqn:E; [|done].
  apply oneOf_elem in E. contradiction.
Qed.

Lemma oneOf_app (ID : Z) (l1 l2 : list Z) :
  oneOf ID (l1 ++ l2) = oneOf ID l1 || oneOf ID l2.
Proof. apply existsb_app. Qed.

(** Every event of the table is accepted: [makeTransition] returns
    nil on it. *)
Lemma makeTransition_allowed sess (ID : Z) (received : bool) :
  ID ∈ allowed (Type_ (conf sess)) received (state sess) ->
  snd (makeTransition sess ID received) = None.
Proof.
  unfold makeTransition, allowed, clientToServer, setState, commitState.
  destruct (Type_ (conf sess)), received, (state sess); simpl;
    rewrite ?elem_of_cons, ?elem_of_nil; intros Hin;
    repeat (destruct Hin as [-> | Hin]; [reflexivity|]);
    try contradiction; try (subst ID; reflexivity).
Qed.

(** Every other event falls through to the last line. *)
Lemma makeTransition_unlisted sess (ID : Z) (received : bool) :
  ID ∉ allowed (Type_ (conf sess)) received (state sess) ->
  makeTransition sess ID received = (sess, Some (invalidState ID (state sess))).
Proof.
  unfold makeTransition, allowed, clientToServer.
  destruct (Type_ (conf sess)), received, (state sess); simpl;
    intros Hn; try reflexivity;
    repeat match goal with
           | Hn : ?x ∉ _ :: _ |- _ =>
               apply not_elem_of_cons in Hn; destruct Hn as [?%Z.eqb_neq Hn]
           end;
    unfold oneOf; simpl;
    repeat match goal with
           | E : (?a =? ?b) = false |- _ => rewrite E; clear E
           end;
    reflexivity.
Qed.

(** The error path of [makeTransition] is that last line and nothing
    else: no [setState] that the table asks for is ever refused. *)
Lemma makeTransition_error_path sess (ID : Z) (received : bool) (e : error) :
  snd (makeTransition sess ID received) = Some e ->
  (ID ∉ allowed (Type_ (conf sess)) received (state sess))
  /\ makeTransition sess ID received = (sess, Some e)
  /\ e = invalidState ID (state sess).
Proof.
  intros He.
  destruct (decide (ID ∈ allowed (Type_ (conf sess)) received (state sess))) as [Hin|Hn].
  - rewrite (makeTransition_allowed _ _ _ Hin) in He. discriminate.
  - rewrite (makeTransition_unlisted _ _ _ Hn) in He |- *. simpl in He.
    injection He as <-. done.
Qed.

(** The table is narrower for a transmitter than for a transceiver:
    [query_sm] and [cancel_sm] pass from a client bound as transceiver
    and not from one bound as transmitter. *)
Lemma allowed_query_cancel (ty : SessionType) (received : bool) (ID : Z) :
  clientToServer ty received = true -> ID = QuerySmID \/ ID = CancelSmID ->
  (ID ∈ allowed ty received StateBoundTRx) /\ (ID ∉ allowed ty received StateBoundTx).
Proof.
  unfold allowed. intros -> [-> | ->]; split;
    rewrite ?elem_of_cons, ?not_elem_of_cons, ?elem_of_nil; vm_compute; intuition congruence.
Qed.

End StateMachineFacts.

(** C2, as the code has it.  An event that the [switch] of
    [makeTransition] does not list for the current state and the
    direction is refused with the temporary invalid-state error, and
    the session is returned as it was: the same state and no further
    call of the state hook.  The events listed are those of [allowed],
    which are not the sets of the design document. *)
Theorem makeTransition_rejects_unlisted {W S R : Type} `{Stream W} `{Pdu.Sequencer S}
    (sess : Smpp.Session W S R) (ID : Z) (received : bool) :
  ID ∉ allowed (Smpp.Type_ (Smpp.conf sess)) received (Smpp.state sess) ->
  exists e,
    Smpp.makeTransition sess ID received = (sess, Some e)
    /\ e = Smpp.invalidState ID (Smpp.state sess)
    /\ Smpp.Temporary e = true
    /\ Smpp.state (fst (Smpp.makeTransition sess ID received)) = Smpp.state sess
    /\ Smpp.hookCalls (fst (Smpp.makeTransition sess ID received)) = Smpp.hookCalls sess.
Proof.
  intros Hn. exists (Smpp.invalidState ID (Smpp.state sess)).
  rewrite (makeTransition_unlisted _ _ _ Hn). simpl. repeat split; reflexivity.
Qed.

(** Example sessions: an ESME session with a send window of one and a
    state hook, on an in-memory stream; the same after [Send] of a
    [bind_transceiver] (one request in flight, so the window is full);
    and after the [bind_transceiver_resp] was received. *)
Definition exConf : Smpp.SessionConf :=
  {| Smpp.Type_ := Smpp.ESME; Smpp.SendWinSize := 1; Smpp.ReqWinSize := 0;
     Smpp.WindowTimeout := 0; Smpp.SessionStateHook := true;
     Smpp.conf_SystemID := "TestingESME"; Smpp.ID := "" |}.

Definition exBindTRx : Pdu.BindTRx :=
  {| Pdu.bind_SystemID := "ESME"; Pdu.bind_Password := "password";
     Pdu.bind_SystemType := "type"; Pdu.bind_InterfaceVersion := 0x34;
     Pdu.bind_AddrTon := 0; Pdu.bind_AddrNpi := 0; Pdu.bind_AddressRange := "111111" |}.

Definition exOpen : Smpp.Session Buffer Pdu.defaultSequencer unit :=
  Smpp.NewSession {| buf_bytes := []; buf_closed := false |} exConf
                  (Pdu.NewSequencer 1) "0A0B0C0D-0E0F-1011".

Definition exBinding : Smpp.Session Buffer Pdu.defaultSequencer unit :=
  fst (Smpp.Send exOpen (Some exBindTRx)).

Definition exBound : Smpp.Session Buffer Pdu.defaultSequencer unit :=
  fst (Smpp.makeTransition exBinding Pdu.BindTransceiverRespID true).

Example exBinding_state :
  Smpp.state exBinding = Smpp.StateBinding /\ size (Smpp.sent exBinding) = 1%nat.
Proof. split; reflexivity. Qed.

Example exBound_state :
  Smpp.state exBound = Smpp.StateBoundTRx /\ Smpp.sent exBound = {[ 1 := 0%nat ]}.
Proof. split; reflexivity. Qed.

Lemma makeTransition_rejects_unlisted_witness :
  (Pdu.SubmitSmID ∉ allowed (Smpp.Type_ (Smpp.conf exOpen)) false (Smpp.state exOpen))
  /\ exists e,
    Smpp.makeTransition exOpen Pdu.SubmitSmID false = (exOpen, Some e)
    /\ e = Smpp.invalidState Pdu.SubmitSmID (Smpp.state exOpen)
    /\ Smpp.Temporary e = true
    /\ Smpp.state (fst (Smpp.makeTransition exOpen Pdu.SubmitSmID false)) = Smpp.state exOpen
    /\ Smpp.hookCalls (fst (Smpp.makeTransition exOpen Pdu.SubmitSmID false))
       = Smpp.hookCalls exOpen.
Proof.
  assert (Hn : Pdu.SubmitSmID
               ∉ allowed (Smpp.Type_ (Smpp.conf exOpen)) false (Smpp.state exOpen)).
  { apply (bool_decide_unpack _). vm_compute. exact I. }
  split; [exact Hn|].
  apply (makeTransition_rejects_unlisted exOpen Pdu.SubmitSmID false Hn).
Defined.

(** The ESME of the examples bound as a transmitter. *)
Definition exBoundTx : Smpp.Session Buffer Pdu.defaultSequencer unit :=
  fst (Smpp.makeTransition exBinding Pdu.BindTransmitterRespID true).

(** Events outside the sets of the design document that
    [makeTransition] accepts, returning nil and leaving the state as it
    is: an ESME bound as transmitter may send [unbind_resp],
    [deliver_sm_resp], [data_sm_resp] and [enquire_link_resp]; bound as
    transceiver it may send [submit_sm_resp] and [submit_multi_resp];
    and an open ESME session accepts a received [outbind]. *)
Lemma makeTransition_accepts_outside_spec_sets :
  (Smpp.Type_ (Smpp.conf exBoundTx) = Smpp.ESME
   /\ Smpp.state exBoundTx = Smpp.StateBoundTx
   /\ Forall (fun ID => (ID ∉ spec_allowed Smpp.StateBoundTx)
                        /\ Smpp.makeTransition exBoundTx ID false = (exBoundTx, None))
             [Pdu.UnbindRespID; Pdu.DeliverSmRespID; Pdu.DataSmRespID;
              Pdu.EnquireLinkRespID])
  /\ (Smpp.Type_ (Smpp.conf exBound) = Smpp.ESME
      /\ Smpp.state exBound = Smpp.StateBoundTRx
      /\ Forall (fun ID => (ID ∉ spec_allowed Smpp.StateBoundTRx)
                           /\ Smpp.makeTransition exBound ID false = (exBound, None))
                [Pdu.SubmitSmRespID; Pdu.SubmitMultiRespID])
  /\ (Smpp.Type_ (Smpp.conf exOpen) = Smpp.ESME
      /\ Smpp.state exOpen = Smpp.StateOpen
      /\ (Pdu.OutbindID ∉ spec_allowed Smpp.StateOpen)
      /\ Smpp.makeTransition exOpen Pdu.OutbindID true = (exOpen, None)).
Proof.
  assert (Hnot : forall ID st, bool_decide (ID ∈ spec_allowed st) = false ->
                               ID ∉ spec_allowed st).
  { intros ID st Hb Hin. apply bool_decide_eq_false in Hb. contradiction. }
  split; [|split].
  - split; [reflexivity|]. split; [reflexivity|].
    repeat (apply Forall_cons_2; [split; [apply Hnot; reflexivity | reflexivity]|]).
    constructor.
  - split; [reflexivity|]. split; [reflexivity|].
    repeat (apply Forall_cons_2; [split; [apply Hnot; reflexivity | reflexivity]|]).
    constructor.
  - split; [reflexivity|]. split; [reflexivity|].
    split; [apply Hnot; reflexivity | reflexivity].
Qed.

(** ** Send with a full window *)

(** C6. When the table of outstanding requests holds [SendWinSize]
    entries, [Send] of a PDU returns the temporary window-closed error
    at once and leaves the session as it found it: the table and its
    channels, the encoder with its sequencer and its stream, the state
    and the calls of the state hook are all unchanged. *)
Theorem Send_full_window_fails {W S R P : Type} `{Stream W} `{Pdu.Sequencer S} `{Pdu.PDU P}
    (sess : Smpp.Session W S R) (req : P) :
  Z.of_nat (size (Smpp.sent sess)) = Smpp.SendWinSize (Smpp.conf sess) ->
  exists e sess',
    Smpp.Send sess (Some req) = (sess', Smpp.SendFailed e)
    /\ e = smpp_Error "smpp: sending window closed" [] true
    /\ Smpp.Temporary e = true
    /\ sess' = sess
    /\ Smpp.sent sess' = Smpp.sent sess
    /\ Smpp.chans sess' = Smpp.chans sess
    /\ Smpp.enc sess' = Smpp.enc sess
    /\ Smpp.state sess' = Smpp.state sess
    /\ Smpp.hookCalls sess' = Smpp.hookCalls sess.
Proof.
  intros Hfull. exists (smpp_Error "smpp: sending window closed" [] true), sess.
  unfold Smpp.Send. rewrite Hfull, Z.eqb_refl. repeat split; reflexivity.
Qed.

Lemma Send_full_window_fails_witness :
  Z.of_nat (size (Smpp.sent exBinding)) = Smpp.SendWinSize (Smpp.conf exBinding)
  /\ exists e sess',
    Smpp.Send exBinding (Some Pdu.mkUnbind) = (sess', Smpp.SendFailed e)
    /\ e = smpp_Error "smpp: sending window closed" [] true
    /\ Smpp.Temporary e = true
    /\ sess' = exBinding
    /\ Smpp.sent sess' = Smpp.sent exBinding
    /\ Smpp.chans sess' = Smpp.chans exBinding
    /\ Smpp.enc sess' = Smpp.enc exBinding
    /\ Smpp.state sess' = Smpp.state exBinding
    /\ Smpp.hookCalls sess' = Smpp.hookCalls exBinding.
Proof.
  split; [reflexivity|].
  apply (Send_full_window_fails exBinding Pdu.mkUnbind). reflexivity.
Defined.

(** ** Close *)

Section CloseFacts.
Import Pdu Smpp.
Context {W S R : Type} `{Stream W} `{Sequencer S}.
Implicit Type sess : Session W S R.

(** The invariant of the slot table: every slot is an open channel of
    the store, and no channel serves two slots.  [NewSession]
    establishes it and [Send] keeps it. *)
Definition slots_open sess : Prop :=
  (forall k l, sent sess !! k = Some l -> exists q, chans sess !! l = Some (ChanOpen q))
  /\ (forall k1 k2 l, sent sess !! k1 = Some l -> sent sess !! k2 = Some l -> k1 = k2).

Lemma slots_open_NewSession (rwc : W) (c : SessionConf) (seq : S) (randID : string) :
  slots_open (NewSession (R := R) rwc c seq randID).
Proof. split; simpl; intros *; rewrite lookup_empty; discriminate. Qed.

Lemma closeAll_ok (slots : list (Z * nat)) (tbl : gmap Z nat)
    (store : gmap nat (chanState (response R))) :
  NoDup slots.*2 ->
  (forall l, l ∈ slots.*2 -> exists q, store !! l = Some (ChanOpen q)) ->
  exists tbl' store',
    closeAll slots tbl store = Return (tbl', store')
    /\ (forall k, tbl' !! k = if decide (k ∈ slots.*1) then None else tbl !! k)
    /\ (forall l, store' !! l = if decide (l ∈ slots.*2) then Some ChanClosed else store !! l).
Proof.
  revert tbl store. induction slots as [|[k l] slots IH]; intros tbl store Hnd Hopen.
  - exists tbl, store. split; [reflexivity|].
    split; intros x; reflexivity.
  - simpl in Hnd. apply NoDup_cons in Hnd as [Hl Hnd].
    destruct (Hopen l) as [q Hq]; [simpl; left|].
    simpl. unfold close_chan. rewrite Hq.
    destruct (IH (delete k tbl) (<[l := ChanClosed]> store) Hnd) as (tbl' & store' & E & Ht & Hs).
    { intros l' Hl'. destruct (Hopen l') as [q' Hq']; [simpl; by right|].
      exists q'. rewrite lookup_insert_ne; [done|]. intros ->. contradiction. }
    exists tbl', store'. split; [exact E|]. split.
    + intros k'. rewrite Ht. destruct (decide (k' ∈ slots.*1)) as [Hin|Hnin].
      * rewrite decide_True; [done | by right].
      * destruct (decide (k' = k)) as [->|Hne].
        -- rewrite decide_True by (by left). apply lookup_delete_eq.
        -- rewrite decide_False.
           ++ by apply lookup_delete_ne.
           ++ intros [?|?]%elem_of_cons; contradiction.
    + intros l'. rewrite Hs. destruct (decide (l' ∈ slots.*2)) as [Hin|Hnin].
      * rewrite decide_True; [done | by right].
      * destruct (decide (l' = l)) as [->|Hne].
        -- rewrite decide_True by (by left). apply lookup_insert_eq.
        -- rewrite decide_False.
           ++ by apply lookup_insert_ne.
           ++ intros [?|?]%elem_of_cons; contradiction.
Qed.

Lemma NoDup_channels (tbl : gmap Z nat) :
  (forall k1 k2 l, tbl !! k1 = Some l -> tbl !! k2 = Some l -> k1 = k2) ->
  NoDup (map_to_list tbl).*2.
Proof.
  intros Hinj.
  assert (Hin : forall k l, (k, l) ∈ map_to_list tbl -> tbl !! k = Some l).
  { intros k l. apply elem_of_map_to_list. }
  pose proof (NoDup_fst_map_to_list tbl) as Hnd.
  revert Hin Hnd. generalize (map_to_list tbl) as slots.
  induction slots as [|[k l] slots IH]; intros Hin Hnd; simpl.
  - constructor.
  - simpl in Hnd. apply NoDup_cons in Hnd as [Hk Hnd].
    constructor.
    + intros Hl. apply list_elem_of_fmap in Hl as ([k' l'] & -> & Hkl). simpl in *.
      assert (k = k') as ->.
      { apply (Hinj k k' l'); apply Hin; [by left | by right]. }
      apply Hk. apply list_elem_of_fmap. exists (k', l'). split; [done | exact Hkl].
    + apply IH; [|exact Hnd]. intros k' l' Hkl. apply Hin. by right.
Qed.

(** The range loop of [Close] on a table that satisfies the
    invariant: it empties the table and closes every channel of it. *)
Lemma closeAll_table sess :
  slots_open sess ->
  exists store',
    closeAll (map_to_list (sent sess)) (sent sess) (chans sess) = Return (∅, store')
    /\ (forall k l, sent sess !! k = Some l -> store' !! l = Some ChanClosed).
Proof.
  intros [Hopen Hinj].
  destruct (closeAll_ok (map_to_list (sent sess)) (sent sess) (chans sess))
    as (tbl' & store' & E & Ht & Hs).
  - by apply NoDup_channels.
  - intros l Hl. apply list_elem_of_fmap in Hl as ([k l'] & -> & Hkl).
    apply elem_of_map_to_list in Hkl. by apply (Hopen k).
  - assert (tbl' = ∅) as ->.
    { apply map_eq. intros k. rewrite Ht, lookup_empty.
      case_decide as Hnin; [done|].
      destruct (sent sess !! k) as [l|] eqn:E'; [|done].
      exfalso. apply Hnin. apply list_elem_of_fmap. exists (k, l).
      split; [done | by apply elem_of_map_to_list]. }
    exists store'. split; [exact E|].
    intros k l Hkl. rewrite Hs, decide_True; [done|].
    apply list_elem_of_fmap. exists (k, l). split; [done | by apply elem_of_map_to_list].
Qed.

(** The states from which [setState] lets a session go to
    [StateClosing]. *)
Definition closable (st : SessionState) : bool :=
  match st with
  | StateBoundTx | StateBoundRx | StateBoundTRx | StateUnbinding => true
  | _ => false
  end.

(** The calls that a successful [Close] makes to the state hook. *)
Definition closeCalls sess : list (string * string * SessionState) :=
  if SessionStateHook (conf sess)
  then [(ID (conf sess), SystemID sess, StateClosing);
        (ID (conf sess), SystemID sess, StateClosed)]
  else [].

End CloseFacts.

Section SlotInvariant.
Import Pdu Smpp.
Context {W S R : Type} `{Stream W} `{Sequencer S}.
Implicit Type sess : Session W S R.

Lemma setState_slots sess (st : SessionState) :
  sent (fst (setState sess st)) = sent sess
  /\ chans (fst (setState sess st)) = chans sess.
Proof.
  unfold setState, commitState.
  destruct (decide (state sess = st)); [done|].
  destruct (state sess), st; simpl; done.
Qed.

Lemma makeTransition_slots sess (ID : Z) (received : bool) :
  sent (fst (makeTransition sess ID received)) = sent sess
  /\ chans (fst (makeTransition sess ID received)) = chans sess.
Proof.
  unfold makeTransition.
  repeat match goal with
         | |- context [if ?b then _ else _] => destruct b
         | |- context [match state sess with _ => _ end] => destruct (state sess) eqn:?
         end; try done; apply setState_slots.
Qed.

Lemma slots_open_ext sess sess' :
  sent sess' = sent sess -> chans sess' = chans sess ->
  slots_open sess -> slots_open sess'.
Proof. unfold slots_open. intros -> ->. done. Qed.

Lemma slots_open_makeTransition sess (ID : Z) (received : bool) :
  slots_open sess -> slots_open (fst (makeTransition sess ID received)).
Proof. apply slots_open_ext; apply makeTransition_slots. Qed.

(** [Send] keeps the invariant: the slot it adds is a fresh, open
    channel. *)
Lemma slots_open_Send {P} `{PDU P} sess (req : option P) :
  slots_open sess -> slots_open (fst (Send sess req)).
Proof.
  intros Hinv. unfold Send.
  destruct req as [req|]; [|done].
  destruct (_ =? _); [done|].
  pose proof (slots_open_makeTransition sess (CommandID req) false Hinv) as Hinv'.
  destruct (makeTransition sess (CommandID req) false) as [sess1 [err|]]; [done|].
  simpl in Hinv'.
  destruct (Encode (enc sess1) req []) as [en [seq [err|]]]; simpl.
  { revert Hinv'. by apply slots_open_ext. }
  destruct Hinv' as [Hopen Hinj].
  set (l := newChan (chans sess1)).
  assert (Hfresh : chans sess1 !! l = None).
  { apply not_elem_of_dom. apply is_fresh. }
  split; simpl.
  - intros k c Hk. destruct (decide (k = seq)) as [->|Hne].
    + rewrite lookup_insert_eq in Hk. injection Hk as <-.
      exists None. apply lookup_insert_eq.
    + rewrite lookup_insert_ne in Hk by done.
      destruct (Hopen k c Hk) as [q Hq]. exists q.
      rewrite lookup_insert_ne; [done|]. intros <-. congruence.
  - intros k1 k2 c Hk1 Hk2.
    destruct (decide (k1 = seq)) as [->|Hne1], (decide (k2 = seq)) as [->|Hne2]; [done| | |].
    + rewrite lookup_insert_eq in Hk1. injection Hk1 as <-.
      rewrite lookup_insert_ne in Hk2 by done.
      destruct (Hopen k2 l Hk2) as [q Hq]. congruence.
    + rewrite lookup_insert_eq in Hk2. injection Hk2 as <-.
      rewrite lookup_insert_ne in Hk1 by done.
      destruct (Hopen k1 l Hk1) as [q Hq]. congruence.
    + rewrite lookup_insert_ne in Hk1, Hk2 by done. by apply (Hinj k1 k2 c).
Qed.

End SlotInvariant.

(** C7, as the code has it.  [Close] succeeds from the three bound
    states and from [StateUnbinding]: the session goes through
    [StateClosing] to [StateClosed], the stream is closed, every
    outstanding slot is closed and removed from the table, the [closed]
    channel is closed and nil is returned.  From [StateOpen],
    [StateBinding], [StateClosing] and [StateClosed] the first
    [setState] refuses the transition: [Close] returns that error, which
    is not temporary, and the session is left as it was. *)
Theorem Close_outcome {W S R : Type} `{Stream W} `{Pdu.Sequencer S}
    (sess : Smpp.Session W S R) :
  slots_open sess ->
  if closable (Smpp.state sess) then
    exists sess',
      Smpp.Close sess = Return (sess', None)
      /\ Smpp.state sess' = Smpp.StateClosed
      /\ Smpp.rwc sess' = fst (io_Close (Smpp.rwc sess))
      /\ Smpp.sent sess' = ∅
      /\ (forall k l, Smpp.sent sess !! k = Some l ->
                      Smpp.chans sess' !! l = Some Smpp.ChanClosed)
      /\ Smpp.closed sess' = true
      /\ Smpp.hookCalls sess' = Smpp.hookCalls sess ++ closeCalls sess
  else
    exists e, Smpp.Close sess = Return (sess, Some e) /\ Smpp.Temporary e = false.
Proof.
  intros Hinv. destruct (closable (Smpp.state sess)) eqn:Hst.
  - destruct (closeAll_table sess Hinv) as (store' & Hclose & Hchans).
    assert (Hset : Smpp.setState sess Smpp.StateClosing
                   = Smpp.commitState sess Smpp.StateClosing).
    { unfold Smpp.setState. destruct (Smpp.state sess); try discriminate Hst; reflexivity. }
    unfold Smpp.Close. rewrite Hset. unfold Smpp.commitState at 1.
    cbn [Smpp.with_state Smpp.sent Smpp.chans]. rewrite Hclose.
    unfold Smpp.rwc. cbn [Smpp.with_slots Smpp.with_state Smpp.enc].
    destruct (io_Close (Pdu.enc_w (Smpp.enc sess))) as [w e] eqn:Ecl.
    eexists. split; [reflexivity|].
    unfold closeCalls, Smpp.SystemID. cbn.
    repeat split; try done.
    destruct (Smpp.SessionStateHook (Smpp.conf sess)); cbn; [|by rewrite app_nil_r].
    by rewrite <- app_assoc.
  - unfold Smpp.Close, Smpp.setState.
    destruct (Smpp.state sess); try discriminate Hst; cbn; eexists; split; reflexivity.
Qed.

Lemma exBound_slots_open : slots_open exBound.
Proof.
  apply slots_open_makeTransition, slots_open_Send, slots_open_NewSession.
Defined.

Lemma Close_outcome_witness :
  slots_open exBound
  /\ exists sess',
      Smpp.Close exBound = Return (sess', None)
      /\ Smpp.state sess' = Smpp.StateClosed
      /\ Smpp.rwc sess' = fst (io_Close (Smpp.rwc exBound))
      /\ Smpp.sent sess' = ∅
      /\ (forall k l, Smpp.sent exBound !! k = Some l ->
                      Smpp.chans sess' !! l = Some Smpp.ChanClosed)
      /\ Smpp.closed sess' = true
      /\ Smpp.hookCalls sess' = Smpp.hookCalls exBound ++ closeCalls exBound.
Proof.
  split; [exact exBound_slots_open|].
  exact (Close_outcome exBound exBound_slots_open).
Defined.

(** On a session that is still open, [Close] returns the error of
    [setState] and does nothing else: the state stays [StateOpen] and
    the stream stays open.  The same holds while binding.  The comment
    of [NewSession] asks for [Close] to be called so that the receive
    task ends and says that the session closes the stream during
    shutdown, and [Unbind], [serve] and [Server.Serve] call [Close] in
    whatever state the session is and drop its error: a session that
    never bound is left with its task and its stream. *)
Lemma Close_refused_when_open :
  Smpp.Close exOpen
  = Return (exOpen, Some (fmt_Errorf "smpp: setting open session to invalid state %s"
                                     [ArgInt 6]))
  /\ Smpp.state exOpen = Smpp.StateOpen
  /\ buf_closed (Smpp.rwc exOpen) = false
  /\ Smpp.Close exBinding
     = Return (exBinding, Some (fmt_Errorf "smpp: setting binding session to invalid state %s"
                                           [ArgInt 6]))
  /\ ~ (exists sess', Smpp.Close exOpen = Return (sess', None)).
Proof.
  repeat split; try reflexivity.
  intros [sess' E]. discriminate E.
Qed.

(** ** The encoder *)

Section WordFacts.

Lemma lor_shiftl_add (a b n : Z) :
  0 <= n -> 0 <= a < 2 ^ n -> Z.lor a (Z.shiftl b n) = a + b * 2 ^ n.
Proof.
  intros Hn Ha. rewrite Z.shiftl_mul_pow2 by lia.
  rewrite <- Z.lxor_lor.
  - symmetry. apply Z.add_nocarry_lxor.
    apply Z.bits_inj'. intros m Hm. rewrite Z.land_spec, Z.bits_0.
    destruct (Z.ltb_spec m n).
    + rewrite Z.mul_pow2_bits_low by lia. apply andb_false_r.
    + rewrite <- (Z.mod_small a (2 ^ n)) by lia.
      rewrite Z.mod_pow2_bits_high by lia. reflexivity.
  - apply Z.bits_inj'. intros m Hm. rewrite Z.land_spec, Z.bits_0.
    destruct (Z.ltb_spec m n).
    + rewrite Z.mul_pow2_bits_low by lia. apply andb_false_r.
    + rewrite <- (Z.mod_small a (2 ^ n)) by lia.
      rewrite Z.mod_pow2_bits_high by lia. reflexivity.
Qed.

(** Reading back a big-endian word that [PutUint32] wrote. *)
Lemma Uint32_PutUint32 (v : Z) (rest : bytes) :
  0 <= v < 2 ^ 32 -> Uint32 (PutUint32 v ++ rest) = Return v.
Proof.
  intros Hv. unfold PutUint32, Uint32. cbn [app]. f_equal.
  rewrite !Z.shiftr_div_pow2 by lia.
  assert (H8 : 0 <= v mod 256 < 2 ^ 8) by (apply Z.mod_pos_bound; lia).
  assert (H16 : 0 <= v / 2 ^ 8 mod 256 < 256) by (apply Z.mod_pos_bound; lia).
  assert (H24 : 0 <= v / 2 ^ 16 mod 256 < 256) by (apply Z.mod_pos_bound; lia).
  assert (H32 : 0 <= v / 2 ^ 24 mod 256 < 256) by (apply Z.mod_pos_bound; lia).
  rewrite (lor_shiftl_add (v mod 256)) by lia.
  rewrite (lor_shiftl_add _ _ 16) by lia.
  rewrite (lor_shiftl_add _ _ 24) by lia.
  change (2 ^ 8) with 256 in *. change (2 ^ 16) with 65536 in *.
  change (2 ^ 24) with 16777216 in *. change (2 ^ 32) with 4294967296 in *.
  clear H8 H16 H24 H32. Z.div_mod_to_equations. lia.
Qed.

Lemma uint32_small (v : Z) : 0 <= v < 2 ^ 32 -> uint32 v = v.
Proof. intros Hv. unfold uint32. apply Z.mod_small. exact Hv. Qed.

End WordFacts.

(** ** The decoder *)

Section DecoderFacts.
Import Pdu.

(** The four words of a header whose length is within the limits are
    read back as they were written. *)
Lemma header_UnmarshalBinary_words (h : header) (l c st sq : Z) :
  16 <= l <= MaxPDUSize -> 0 <= c < 2 ^ 32 -> 0 <= st < 2 ^ 32 -> 0 <= sq < 2 ^ 32 ->
  header_UnmarshalBinary h (PutUint32 l ++ PutUint32 c ++ PutUint32 st ++ PutUint32 sq)
  = Return ({| h_length := l; h_commandID := c; h_status := st; h_sequence := sq |}, None).
Proof.
  unfold MaxPDUSize. intros Hl Hc Hst Hsq. unfold header_UnmarshalBinary.
  set (body := PutUint32 l ++ PutUint32 c ++ PutUint32 st ++ PutUint32 sq).
  change (len body) with 16. change (16 <? 4) with false. change (16 <? 16) with false.
  cbv iota.
  change (slice body 0 4) with (PutUint32 l ++ []).
  change (slice body 4 8) with (PutUint32 c ++ []).
  change (slice body 8 12) with (PutUint32 st ++ []).
  change (slice body 12 16) with (PutUint32 sq ++ []).
  rewrite !Uint32_PutUint32 by lia.
  replace (l <? 16) with false by lia. unfold MaxPDUSize.
  replace (4096 <? l) with false by lia. reflexivity.
Qed.

(** A frame of length 16 is decoded without a call of
    [UnmarshalBinary]: the PDU returned is the zero value that [NewPDU]
    made, whatever its type. *)
Lemma Decode_without_body (now : Gotime.Time) (c st sq : Z) (pdu : anyPDU) (rest : bytes) :
  0 <= c < 2 ^ 32 -> 0 <= st < 2 ^ 32 -> 0 <= sq < 2 ^ 32 ->
  NewPDU now c = Return pdu ->
  Decode now (frame 16 c st sq [] ++ rest)
  = Some (Return (rest,
                  (Some {| h_length := 16; h_commandID := c; h_status := st;
                           h_sequence := sq |},
                   Some pdu, None))).
Proof.
  intros Hc Hst Hsq Hnew. unfold Decode, ReadFull, frame.
  rewrite !uint32_small by lia.
  set (hd := PutUint32 16 ++ PutUint32 c ++ PutUint32 st ++ PutUint32 sq ++ []).
  assert (Hlen : len (hd ++ rest) = 16 + len rest).
  { unfold len. rewrite length_app. change (length hd) with 16%nat. lia. }
  rewrite Hlen. assert (0 <= len rest) by (unfold len; lia).
  change (16 <=? 0) with false. cbv iota.
  replace (16 + len rest =? 0) with false by lia.
  replace (16 + len rest <? 16) with false by lia.
  change (Z.to_nat 16) with (length hd).
  rewrite take_app_length, drop_app_length.
  unfold hd. rewrite app_nil_r.
  rewrite header_UnmarshalBinary_words by (unfold MaxPDUSize; lia).
  cbn [h_length h_commandID]. change (16 <? 16) with false. cbv iota.
  rewrite Hnew. reflexivity.
Qed.

End DecoderFacts.

(** C4, as the code has it.  [Encode] never compares the frame length
    with the 4096-byte maximum: whenever [MarshalBinary] returns a body,
    of any length, [Encode] hands the writer the 16-byte header followed
    by that body in a single [Write], and its own error is the one of
    that [Write].  The length word of the frame is [16 + len(body)] (as
    a [uint32]), also when this exceeds 4096. *)
Theorem Encode_writes_any_length {W S P : Type}
    {HW : Stream W} {HS : Pdu.Sequencer S} {HP : Pdu.PDU P}
    (en : Pdu.Encoder W S) (p : P) (opts : list Pdu.EncoderOption) (body : bytes) :
  Pdu.MarshalBinary p = Ok body ->
  let eOpts := fold_left (fun e (o : Pdu.EncoderOption) => o e) opts
                         {| Pdu.eo_seq := 0; Pdu.eo_status := 0 |} in
  let next := if Pdu.eo_seq eOpts =? 0 then Pdu.Next (Pdu.enc_seq en)
              else (Pdu.eo_seq eOpts, Pdu.enc_seq en) in
  let buf := Pdu.frame (len body + 16) (Pdu.CommandID p) (Pdu.eo_status eOpts)
                       (fst next) body in
  Pdu.Encode en p opts
  = ({| Pdu.enc_w := fst (Write (Pdu.enc_w en) buf); Pdu.enc_seq := snd next |},
     (fst next, snd (Write (Pdu.enc_w en) buf)))
  /\ slice buf 0 4 = PutUint32 (uint32 (len body + 16))
  /\ (len body + 16 < 2 ^ 32 -> Uint32 buf = Return (16 + len body))
  /\ drop 16 buf = body.
Proof.
  intros Hbody eOpts next buf. unfold Pdu.Encode. rewrite Hbody. cbv zeta.
  fold eOpts. fold next. destruct next as [seq sq] eqn:Enext. cbn [fst snd] in buf.
  fold buf. destruct (Write _ _) as [w err]. split; [reflexivity|].
  split; [reflexivity|]. split; [|reflexivity].
  intros Hlen. unfold buf, Pdu.frame.
  assert (0 <= len body) by (unfold len; lia).
  rewrite uint32_small by lia.
  rewrite Uint32_PutUint32 by lia. f_equal. lia.
Qed.

(** The [submit_sm] of the test table: every field zero except the two
    addresses and the message, no options. *)
Definition exSubmitSm : Pdu.SubmitSm :=
  Pdu.set_SourceAddr "test"
    (Pdu.set_DestinationAddr "test2" (Pdu.set_ShortMessage "msg" Pdu.zeroSubmitSm)).

(** The same with a [message_payload] option of 4100 bytes. *)
Definition exLongSubmitSm : Pdu.SubmitSm :=
  Pdu.set_Options_
    (Some (Pdu.Set_ Pdu.NewOptions Pdu.TagMessagePayload (repeat 0x41 4100))) exSubmitSm.

Definition exNow : Gotime.Time := Gotime.Date 2016 10 3 21 12 36 0 0.

Definition exEncoder : Pdu.Encoder Buffer Pdu.defaultSequencer :=
  Pdu.NewEncoder_nil {| buf_bytes := []; buf_closed := false |}.

Lemma Encode_writes_any_length_witness :
  Pdu.MarshalBinary (PDU := Pdu.SubmitSm_PDU exNow) exSubmitSm
  = Ok [0; 0; 0; 0x74; 0x65; 0x73; 0x74; 0; 0; 0; 0x74; 0x65; 0x73; 0x74; 0x32; 0;
        0; 0; 0; 0; 0; 0; 0; 0; 0; 3; 0x6d; 0x73; 0x67]
  /\ let body := [0; 0; 0; 0x74; 0x65; 0x73; 0x74; 0; 0; 0; 0x74; 0x65; 0x73; 0x74; 0x32; 0;
                  0; 0; 0; 0; 0; 0; 0; 0; 0; 3; 0x6d; 0x73; 0x67] in
     let buf := Pdu.frame (len body + 16) Pdu.SubmitSmID 0 1 body in
     Pdu.Encode (HP := Pdu.SubmitSm_PDU exNow) exEncoder exSubmitSm []
     = ({| Pdu.enc_w := fst (Write (Pdu.enc_w exEncoder) buf);
           Pdu.enc_seq := Pdu.NewSequencer 2 |},
        (1, snd (Write (Pdu.enc_w exEncoder) buf)))
     /\ slice buf 0 4 = PutUint32 (uint32 (len body + 16))
     /\ (len body + 16 < 2 ^ 32 -> Uint32 buf = Return (16 + len body))
     /\ drop 16 buf = body.
Proof.
  split; [reflexivity|].
  pose proof (Encode_writes_any_length (HP := Pdu.SubmitSm_PDU exNow) exEncoder exSubmitSm []
                _ eq_refl) as H.
  cbv zeta in H. cbn [fold_left Pdu.eo_seq Pdu.eo_status] in H.
  change (0 =? 0) with true in H. cbv iota in H.
  change (Pdu.Next (Pdu.enc_seq exEncoder)) with (1, Pdu.NewSequencer 2) in H.
  cbn [fst snd] in H. exact H.
Defined.

(** A [submit_sm] whose body is 4133 bytes long is encoded without an
    error: the frame that reaches the stream is 4149 bytes long and
    says so in its length word. *)
Lemma Encode_accepts_oversized_body :
  exists body en,
    Pdu.MarshalBinary (PDU := Pdu.SubmitSm_PDU exNow) exLongSubmitSm = Ok body
    /\ len body = 4133
    /\ Pdu.Encode (HP := Pdu.SubmitSm_PDU exNow) exEncoder exLongSubmitSm [] = (en, (1, None))
    /\ len (buf_bytes (Pdu.enc_w en)) = 4149
    /\ Uint32 (buf_bytes (Pdu.enc_w en)) = Return 4149
    /\ Pdu.MaxPDUSize < 4149.
Proof.
  eexists. eexists.
  split; [vm_compute; reflexivity|].
  split; [vm_compute; reflexivity|].
  split; [vm_compute; reflexivity|].
  split; [vm_compute; reflexivity|].
  split; [vm_compute; reflexivity|].
  reflexivity.
Qed.

(** The same library refuses that frame on the way in: [Decode] stops
    at the header, whose length is over the limit. *)
Example Decode_refuses_the_oversized_frame :
  exists en h,
    Pdu.Encode (HP := Pdu.SubmitSm_PDU exNow) exEncoder exLongSubmitSm [] = (en, (1, None))
    /\ Pdu.Decode exNow (buf_bytes (Pdu.enc_w en))
       = Some (Return (drop 16 (buf_bytes (Pdu.enc_w en)),
                       (Some h, None,
                        Some (errors_New "smpp: pdu length over upper limit"))))
    /\ Pdu.h_length h = 4149.
Proof.
  eexists. eexists.
  split; [vm_compute; reflexivity|].
  split; [vm_compute; reflexivity|].
  reflexivity.
Qed.

(** ** The submit_sm scenario *)

(** The 29 bytes of the body of [exSubmitSm], as in the test table of
    the package, and the 27 bytes of the hex string
    [0000746573740000746573743200000000000000000000036d7367]. *)
Definition submitBody : bytes :=
  [0x00; 0x00; 0x00; 0x74; 0x65; 0x73; 0x74; 0x00; 0x00; 0x00;
   0x74; 0x65; 0x73; 0x74; 0x32; 0x00;
   0x00; 0x00; 0x00; 0x00; 0x00; 0x00; 0x00; 0x00; 0x00; 0x03; 0x6d; 0x73; 0x67].

Definition shortHexBody : bytes :=
  [0x00; 0x00; 0x74; 0x65; 0x73; 0x74; 0x00; 0x00;
   0x74; 0x65; 0x73; 0x74; 0x32; 0x00;
   0x00; 0x00; 0x00; 0x00; 0x00; 0x00; 0x00; 0x00; 0x00; 0x03; 0x6d; 0x73; 0x67].

(** C1, as the code has it.  The body of the [submit_sm] is the 29
    bytes [000000 7465737400 0000 746573743200 000000000000000000 03
    6d7367]: an empty service type, two address bytes and the
    NUL-terminated address on each side, nine zero bytes, the length 3
    and the message.  Framed with status OK and sequence 1 (given as an
    option or drawn from the default sequencer) it is 45 bytes long and
    starts with [0000002D 00000004 00000000 00000001]; unmarshalling the
    29 bytes into an empty [SubmitSm] gives the struct back. *)
Theorem submit_sm_scenario (now : Gotime.Time) (order : gmap Z bytes -> list (Z * bytes)) :
  Pdu.SubmitSm_MarshalBinary now order exSubmitSm = Ok submitBody
  /\ (exists en,
        Pdu.Encode (HP := Pdu.SubmitSm_PDU now) exEncoder exSubmitSm
                   [Pdu.EncodeStatus Pdu.StatusOK; Pdu.EncodeSeq 1] = (en, (1, None))
        /\ len (buf_bytes (Pdu.enc_w en)) = 45
        /\ take 16 (buf_bytes (Pdu.enc_w en))
           = [0x00; 0x00; 0x00; 0x2D; 0x00; 0x00; 0x00; 0x04;
              0x00; 0x00; 0x00; 0x00; 0x00; 0x00; 0x00; 0x01]
        /\ drop 16 (buf_bytes (Pdu.enc_w en)) = submitBody)
  /\ (exists en,
        Pdu.Encode (HP := Pdu.SubmitSm_PDU now) exEncoder exSubmitSm
                   [Pdu.EncodeStatus Pdu.StatusOK] = (en, (1, None))
        /\ buf_bytes (Pdu.enc_w en)
           = [0x00; 0x00; 0x00; 0x2D; 0x00; 0x00; 0x00; 0x04;
              0x00; 0x00; 0x00; 0x00; 0x00; 0x00; 0x00; 0x01] ++ submitBody)
  /\ Pdu.SubmitSm_UnmarshalBinary now Pdu.zeroSubmitSm submitBody = Some (exSubmitSm, None).
Proof.
  split; [reflexivity|].
  split; [eexists; split; [reflexivity|]; repeat split; reflexivity|].
  split; [eexists; split; reflexivity|].
  reflexivity.
Qed.

(** The hex string of 27 bytes is not the body: two zero bytes are
    missing from it, it would make a frame of 43 bytes, and it
    unmarshals to a different struct (addresses [est] and [est2] with
    numbering plan 0x74). *)
Lemma submit_sm_body_is_not_short_hex :
  Pdu.SubmitSm_MarshalBinary exNow map_to_list exSubmitSm = Ok submitBody
  /\ submitBody <> shortHexBody
  /\ len shortHexBody + 16 = 43
  /\ (exists p, Pdu.SubmitSm_UnmarshalBinary exNow Pdu.zeroSubmitSm shortHexBody = Some (p, None)
              /\ Pdu.SourceAddr p = "est"%string
              /\ Pdu.SourceAddrNpi p = 0x74
              /\ p <> exSubmitSm).
Proof.
  split; [reflexivity|]. split; [discriminate|]. split; [reflexivity|].
  eexists. split; [reflexivity|]. split; [reflexivity|]. split; [reflexivity|].
  discriminate.
Qed.

(** ** TLV options *)

Section OptionsFacts.
Import Pdu.

Lemma len_app {A} (l1 l2 : list A) : len (l1 ++ l2) = len l1 + len l2.
Proof. unfold len. rewrite length_app. lia. Qed.

Lemma len_nonneg {A} (l : list A) : 0 <= len l.
Proof. unfold len. lia. Qed.

Lemma slice_app_shift {A} (pre l : list A) (lo hi : Z) :
  0 <= lo -> slice (pre ++ l) (len pre + lo) (len pre + hi) = slice l lo hi.
Proof.
  intros Hlo. unfold slice, len.
  replace (Z.of_nat (length pre) + hi - (Z.of_nat (length pre) + lo)) with (hi - lo) by lia.
  f_equal.
  replace (Z.to_nat (Z.of_nat (length pre) + lo)) with (length pre + Z.to_nat lo)%nat by lia.
  by rewrite drop_app_add.
Qed.

Lemma slice_prefix {A} (l1 l2 : list A) : slice (l1 ++ l2) 0 (len l1) = l1.
Proof.
  unfold slice, len. rewrite Z.sub_0_r, Nat2Z.id. simpl. rewrite drop_0.
  by rewrite take_app_length.
Qed.

Lemma slice_suffix {A} (l1 l2 : list A) : slice (l1 ++ l2) (len l1) (len (l1 ++ l2)) = l2.
Proof.
  unfold slice. rewrite len_app. unfold len.
  replace (Z.of_nat (length l1) + Z.of_nat (length l2) - Z.of_nat (length l1))
    with (Z.of_nat (length l2)) by lia.
  rewrite !Nat2Z.id, drop_app_length. by rewrite take_ge.
Qed.

Lemma nth_is_byte (l : bytes) (i : nat) : Forall is_byte l -> 0 <= nth i l 0 < 256.
Proof.
  intros Hl. destruct (nth_in_or_default i l 0) as [Hin | ->]; [|lia].
  rewrite Forall_forall in Hl. apply Hl. by apply list_elem_of_In.
Qed.

Lemma uint16be_range (b : bytes) : Forall is_byte b -> 0 <= uint16be b < 65536.
Proof.
  intros Hb. unfold uint16be.
  pose proof (nth_is_byte b 0 Hb). pose proof (nth_is_byte b 1 Hb).
  rewrite lor_shiftl_add by lia. lia.
Qed.

Lemma slice_is_byte (b : bytes) (lo hi : Z) : Forall is_byte b -> Forall is_byte (slice b lo hi).
Proof. intros Hb. unfold slice. by apply Forall_take, Forall_drop. Qed.

(** The loop ends within [len(buf) - n] rounds. *)
Lemma unmarshalLoop_total (fuel : nat) (buf : bytes) (n : Z) (flds : gmap Z bytes) :
  Forall is_byte buf -> len buf - n <= Z.of_nat fuel ->
  is_Some (unmarshalLoop fuel buf n flds).
Proof.
  intros Hb. revert n flds. induction fuel as [|fuel IH]; intros n flds Hfuel; simpl.
  - destruct (Z.ltb_spec n (len buf)); [lia | eauto].
  - destruct (Z.ltb_spec n (len buf)); [|eauto].
    destruct (_ <=? 4); [eauto|].
    destruct (_ >=? _); [eauto|].
    apply IH.
    pose proof (uint16be_range (slice buf (n + 2) (n + 4)) (slice_is_byte _ _ _ Hb)). lia.
Qed.

Lemma unmarshalLoop_fuel (fuel fuel' : nat) (buf : bytes) (n : Z) (flds : gmap Z bytes) r :
  unmarshalLoop fuel buf n flds = Some r -> (fuel <= fuel')%nat ->
  unmarshalLoop fuel' buf n flds = Some r.
Proof.
  revert fuel' n flds. induction fuel as [|fuel IH]; intros fuel' n flds Hr Hle; simpl in Hr.
  - destruct fuel'; simpl; destruct (n <? len buf); done.
  - destruct fuel' as [|fuel']; [lia|]. simpl.
    destruct (n <? len buf); [|done].
    destruct (_ <=? 4); [done|].
    destruct (_ >=? _); [done|].
    apply IH; [done | lia].
Qed.

(** [Options.UnmarshalBinary] returns on every buffer of bytes. *)
Lemma Options_UnmarshalBinary_total (o : Options) (buf : bytes) :
  Forall is_byte buf -> is_Some (Options_UnmarshalBinary o buf).
Proof.
  intros Hb. unfold Options_UnmarshalBinary.
  destruct (unmarshalLoop_total (length buf) buf 0 (fields o) Hb) as [[flds err] E].
  - unfold len. lia.
  - rewrite E. eauto.
Qed.

(** The loop looks at the buffer from [n] on only. *)
Lemma unmarshalLoop_shift (fuel : nat) (pre buf : bytes) (n : Z) (flds : gmap Z bytes) :
  Forall is_byte buf -> 0 <= n ->
  unmarshalLoop fuel (pre ++ buf) (len pre + n) flds = unmarshalLoop fuel buf n flds.
Proof.
  intros Hb. revert n flds. induction fuel as [|fuel IH]; intros n flds Hn; simpl;
    rewrite len_app;
    replace (len pre + n <? len pre + len buf) with (n <? len buf) by lia;
    [done|].
  destruct (n <? len buf); [|done].
  replace (len pre + len buf - (len pre + n)) with (len buf - n) by lia.
  destruct (_ <=? 4); [done|].
  replace (len pre + n + 2) with (len pre + (n + 2)) by lia.
  replace (len pre + n + 4) with (len pre + (n + 4)) by lia.
  rewrite !slice_app_shift by lia.
  set (l := uint16be (slice buf (n + 2) (n + 4))).
  assert (0 <= l < 65536) by (apply uint16be_range, slice_is_byte, Hb).
  replace (len pre + (n + 4) + l >=? len pre + len buf + 1)
    with (n + 4 + l >=? len buf + 1) by lia.
  destruct (_ >=? _); [done|].
  replace (len pre + (n + 4) + l) with (len pre + (n + 4 + l)) by lia.
  rewrite !slice_app_shift by lia.
  apply IH. lia.
Qed.

Lemma PutUint16_is_byte (v : Z) : Forall is_byte (PutUint16 v).
Proof.
  unfold PutUint16, is_byte. repeat constructor; apply Z.mod_pos_bound; lia.
Qed.

Lemma uint16be_PutUint16 (v : Z) (rest : bytes) :
  0 <= v < 65536 -> uint16be (PutUint16 v ++ rest) = v.
Proof.
  intros Hv. unfold uint16be, PutUint16. cbn [app nth].
  rewrite Z.shiftr_div_pow2 by lia.
  assert (0 <= v mod 256 < 2 ^ 8) by (apply Z.mod_pos_bound; lia).
  rewrite lor_shiftl_add by lia.
  change (2 ^ 8) with 256 in *. Z.div_mod_to_equations. lia.
Qed.

Lemma len_marshalTLV (tag : Z) (val : bytes) : len (marshalTLV tag val) = 4 + len val.
Proof. unfold marshalTLV. rewrite !len_app. unfold PutUint16, len. simpl length. lia. Qed.

(** One round of the loop on a record written by [MarshalBinary]
    that is followed by [rest]: the record is stored and the loop
    goes on with [rest], unless the value and [rest] are both empty. *)
Lemma unmarshalLoop_record (fuel : nat) (tag : Z) (val rest : bytes) (flds : gmap Z bytes) :
  0 <= tag < 65536 -> len val < 65536 -> Forall is_byte rest ->
  0 < len val + len rest ->
  unmarshalLoop (S fuel) (marshalTLV tag val ++ rest) 0 flds
  = unmarshalLoop fuel rest 0 (<[tag := val]> flds).
Proof.
  intros Htag Hval Hrest Hne.
  pose proof (len_nonneg val). pose proof (len_nonneg rest).
  cbn [unmarshalLoop]. rewrite len_app, len_marshalTLV.
  replace (0 <? 4 + len val + len rest) with true by lia.
  replace (4 + len val + len rest - 0 <=? 4) with false by lia.
  assert (Etag : uint16be (slice (marshalTLV tag val ++ rest) 0 (0 + 2)) = tag).
  { change (slice (marshalTLV tag val ++ rest) 0 (0 + 2))
      with (PutUint16 (uint16 tag) ++ []).
    rewrite uint16be_PutUint16; unfold uint16; rewrite Z.mod_small; lia. }
  assert (Elen : uint16be (slice (marshalTLV tag val ++ rest) (0 + 2) (0 + 4)) = len val).
  { change (slice (marshalTLV tag val ++ rest) (0 + 2) (0 + 4))
      with (PutUint16 (uint16 (len val)) ++ []).
    rewrite uint16be_PutUint16; unfold uint16; rewrite Z.mod_small; lia. }
  rewrite Etag, Elen.
  replace (0 + 4 + len val >=? 4 + len val + len rest + 1) with false by lia.
  assert (Eval : slice (marshalTLV tag val ++ rest) (0 + 4) (0 + 4 + len val) = val).
  { unfold marshalTLV, slice, len.
    replace (0 + 4 + Z.of_nat (length val) - (0 + 4)) with (Z.of_nat (length val)) by lia.
    rewrite Nat2Z.id. cbn. change (Z.to_nat (0 + 4)) with 4%nat. cbn [drop].
    by rewrite drop_0, take_app_length. }
  rewrite Eval.
  replace (0 + 4 + len val) with (len (marshalTLV tag val) + 0)
    by (rewrite len_marshalTLV; lia).
  apply unmarshalLoop_shift; [done | lia].
Qed.

End OptionsFacts.

Section OptionsRecords.
Import Pdu.

Lemma marshalTLV_is_byte (tag : Z) (val : bytes) :
  Forall is_byte val -> Forall is_byte (marshalTLV tag val).
Proof.
  intros Hval. unfold marshalTLV.
  repeat apply Forall_app_2; auto using PutUint16_is_byte.
Qed.

Lemma unmarshalLoop_end (fuel : nat) (flds : gmap Z bytes) :
  unmarshalLoop fuel [] 0 flds = Some (flds, None).
Proof. destruct fuel; reflexivity. Qed.

(** A record without a value that is followed by more bytes is
    stored as an empty value, and the scan goes on behind it. *)
Lemma UnmarshalBinary_empty_record (o : Options) (tag : Z) (rest : bytes) :
  0 <= tag < 65536 -> rest <> [] -> Forall is_byte rest ->
  exists r,
    Options_UnmarshalBinary (Set_ o tag []) rest = Some r
    /\ Options_UnmarshalBinary o (marshalTLV tag [] ++ rest) = Some r.
Proof.
  intros Htag Hne Hrest.
  destruct (Options_UnmarshalBinary_total (Set_ o tag []) rest Hrest) as [r Hr].
  exists r. split; [exact Hr|].
  unfold Options_UnmarshalBinary in *. cbn [fields Set_] in Hr.
  rewrite length_app. change (length (marshalTLV tag [])) with 4%nat.
  cbn [Nat.add]. rewrite unmarshalLoop_record; try done.
  - destruct (unmarshalLoop (length rest) rest 0 _) as [[flds err]|] eqn:E; [|done].
    rewrite (unmarshalLoop_fuel _ (S (S (S (length rest)))) _ _ _ _ E) by lia. exact Hr.
  - destruct rest; [done|]. unfold len. simpl. lia.
Qed.

(** Two records, the first without a value. *)
Lemma UnmarshalBinary_empty_then_record (o : Options) (tag tag1 : Z) (val1 : bytes) :
  0 <= tag < 65536 -> 0 <= tag1 < 65536 ->
  val1 <> [] -> len val1 < 65536 -> Forall is_byte val1 ->
  Options_UnmarshalBinary o (marshalTLV tag [] ++ marshalTLV tag1 val1)
  = Some (Set_ (Set_ o tag []) tag1 val1, None).
Proof.
  intros Htag Htag1 Hne Hlen Hval.
  unfold Options_UnmarshalBinary. rewrite length_app.
  change (length (marshalTLV tag [])) with 4%nat.
  replace (length (marshalTLV tag1 val1)) with (S (3 + length val1))
    by (unfold marshalTLV; rewrite !length_app; simpl; lia).
  cbn [Nat.add].
  assert (0 < len val1) by (destruct val1; [done | unfold len; simpl; lia]).
  rewrite unmarshalLoop_record;
    [| done | done | by apply marshalTLV_is_byte
     | rewrite len_marshalTLV; change (len (@nil Z)) with 0; lia].
  rewrite <- (app_nil_r (marshalTLV tag1 val1)).
  rewrite unmarshalLoop_record;
    [| done | done | done | change (len (@nil Z)) with 0; lia].
  by rewrite unmarshalLoop_end.
Qed.

End OptionsRecords.

(** C10. A typed getter indexes the stored value without checking its
    length: [GetSingle] panics on a tag whose value is empty and
    [GetDouble] on a tag whose value has fewer than two bytes, instead
    of returning zero and [false].  Such values come out of
    [Options.UnmarshalBinary]: a record of length zero that is followed
    by more bytes is stored as an empty value and the scan continues,
    so a buffer holding a zero-length record and one more record is
    accepted, after which both getters panic on the first tag. *)
Theorem getters_panic_on_short_values
    (o : Pdu.Options) (tagS tagD : Z) (b : bytes)
    (o0 : Pdu.Options) (tag0 tag1 : Z) (val1 rest : bytes) :
  Pdu.fields o !! tagS = Some [] ->
  Pdu.fields o !! tagD = Some b -> (length b < 2)%nat ->
  0 <= tag0 < 65536 -> rest <> [] -> Forall is_byte rest ->
  0 <= tag1 < 65536 -> tag1 <> tag0 ->
  val1 <> [] -> len val1 < 65536 -> Forall is_byte val1 ->
  Pdu.GetSingle o tagS = Panic "index out of range"
  /\ Pdu.GetDouble o tagD = Panic "index out of range"
  /\ (exists r,
        Pdu.Options_UnmarshalBinary (Pdu.Set_ o0 tag0 []) rest = Some r
        /\ Pdu.Options_UnmarshalBinary o0 (Pdu.marshalTLV tag0 [] ++ rest) = Some r)
  /\ (exists o',
        Pdu.Options_UnmarshalBinary o0 (Pdu.marshalTLV tag0 [] ++ Pdu.marshalTLV tag1 val1)
        = Some (o', None)
        /\ Pdu.fields o' !! tag0 = Some []
        /\ Pdu.GetSingle o' tag0 = Panic "index out of range"
        /\ Pdu.GetDouble o' tag0 = Panic "index out of range").
Proof.
  intros HS HD Hb Htag0 Hrest Hbytes Htag1 Hne Hval1 Hlen1 Hbytes1.
  split; [unfold Pdu.GetSingle; by rewrite HS|].
  split.
  { unfold Pdu.GetDouble. rewrite HD.
    destruct b as [|b0 [|b1 b]]; simpl in *; try done; lia. }
  split; [by apply UnmarshalBinary_empty_record|].
  eexists. split; [by apply UnmarshalBinary_empty_then_record|].
  assert (E : Pdu.fields (Pdu.Set_ (Pdu.Set_ o0 tag0 []) tag1 val1) !! tag0 = Some []).
  { simpl. rewrite lookup_insert_ne by done. apply lookup_insert_eq. }
  split; [exact E|].
  split; [unfold Pdu.GetSingle; by rewrite E | unfold Pdu.GetDouble; by rewrite E].
Qed.

(** The options unmarshalled from [0005 0000 | 0006 0001 07]: tag 5
    holds the empty value, tag 6 a single byte. *)
Definition exShortOptions : Pdu.Options :=
  Pdu.Set_ (Pdu.Set_ Pdu.NewOptions 5 []) 6 [7].

Example exShortOptions_unmarshalled :
  Pdu.Options_UnmarshalBinary Pdu.NewOptions [0; 5; 0; 0; 0; 6; 0; 1; 7]
  = Some (exShortOptions, None).
Proof. reflexivity. Qed.

Lemma getters_panic_on_short_values_witness :
  Pdu.fields exShortOptions !! 5 = Some []
  /\ Pdu.fields exShortOptions !! 6 = Some [7]
  /\ Pdu.GetSingle exShortOptions 5 = Panic "index out of range"
  /\ Pdu.GetDouble exShortOptions 6 = Panic "index out of range"
  /\ (exists r,
        Pdu.Options_UnmarshalBinary (Pdu.Set_ Pdu.NewOptions 5 []) [0; 6; 0; 1; 7] = Some r
        /\ Pdu.Options_UnmarshalBinary Pdu.NewOptions
             (Pdu.marshalTLV 5 [] ++ [0; 6; 0; 1; 7]) = Some r)
  /\ (exists o',
        Pdu.Options_UnmarshalBinary Pdu.NewOptions (Pdu.marshalTLV 5 [] ++ Pdu.marshalTLV 6 [7])
        = Some (o', None)
        /\ Pdu.fields o' !! 5 = Some []
        /\ Pdu.GetSingle o' 5 = Panic "index out of range"
        /\ Pdu.GetDouble o' 5 = Panic "index out of range").
Proof.
  split; [reflexivity|]. split; [reflexivity|].
  apply (getters_panic_on_short_values exShortOptions 5 6 [7] Pdu.NewOptions 5 6 [7]
           [0; 6; 0; 1; 7]).
  - reflexivity.
  - reflexivity.
  - simpl. lia.
  - lia.
  - discriminate.
  - unfold is_byte. repeat constructor; lia.
  - lia.
  - lia.
  - discriminate.
  - reflexivity.
  - unfold is_byte. repeat constructor; lia.
Defined.

(** C5.  The round trip fails on a value that is empty and comes last.
    The map that holds only [alert_on_message_delivery] with the empty
    value marshals to [130C 0000], and unmarshalling these four bytes
    stops with the body-length error: [len(buf)-n <= 4] also refuses a
    record that ends the buffer exactly.  With a second entry the
    result depends on the order of the range: the empty value last
    fails after the first record was stored, the empty value first
    gives the map back. *)
Theorem options_roundtrip_fails_on_last_empty_value :
  Pdu.Options_MarshalBinary (Pdu.Set_ Pdu.NewOptions Pdu.TagAlertOnMessageDeliv [])
  = [0x13; 0x0C; 0x00; 0x00]
  /\ Pdu.Options_UnmarshalBinary Pdu.NewOptions [0x13; 0x0C; 0x00; 0x00]
     = Some (Pdu.NewOptions,
             Some (fmt_Errorf "smpp/pdu: invalid optional body length" []))
  /\ Pdu.Options_UnmarshalBinary Pdu.NewOptions
       (Pdu.MarshalBinary_in [(5, [1]); (Pdu.TagAlertOnMessageDeliv, [])])
     = Some (Pdu.Set_ Pdu.NewOptions 5 [1],
             Some (fmt_Errorf "smpp/pdu: invalid optional body length" []))
  /\ Pdu.Options_UnmarshalBinary Pdu.NewOptions
       (Pdu.MarshalBinary_in [(Pdu.TagAlertOnMessageDeliv, []); (5, [1])])
     = Some (Pdu.Set_ (Pdu.Set_ Pdu.NewOptions Pdu.TagAlertOnMessageDeliv []) 5 [1], None).
Proof. repeat split; reflexivity. Qed.

(** ** The round trip of the options *)

Section OptionsRoundTrip.
Import Pdu.

(** An entry that the wire format can hold: a 16-bit tag and at most
    65535 bytes. *)
Definition tlv_ok (e : Z * bytes) : Prop :=
  0 <= e.1 < 65536 /\ len e.2 < 65536 /\ Forall is_byte e.2.

Lemma MarshalBinary_in_acc (order : list (Z * bytes)) (acc : bytes) :
  fold_left (fun out '(tag, val) => out ++ marshalTLV tag val) order acc
  = acc ++ MarshalBinary_in order.
Proof.
  unfold MarshalBinary_in. revert acc.
  induction order as [|[tag val] order IH]; intros acc; simpl.
  - by rewrite app_nil_r.
  - rewrite IH, (IH (marshalTLV tag val)). by rewrite app_assoc.
Qed.

Lemma MarshalBinary_in_cons (tag : Z) (val : bytes) (order : list (Z * bytes)) :
  MarshalBinary_in ((tag, val) :: order) = marshalTLV tag val ++ MarshalBinary_in order.
Proof. unfold MarshalBinary_in at 1. simpl. apply MarshalBinary_in_acc. Qed.

Lemma MarshalBinary_in_is_byte (order : list (Z * bytes)) :
  Forall tlv_ok order -> Forall is_byte (MarshalBinary_in order).
Proof.
  induction 1 as [|[tag val] order (_ & _ & Hval) _ IH]; [constructor|].
  rewrite MarshalBinary_in_cons. apply Forall_app_2; [by apply marshalTLV_is_byte | done].
Qed.

Lemma MarshalBinary_in_nonempty (order : list (Z * bytes)) :
  order <> [] -> 0 < len (MarshalBinary_in order).
Proof.
  destruct order as [|[tag val] order]; [done|]. intros _.
  rewrite MarshalBinary_in_cons, len_app, len_marshalTLV.
  pose proof (len_nonneg val). pose proof (len_nonneg (MarshalBinary_in order)). lia.
Qed.

(** The records stored by the loop, in the order of the buffer. *)
Definition stored (flds : gmap Z bytes) (order : list (Z * bytes)) : gmap Z bytes :=
  foldl (fun m e => <[e.1 := e.2]> m) flds order.

(** Unmarshalling what was marshalled in the order [order] stores
    every entry, provided the entry visited last has a value. *)
Lemma unmarshalLoop_marshal (order : list (Z * bytes)) (flds : gmap Z bytes) :
  Forall tlv_ok order ->
  (forall e, last order = Some e -> e.2 <> []) ->
  unmarshalLoop (length (MarshalBinary_in order)) (MarshalBinary_in order) 0 flds
  = Some (stored flds order, None).
Proof.
  intros Hok. revert flds.
  induction Hok as [|[tag val] order (Htag & Hlen & Hval) Hok IH]; intros flds Hlast.
  - reflexivity.
  - rewrite MarshalBinary_in_cons, length_app.
    replace (length (marshalTLV tag val)) with (S (3 + length val))
      by (unfold marshalTLV; rewrite !length_app; simpl; lia).
    cbn [Nat.add]. simpl in Htag, Hlen, Hval.
    rewrite unmarshalLoop_record; try done.
    + apply (unmarshalLoop_fuel (length (MarshalBinary_in order))); [|lia].
      apply IH. intros e He. apply Hlast.
      destruct order; [done | exact He].
    + by apply MarshalBinary_in_is_byte.
    + destruct order as [|e order].
      * assert (val <> []) as Hne by (apply (Hlast (tag, val)); reflexivity).
        destruct val; [done|]. unfold len. simpl. lia.
      * assert (0 < len (MarshalBinary_in (e :: order)))
          by (by apply MarshalBinary_in_nonempty).
        pose proof (len_nonneg val). lia.
Qed.

(** When the entry visited last has the empty value, the loop stores
    the entries before it and stops with the body-length error. *)
Lemma unmarshalLoop_marshal_empty_last (order : list (Z * bytes)) (tag : Z)
    (flds : gmap Z bytes) :
  Forall tlv_ok order -> 0 <= tag < 65536 ->
  unmarshalLoop (length (MarshalBinary_in (order ++ [(tag, [])])))
                (MarshalBinary_in (order ++ [(tag, [])])) 0 flds
  = Some (stored flds order,
          Some (fmt_Errorf "smpp/pdu: invalid optional body length" [])).
Proof.
  intros Hok Htag. revert flds.
  induction Hok as [|[t val] order (Ht & Hlen & Hval) Hok IH]; intros flds.
  - reflexivity.
  - cbn [app]. rewrite MarshalBinary_in_cons, length_app.
    replace (length (marshalTLV t val)) with (S (3 + length val))
      by (unfold marshalTLV; rewrite !length_app; simpl; lia).
    cbn [Nat.add]. simpl in Ht, Hlen, Hval.
    rewrite unmarshalLoop_record; try done.
    + apply (unmarshalLoop_fuel (length (MarshalBinary_in (order ++ [(tag, [])])))); [|lia].
      apply IH.
    + apply MarshalBinary_in_is_byte. apply Forall_app_2; [done|].
      repeat constructor; simpl; try lia; unfold len; simpl; lia.
    + assert (0 < len (MarshalBinary_in (order ++ [(tag, [])])))
        by (apply MarshalBinary_in_nonempty; by destruct order).
      pose proof (len_nonneg val). lia.
Qed.

Lemma stored_list_to_map (order : list (Z * bytes)) :
  stored ∅ order = list_to_map (reverse order).
Proof.
  unfold stored. rewrite <- (reverse_involutive order) at 1.
  generalize (reverse order) as l. intros l.
  induction l as [|[t v] l IH]; [reflexivity|].
  rewrite reverse_cons, foldl_app. simpl. by rewrite IH.
Qed.

(** The round trip of a map all of whose entries fit the wire format:
    whatever the order of the range, [UnmarshalBinary] gives the map
    back when the entry visited last has a value, and fails when that
    entry has the empty value. *)
Lemma Options_roundtrip (m : gmap Z bytes) (order : list (Z * bytes)) :
  range_order {| fields := m |} order ->
  map_Forall (fun tag val => tlv_ok (tag, val)) m ->
  match last order with
  | None => Options_UnmarshalBinary NewOptions (MarshalBinary_in order)
            = Some ({| fields := m |}, None)
  | Some (tag, val) =>
      if decide (val = []) then
        exists flds,
          Options_UnmarshalBinary NewOptions (MarshalBinary_in order)
          = Some ({| fields := flds |},
                  Some (fmt_Errorf "smpp/pdu: invalid optional body length" []))
          /\ flds = delete tag m
      else Options_UnmarshalBinary NewOptions (MarshalBinary_in order)
           = Some ({| fields := m |}, None)
  end.
Proof.
  unfold range_order. cbn [fields]. intros Hperm Hm.
  assert (Hok : Forall tlv_ok order).
  { rewrite Hperm. apply Forall_forall. intros [t v] Hin.
    apply elem_of_map_to_list in Hin. by apply (Hm t v). }
  assert (Hnd : NoDup order.*1).
  { rewrite Hperm. apply NoDup_fst_map_to_list. }
  assert (Hall : stored ∅ order = m).
  { rewrite stored_list_to_map.
    rewrite (list_to_map_proper (reverse order) (map_to_list m)).
    - apply list_to_map_to_list.
    - by rewrite fmap_reverse, reverse_Permutation.
    - by rewrite reverse_Permutation. }
  unfold Options_UnmarshalBinary. cbn [fields NewOptions].
  destruct (last order) as [[tag val]|] eqn:Hlast.
  - destruct (decide (val = [])) as [->|Hne].
    + apply last_Some in Hlast as [order' ->].
      apply Forall_app in Hok as [Hok' Hlast']. 
      apply Forall_cons in Hlast' as [(Htag & _) _]. simpl in Htag.
      rewrite unmarshalLoop_marshal_empty_last by done.
      eexists. split; [reflexivity|].
      rewrite <- Hall. unfold stored. rewrite foldl_app. simpl.
      rewrite delete_insert_id; [done|].
      rewrite fmap_app in Hnd. apply NoDup_app in Hnd as (_ & Hdisj & _).
      fold (stored ∅ order'). rewrite stored_list_to_map.
      apply not_elem_of_list_to_map_1. rewrite fmap_reverse, elem_of_reverse.
      intros Hin. apply (Hdisj tag Hin). simpl. by left.
    + rewrite unmarshalLoop_marshal; [by rewrite Hall | done |].
      intros e He. rewrite Hlast in He. by injection He as <-.
  - apply last_None in Hlast. subst order. simpl.
    apply Permutation_nil_l in Hperm. symmetry in Hperm.
    apply map_to_list_empty_iff in Hperm. by subst m.
Qed.

End OptionsRoundTrip.

(** ** Bind responses *)

Section BindRespFacts.
Import Pdu.

Lemma string_of_bytes_of_string (s : string) : string_of_bytes (bytes_of_string s) = s.
Proof.
  unfold string_of_bytes, bytes_of_string. rewrite map_map.
  rewrite (map_ext _ (fun a => a)).
  - rewrite map_id. apply string_of_list_ascii_of_string.
  - intros a. rewrite N2Z.id. apply ascii_N_embedding.
Qed.

Lemma findNul_app (pre tl : bytes) (i : Z) :
  Forall (fun b => b <> 0) pre -> findNul (pre ++ 0 :: tl) i = i + len pre + 1.
Proof.
  intros Hpre. revert i. induction Hpre as [|b pre Hb Hpre IH]; intros i; simpl.
  - unfold len. simpl. lia.
  - destruct (Z.eqb_spec b 0); [done|]. rewrite IH. unfold len. simpl length. lia.
Qed.

(** The outcome of [cStringOptsRespUnmarshal] on a C string followed by
    [tlv]. *)
Lemma cStringOptsRespUnmarshal_app (sid : string) (tlv : bytes) :
  Forall (fun b => b <> 0) (bytes_of_string sid) ->
  cStringOptsRespUnmarshal (bytes_of_string sid ++ 0 :: tlv)
  = if 0 <? len tlv then
      match Options_UnmarshalBinary NewOptions tlv with
      | None => None
      | Some (opts, Some err) => Some (EmptyString, None, Some err)
      | Some (opts, None) => Some (sid, Some opts, None)
      end
    else Some (sid, None, None).
Proof.
  intros Hsid. unfold cStringOptsRespUnmarshal.
  rewrite findNul_app by done.
  pose proof (len_nonneg (bytes_of_string sid)).
  replace (0 + len (bytes_of_string sid) + 1 <? 0) with false by lia.
  replace (0 + len (bytes_of_string sid) + 1 - 1) with (len (bytes_of_string sid)) by lia.
  rewrite slice_prefix, string_of_bytes_of_string.
  replace (slice (bytes_of_string sid ++ 0 :: tlv) (0 + len (bytes_of_string sid) + 1)
                 (len (bytes_of_string sid ++ 0 :: tlv))) with tlv; [done|].
  replace (bytes_of_string sid ++ 0 :: tlv) with ((bytes_of_string sid ++ [0]) ++ tlv)
    by (by rewrite <- app_assoc).
  replace (0 + len (bytes_of_string sid) + 1) with (len (bytes_of_string sid ++ [0]))
    by (rewrite len_app; unfold len; simpl; lia).
  by rewrite slice_suffix.
Qed.

End BindRespFacts.

(** C8, as the code has it.  [UnmarshalBinary] of each of the three
    bind responses fails on the empty body: no terminating NUL is found
    and the error says so, leaving an empty system id and nil options in
    the receiver.  On a body made of a system id without NUL bytes, a
    NUL and TLV bytes that [Options.UnmarshalBinary] accepts, the system
    id and the options are both decoded; when nothing follows the NUL
    the options stay nil.  A bind response without a body is accepted
    one level up: [Decode] does not call [UnmarshalBinary] for a frame
    of length 16 and returns the zero value, with an empty system id
    and nil options. *)
Theorem bind_resp_unmarshal (sid : string) (tlv : bytes) (opts : Pdu.Options)
    (p : Pdu.BindTRxResp) (ptx : Pdu.BindTxResp) (prx : Pdu.BindRxResp)
    (now : Gotime.Time) (status seq : Z) (rest : bytes) :
  Forall (fun b => b <> 0) (bytes_of_string sid) ->
  tlv <> [] ->
  Pdu.Options_UnmarshalBinary Pdu.NewOptions tlv = Some (opts, None) ->
  0 <= status < 2 ^ 32 -> 0 <= seq < 2 ^ 32 ->
  let unterminated := Some (errors_New "smpp/pdu: c string is not terminated") in
  let decodedAs (id : Z) (pdu : Pdu.anyPDU) :=
    Pdu.Decode now (Pdu.frame 16 id status seq [] ++ rest)
    = Some (Return (rest,
                    (Some {| Pdu.h_length := 16; Pdu.h_commandID := id;
                             Pdu.h_status := status; Pdu.h_sequence := seq |},
                     Some pdu, None))) in
  Pdu.cStringOptsRespUnmarshal [] = Some (EmptyString, None, unterminated)
  /\ Pdu.UnmarshalBinary p []
     = Some ({| Pdu.trxresp_SystemID := ""; Pdu.trxresp_Options := None |}, unterminated)
  /\ Pdu.UnmarshalBinary ptx []
     = Some ({| Pdu.txresp_SystemID := ""; Pdu.txresp_Options := None |}, unterminated)
  /\ Pdu.UnmarshalBinary prx []
     = Some ({| Pdu.rxresp_SystemID := ""; Pdu.rxresp_Options := None |}, unterminated)
  /\ Pdu.UnmarshalBinary p (bytes_of_string sid ++ 0 :: tlv)
     = Some ({| Pdu.trxresp_SystemID := sid; Pdu.trxresp_Options := Some opts |}, None)
  /\ Pdu.UnmarshalBinary ptx (bytes_of_string sid ++ 0 :: tlv)
     = Some ({| Pdu.txresp_SystemID := sid; Pdu.txresp_Options := Some opts |}, None)
  /\ Pdu.UnmarshalBinary prx (bytes_of_string sid ++ 0 :: tlv)
     = Some ({| Pdu.rxresp_SystemID := sid; Pdu.rxresp_Options := Some opts |}, None)
  /\ Pdu.UnmarshalBinary p (bytes_of_string sid ++ [0])
     = Some ({| Pdu.trxresp_SystemID := sid; Pdu.trxresp_Options := None |}, None)
  /\ decodedAs Pdu.BindTransceiverRespID
       (Pdu.Any Pdu.BindTRxResp_PDU
                {| Pdu.trxresp_SystemID := ""; Pdu.trxresp_Options := None |})
  /\ decodedAs Pdu.BindTransmitterRespID
       (Pdu.Any Pdu.BindTxResp_PDU
                {| Pdu.txresp_SystemID := ""; Pdu.txresp_Options := None |})
  /\ decodedAs Pdu.BindReceiverRespID
       (Pdu.Any Pdu.BindRxResp_PDU
                {| Pdu.rxresp_SystemID := ""; Pdu.rxresp_Options := None |}).
Proof.
  intros Hsid Htlv Hopts Hstatus Hseq. cbv zeta.
  assert (Hlen : (0 <? len tlv) = true).
  { destruct tlv; [done|]. apply Z.ltb_lt. unfold len. simpl length. lia. }
  repeat split; try reflexivity;
    try (apply Decode_without_body; [vm_compute; split; congruence | done | done | reflexivity]);
    unfold Pdu.UnmarshalBinary, Pdu.BindTRxResp_PDU, Pdu.BindTxResp_PDU, Pdu.BindRxResp_PDU,
      Pdu.BindTRxResp_PDU_in, Pdu.BindTxResp_PDU_in, Pdu.BindRxResp_PDU_in;
    rewrite cStringOptsRespUnmarshal_app by done;
    rewrite ?Hlen, ?Hopts; reflexivity.
Qed.

(** The bind response of the test table, [7465737400 0210 0001 34],
    and the frame of a bind response that has no body. *)
Lemma bind_resp_unmarshal_witness :
  Forall (fun b => b <> 0) (bytes_of_string "test")
  /\ Pdu.Options_UnmarshalBinary Pdu.NewOptions [0x02; 0x10; 0x00; 0x01; 0x34]
     = Some (Pdu.SetScInterfaceVersion Pdu.NewOptions 0x34, None)
  /\ Pdu.UnmarshalBinary {| Pdu.trxresp_SystemID := ""; Pdu.trxresp_Options := None |}
       [0x74; 0x65; 0x73; 0x74; 0x00; 0x02; 0x10; 0x00; 0x01; 0x34]
     = Some ({| Pdu.trxresp_SystemID := "test";
                Pdu.trxresp_Options := Some (Pdu.SetScInterfaceVersion Pdu.NewOptions 0x34) |},
             None)
  /\ Pdu.Decode exNow (Pdu.frame 16 Pdu.BindTransceiverRespID 0 1 [] ++ [])
     = Some (Return ([],
                     (Some {| Pdu.h_length := 16; Pdu.h_commandID := Pdu.BindTransceiverRespID;
                              Pdu.h_status := 0; Pdu.h_sequence := 1 |},
                      Some (Pdu.Any Pdu.BindTRxResp_PDU
                              {| Pdu.trxresp_SystemID := ""; Pdu.trxresp_Options := None |}),
                      None))).
Proof.
  assert (H1 : Forall (fun b => b <> 0) (bytes_of_string "test")).
  { repeat constructor; discriminate. }
  assert (H2 : Pdu.Options_UnmarshalBinary Pdu.NewOptions [0x02; 0x10; 0x00; 0x01; 0x34]
               = Some (Pdu.SetScInterfaceVersion Pdu.NewOptions 0x34, None))
    by reflexivity.
  assert (H3 : [0x02; 0x10; 0x00; 0x01; 0x34] <> []) by discriminate.
  assert (H4 : 0 <= 0 < 2 ^ 32) by lia.
  assert (H5 : 0 <= 1 < 2 ^ 32) by lia.
  pose proof (bind_resp_unmarshal "test" [0x02; 0x10; 0x00; 0x01; 0x34]
                (Pdu.SetScInterfaceVersion Pdu.NewOptions 0x34)
                {| Pdu.trxresp_SystemID := ""; Pdu.trxresp_Options := None |}
                {| Pdu.txresp_SystemID := ""; Pdu.txresp_Options := None |}
                {| Pdu.rxresp_SystemID := ""; Pdu.rxresp_Options := None |}
                exNow 0 1 [] H1 H3 H2 H4 H5) as H.
  cbv zeta in H.
  destruct H as (_ & _ & _ & _ & Hbody & _ & _ & _ & Hdec & _).
  split; [exact H1|]. split; [exact H2|]. split; [exact Hbody | exact Hdec].
Defined.

(** Unmarshalling a bind response from the empty body does not succeed. *)
Lemma bind_resp_empty_body_is_refused :
  Pdu.UnmarshalBinary {| Pdu.trxresp_SystemID := ""; Pdu.trxresp_Options := None |} []
  = Some ({| Pdu.trxresp_SystemID := ""; Pdu.trxresp_Options := None |},
          Some (errors_New "smpp/pdu: c string is not terminated"))
  /\ Pdu.UnmarshalBinary {| Pdu.txresp_SystemID := ""; Pdu.txresp_Options := None |} []
     = Some ({| Pdu.txresp_SystemID := ""; Pdu.txresp_Options := None |},
             Some (errors_New "smpp/pdu: c string is not terminated"))
  /\ Pdu.UnmarshalBinary {| Pdu.rxresp_SystemID := ""; Pdu.rxresp_Options := None |} []
     = Some ({| Pdu.rxresp_SystemID := ""; Pdu.rxresp_Options := None |},
             Some (errors_New "smpp/pdu: c string is not terminated"))
  /\ ~ (exists p, Pdu.UnmarshalBinary
                    {| Pdu.trxresp_SystemID := ""; Pdu.trxresp_Options := None |} []
                  = Some (p, None)).
Proof.
  repeat split; try reflexivity. intros [p E]. discriminate E.
Qed.

(** ** Delivery receipts *)

(** The date layouts of a receipt, written out: [two n] is the
    two-digit text of [n], a [civil] holds the fields of a date between
    1969 and 2068, and [dateText] renders it as [YYMMDDhhmm] or, with
    seconds, as [YYMMDDhhmmss]; [dateTime] is the time it stands for.
    [longDateText] is the layout [YYYYMMDDhhmmss]. *)
Definition digitChar (d : Z) : ascii := ascii_of_N (Z.to_N (48 + d)).

Definition two (n : Z) : string :=
  String (digitChar (n / 10)) (String (digitChar (n mod 10)) EmptyString).

Record civil := { c_yy : Z; c_mo : Z; c_dd : Z; c_hh : Z; c_mi : Z; c_ss : Z }.

Definition fullYear (yy : Z) : Z := if 69 <=? yy then yy + 1900 else yy + 2000.

Definition civil_ok (c : civil) : Prop :=
  0 <= c_yy c < 100 /\ 1 <= c_mo c <= 12
  /\ 1 <= c_dd c <= Gotime.daysIn (c_mo c) (fullYear (c_yy c))
  /\ 0 <= c_hh c < 24 /\ 0 <= c_mi c < 60 /\ 0 <= c_ss c < 60.

Definition dateText (withSeconds : bool) (c : civil) : string :=
  (two (c_yy c) ++ two (c_mo c) ++ two (c_dd c) ++ two (c_hh c) ++ two (c_mi c)
   ++ if withSeconds then two (c_ss c) else "")%string.

Definition dateTime (withSeconds : bool) (c : civil) : Gotime.Time :=
  Gotime.Date (fullYear (c_yy c)) (c_mo c) (c_dd c) (c_hh c) (c_mi c)
              (if withSeconds then c_ss c else 0) 0 0.

Definition longDateText (century : Z) (c : civil) : string :=
  (two century ++ dateText true c)%string.

Section ReceiptDates.
Import Gotime.

Lemma digitChar_spec (d : Z) :
  0 <= d <= 9 -> isDigit (digitChar d) = true /\ digit (digitChar d) = d.
Proof.
  intros Hd.
  assert (d = 0 \/ d = 1 \/ d = 2 \/ d = 3 \/ d = 4 \/ d = 5 \/ d = 6 \/ d = 7
          \/ d = 8 \/ d = 9) as Hcases by lia.
  repeat (destruct Hcases as [-> | Hcases]; [split; reflexivity|]).
  subst. split; reflexivity.
Qed.

Lemma two_digits (n : Z) : 0 <= n < 100 -> 0 <= n / 10 <= 9 /\ 0 <= n mod 10 <= 9.
Proof. intros Hn. split; [Z.div_mod_to_equations; lia | Z.div_mod_to_equations; lia]. Qed.

Lemma two_app (n : Z) (rest : string) :
  (two n ++ rest)%string = String (digitChar (n / 10)) (String (digitChar (n mod 10)) rest).
Proof. reflexivity. Qed.

Lemma two_app_not_empty (n : Z) (rest : string) : (two n ++ rest =? "")%string = false.
Proof. reflexivity. Qed.

Lemma getnum_two (n : Z) (rest : string) (fixed : bool) :
  0 <= n < 100 -> getnum (two n ++ rest) fixed = Some (n, rest).
Proof.
  intros Hn. destruct (two_digits n Hn) as [Hhi Hlo].
  destruct (digitChar_spec _ Hhi) as [E1 E2], (digitChar_spec _ Hlo) as [E3 E4].
  rewrite two_app. unfold getnum. rewrite E1, E3, E2, E4.
  do 2 f_equal. Z.div_mod_to_equations. lia.
Qed.

Lemma atoi2_two (n : Z) :
  0 <= n < 100 -> atoi2 (digitChar (n / 10)) (digitChar (n mod 10)) = Some n.
Proof.
  intros Hn. destruct (two_digits n Hn) as [Hhi Hlo].
  destruct (digitChar_spec _ Hhi) as [E1 E2], (digitChar_spec _ Hlo) as [E3 E4].
  unfold atoi2. rewrite E1, E3, E2, E4. f_equal. Z.div_mod_to_equations. lia.
Qed.

(** What each field of a layout does with a two-digit text. *)
Lemma parseChunk_two (c : chunk) (f : parsed) (n : Z) (rest : string) :
  0 <= n < 100 -> c <> stdLongYear ->
  parseChunk c f (two n ++ rest)
  = match c with
    | stdYear =>
        Some ({| p_year := fullYear n; p_month := p_month f; p_day := p_day f;
                 p_hour := p_hour f; p_min := p_min f; p_sec := p_sec f |}, rest)
    | stdZeroMonth =>
        if (n <=? 0) || (12 <? n) then None
        else Some ({| p_year := p_year f; p_month := n; p_day := p_day f;
                      p_hour := p_hour f; p_min := p_min f; p_sec := p_sec f |}, rest)
    | stdZeroDay =>
        Some ({| p_year := p_year f; p_month := p_month f; p_day := n;
                 p_hour := p_hour f; p_min := p_min f; p_sec := p_sec f |}, rest)
    | stdHour =>
        if (n <? 0) || (24 <=? n) then None
        else Some ({| p_year := p_year f; p_month := p_month f; p_day := p_day f;
                      p_hour := n; p_min := p_min f; p_sec := p_sec f |}, rest)
    | stdZeroMinute =>
        if (n <? 0) || (60 <=? n) then None
        else Some ({| p_year := p_year f; p_month := p_month f; p_day := p_day f;
                      p_hour := p_hour f; p_min := n; p_sec := p_sec f |}, rest)
    | stdZeroSecond =>
        if (n <? 0) || (60 <=? n) then None
        else Some ({| p_year := p_year f; p_month := p_month f; p_day := p_day f;
                      p_hour := p_hour f; p_min := p_min f; p_sec := n |}, rest)
    | stdLongYear => None
    end.
Proof.
  intros Hn Hc. destruct c; try done; unfold parseChunk; rewrite ?getnum_two by done;
    try reflexivity.
  rewrite two_app. by rewrite atoi2_two.
Qed.

End ReceiptDates.

Section ReceiptParsing.
Import Gotime Pdu.

Lemma civil_ok_bounds (c : civil) :
  civil_ok c ->
  0 <= c_yy c < 100 /\ 0 <= c_mo c < 100 /\ 0 <= c_dd c < 100
  /\ 0 <= c_hh c < 100 /\ 0 <= c_mi c < 100 /\ 0 <= c_ss c < 100.
Proof.
  intros (Hy & Hm & Hd & Hh & Hmi & Hs).
  assert (daysIn (c_mo c) (fullYear (c_yy c)) <= 31).
  { unfold daysIn. destruct (_ && _); [lia|].
    assert (Hcases : c_mo c = 1 \/ c_mo c = 2 \/ c_mo c = 3 \/ c_mo c = 4 \/ c_mo c = 5
            \/ c_mo c = 6 \/ c_mo c = 7 \/ c_mo c = 8 \/ c_mo c = 9 \/ c_mo c = 10
            \/ c_mo c = 11 \/ c_mo c = 12) by lia.
    repeat (destruct Hcases as [-> | Hcases]; [simpl; lia|]). rewrite Hcases. simpl. lia. }
  lia.
Qed.

(** A date in either layout of the receipt parses to the time it
    stands for. *)
Lemma parseRecDate_dateText (withSeconds : bool) (c : civil) :
  civil_ok c -> parseRecDate (dateText withSeconds c) = Ok (dateTime withSeconds c).
Proof.
  intros Hok. pose proof (civil_ok_bounds c Hok) as (By & Bm & Bd & Bh & Bmi & Bs).
  destruct Hok as (Hy & Hm & Hd & Hh & Hmi & Hs).
  assert (Em : (c_mo c <=? 0) || (12 <? c_mo c) = false) by lia.
  assert (Eh : (c_hh c <? 0) || (24 <=? c_hh c) = false) by lia.
  assert (Emi : (c_mi c <? 0) || (60 <=? c_mi c) = false) by lia.
  assert (Es : (c_ss c <? 0) || (60 <=? c_ss c) = false) by lia.
  assert (Ed : (c_dd c <? 1) || (daysIn (c_mo c) (fullYear (c_yy c)) <? c_dd c) = false)
    by lia.
  unfold parseRecDate, Parse, ParseInLocation, recDateLayout, secRecDateLayout,
    layoutMinutes, layoutSeconds, dateText, dateTime.
  destruct withSeconds.
  - replace (two (c_ss c)) with (two (c_ss c) ++ "")%string by reflexivity.
    cbn [parseChunks].
    repeat (rewrite parseChunk_two by done; rewrite ?Em, ?Eh, ?Emi, ?Es).
    cbn [p_year p_month p_day p_hour p_min p_sec]. rewrite Ed.
    change (two (c_ss c) ++ "" =? "")%string with false.
    reflexivity.
  - cbn [parseChunks].
    repeat (rewrite parseChunk_two by done; rewrite ?Em, ?Eh, ?Emi, ?Es).
    cbn [p_year p_month p_day p_hour p_min p_sec]. rewrite Ed. reflexivity.
Qed.

(** A date of fourteen digits is refused by both layouts. *)
Lemma parseRecDate_longDateText (century : Z) (c : civil) :
  0 <= century < 100 -> civil_ok c ->
  exists e, parseRecDate (longDateText century c) = Err e.
Proof.
  intros Hc Hok. pose proof (civil_ok_bounds c Hok) as (By & Bm & Bd & Bh & Bmi & Bs).
  unfold parseRecDate, Parse, ParseInLocation, recDateLayout, secRecDateLayout,
    layoutMinutes, layoutSeconds, longDateText, dateText.
  replace (two (c_ss c)) with (two (c_ss c) ++ "")%string by reflexivity.
  cbn [parseChunks].
  repeat first
    [ rewrite parseChunk_two by done
    | rewrite two_app_not_empty; cbn [negb]
    | match goal with
      | |- context [if ?b then _ else _] => destruct b
      end ];
    eauto.
Qed.

End ReceiptParsing.

(** A date field of a receipt: in one of the two short layouts, or in
    the layout with a four-digit year. *)
Inductive receiptDate : Type :=
  | ShortDate (withSeconds : bool) (c : civil)
  | LongDate (century : Z) (c : civil).

Definition receiptDateText (d : receiptDate) : string :=
  match d with
  | ShortDate withSeconds c => dateText withSeconds c
  | LongDate century c => longDateText century c
  end.

Definition receiptDate_ok (d : receiptDate) : Prop :=
  match d with
  | ShortDate _ c => civil_ok c
  | LongDate century c => 0 <= century < 100 /\ civil_ok c
  end.

(** C9, as the code has it.  Take a receipt whose part before [text:]
    matches as the seven fields [id], [sub], [dlvrd], [submit date],
    [done date], [stat] and [err], in this order, the two dates being
    valid dates in one of the layouts.  When both dates are written as
    [YYMMDDhhmm] or [YYMMDDhhmmss], [ParseDeliveryReceipt] succeeds and
    returns the fields with the two times the dates stand for.  When
    one of them is written as [YYYYMMDDhhmmss] the receipt is refused
    with the invalid-format error: neither [time.Parse] call accepts
    fourteen digits. *)
Theorem receipt_date_layouts (sm : string) (i : nat)
    (w0 w1 w2 w3 w4 w5 w6 id sub dlvrd stat err : string) (d1 d2 : receiptDate) :
  Pdu.textIndex sm = Some i ->
  Regexp.FindAllStringSubmatch Pdu.deliveryReceipt 2 (substring 0 i sm)
  = [[w0; "id"; id]; [w1; "sub"; sub]; [w2; "dlvrd"; dlvrd];
     [w3; "submit date"; receiptDateText d1]; [w4; "done date"; receiptDateText d2];
     [w5; "stat"; stat]; [w6; "err"; err]]%string ->
  receiptDate_ok d1 -> receiptDate_ok d2 ->
  Pdu.ParseDeliveryReceipt sm
  = match d1, d2 with
    | ShortDate s1 c1, ShortDate s2 c2 =>
        Ok {| Pdu.Id := id; Pdu.Sub := sub; Pdu.Dlvrd := dlvrd;
              Pdu.SubmitDate := dateTime s1 c1; Pdu.DoneDate := dateTime s2 c2;
              Pdu.Stat := stat; Pdu.Err_ := err;
              Pdu.Text := substring (i + 5) (String.length sm - (i + 5)) sm |}
    | _, _ => Err Pdu.invalidReceipt
    end.
Proof.
  intros Hidx Hmatch Hok1 Hok2.
  unfold Pdu.ParseDeliveryReceipt. rewrite Hidx, Hmatch.
  cbn [Pdu.receiptLoop length Nat.eqb negb nth Pdu.Id Pdu.Sub Pdu.Dlvrd Pdu.SubmitDate
       Pdu.DoneDate Pdu.Stat Pdu.Err_ Pdu.Text].
  change ("id" =? "id")%string with true.
  change ("sub" =? "sub")%string with true.
  change ("dlvrd" =? "dlvrd")%string with true.
  change ("submit date" =? "submit date")%string with true.
  change ("done date" =? "done date")%string with true.
  change ("stat" =? "stat")%string with true.
  change ("err" =? "err")%string with true.
  cbn [negb].
  destruct d1 as [s1 c1 | y1 c1]; cbn [receiptDateText receiptDate_ok] in *.
  - rewrite (parseRecDate_dateText s1 c1 Hok1).
    destruct d2 as [s2 c2 | y2 c2]; cbn [receiptDateText receiptDate_ok] in *.
    + rewrite (parseRecDate_dateText s2 c2 Hok2). reflexivity.
    + destruct Hok2 as [Hy Hok2].
      destruct (parseRecDate_longDateText y2 c2 Hy Hok2) as [e ->]. reflexivity.
  - destruct Hok1 as [Hy Hok1].
    destruct (parseRecDate_longDateText y1 c1 Hy Hok1) as [e ->]. reflexivity.
Qed.

(** A receipt with one date in each of the two short layouts. *)
Definition exReceipt : string :=
  "id:a03ea27b-9bb4-4d5e-b87f-3f578ab46153 sub:001 dlvrd:001 submit date:161003211236 done date:1610032113 stat:DELIVRD err:000 text:-".

Definition exSubmitDate : civil :=
  {| c_yy := 16; c_mo := 10; c_dd := 3; c_hh := 21; c_mi := 12; c_ss := 36 |}.
Definition exDoneDate : civil :=
  {| c_yy := 16; c_mo := 10; c_dd := 3; c_hh := 21; c_mi := 13; c_ss := 0 |}.

Lemma receipt_date_layouts_witness :
  Pdu.textIndex exReceipt = Some 125%nat
  /\ civil_ok exSubmitDate /\ civil_ok exDoneDate
  /\ Pdu.ParseDeliveryReceipt exReceipt
     = Ok {| Pdu.Id := "a03ea27b-9bb4-4d5e-b87f-3f578ab46153"; Pdu.Sub := "001";
             Pdu.Dlvrd := "001";
             Pdu.SubmitDate := Gotime.Date 2016 10 3 21 12 36 0 0;
             Pdu.DoneDate := Gotime.Date 2016 10 3 21 13 0 0 0;
             Pdu.Stat := "DELIVRD"; Pdu.Err_ := "000"; Pdu.Text := "-" |}.
Proof.
  assert (H1 : civil_ok exSubmitDate)
    by (repeat split; vm_compute; (reflexivity || discriminate)).
  assert (H2 : civil_ok exDoneDate)
    by (repeat split; vm_compute; (reflexivity || discriminate)).
  split; [reflexivity|]. split; [exact H1|]. split; [exact H2|].
  apply (receipt_date_layouts exReceipt 125
           "id:a03ea27b-9bb4-4d5e-b87f-3f578ab46153" "sub:001" "dlvrd:001"
           "submit date:161003211236" "done date:1610032113" "stat:DELIVRD" "err:000"
           "a03ea27b-9bb4-4d5e-b87f-3f578ab46153" "001" "001" "DELIVRD" "000"
           (ShortDate true exSubmitDate) (ShortDate false exDoneDate)).
  - reflexivity.
  - vm_compute. reflexivity.
  - exact H1.
  - exact H2.
Defined.

(** The same receipt with its dates written as [YYYYMMDDhhmmss] is
    refused. *)
Lemma receipt_refuses_four_digit_year :
  Pdu.ParseDeliveryReceipt
    "id:a03ea27b-9bb4-4d5e-b87f-3f578ab46153 sub:001 dlvrd:001 submit date:20161003211236 done date:20161003211236 stat:DELIVRD err:000 text:-"
  = Err (errors_New "smpp: invalid receipt format")
  /\ Pdu.parseRecDate "20161003211236"
     = Err (Gotime.parseError "20161003211236" "")
  /\ Pdu.parseRecDate "20061003211236"
     = Err (Gotime.parseError "20061003211236" ": extra text").
Proof. repeat split; vm_compute; reflexivity. Qed.

(** The receipts of the tests of the package. *)
Example receipt_tests :
  Pdu.ParseDeliveryReceipt
    "id:123123123 sub:0 dlvrd:0 submit date:1507011202 done date:1507011101 stat:DELIVRD err:0 text:Test information"
  = Ok {| Pdu.Id := "123123123"; Pdu.Sub := "0"; Pdu.Dlvrd := "0";
          Pdu.SubmitDate := Gotime.Date 2015 7 1 12 2 0 0 0;
          Pdu.DoneDate := Gotime.Date 2015 7 1 11 1 0 0 0;
          Pdu.Stat := "DELIVRD"; Pdu.Err_ := "0"; Pdu.Text := "Test information" |}
  /\ Pdu.ParseDeliveryReceipt
       "id:123123123 dfdfsub:0 dlvrd:0 submit date:1507011202 done date:1507011101 stat:DELIVRD err:0 text:Test information"
     = Err Pdu.invalidReceipt
  /\ Pdu.ParseDeliveryReceipt
       "id:123123123 sub:0 dlvrd:0 submit date:1507011202 stat:DELIVRD err:0 text:Test information"
     = Err Pdu.invalidReceipt
  /\ Pdu.ParseDeliveryReceipt
       "id:123123123 sub:0 dlvrd:0 submit date:150701adsfas1202 done date:1507011101 stat:DELIVRD err:0 text:Test information"
     = Err Pdu.invalidReceipt.
Proof. repeat split; vm_compute; reflexivity. Qed.

(** * Further properties of the code *)

(** ** options.go *)

Section OptionsAccess.
Import Pdu.

Lemma Uint16_PutUint16 (v : Z) : 0 <= v < 65536 -> Uint16 (PutUint16 v) = Return v.
Proof.
  intros Hv. unfold Uint16, PutUint16. f_equal.
  rewrite Z.shiftr_div_pow2 by lia.
  assert (0 <= v mod 256 < 2 ^ 8) by (apply Z.mod_pos_bound; lia).
  rewrite lor_shiftl_add by lia.
  change (2 ^ 8) with 256 in *. Z.div_mod_to_equations. lia.
Qed.

Lemma slice_all_but_last {A} (l : list A) (x : A) :
  slice (l ++ [x]) 0 (len (l ++ [x]) - 1) = l.
Proof.
  rewrite len_app. change (len [x]) with 1.
  replace (len l + 1 - 1) with (len l) by lia. apply slice_prefix.
Qed.

End OptionsAccess.

(** X1. What a typed setter stored is what the getter of the same
    width returns, with the presence flag set: the byte of an [int]
    for [SetSingle], its low sixteen bits for [SetDouble], the string
    itself for [SetString] and for [SetCString] (whose terminating NUL
    is cut off again).  A setter changes no other tag. *)
Theorem Options_set_then_get (o : Pdu.Options) (tag : Z) (val : Z) (s : string) (b : bytes) :
  Pdu.GetSingle (Pdu.SetSingle o tag val) tag = Return (byte val, true)
  /\ Pdu.GetDouble (Pdu.SetDouble o tag val) tag = Return (uint16 val, true)
  /\ Pdu.GetString (Pdu.SetString o tag s) tag = (s, true)
  /\ Pdu.GetCString (Pdu.SetCString o tag s) tag = (s, true)
  /\ Pdu.Get (Pdu.Set_ o tag b) tag = (b, true)
  /\ (forall tag', tag' <> tag ->
        Pdu.Get (Pdu.Set_ o tag b) tag' = Pdu.Get o tag'
        /\ Pdu.GetSingle (Pdu.SetSingle o tag val) tag' = Pdu.GetSingle o tag'
        /\ Pdu.GetDouble (Pdu.SetDouble o tag val) tag' = Pdu.GetDouble o tag'
        /\ Pdu.GetString (Pdu.SetString o tag s) tag' = Pdu.GetString o tag'
        /\ Pdu.GetCString (Pdu.SetCString o tag s) tag' = Pdu.GetCString o tag').
Proof.
  unfold Pdu.GetSingle, Pdu.GetDouble, Pdu.GetString, Pdu.GetCString, Pdu.Get,
    Pdu.SetSingle, Pdu.SetDouble, Pdu.SetString, Pdu.SetCString, Pdu.Set_.
  cbn [Pdu.fields]. rewrite !lookup_insert_eq.
  split; [reflexivity|].
  split.
  { rewrite Uint16_PutUint16; [reflexivity|]. unfold uint16. apply Z.mod_pos_bound. lia. }
  split; [by rewrite string_of_bytes_of_string|].
  split.
  { replace (len (bytes_of_string s ++ [0]) =? 0) with false.
    - by rewrite slice_all_but_last, string_of_bytes_of_string.
    - rewrite len_app. pose proof (len_nonneg (bytes_of_string s)).
      change (len [0]) with 1. lia. }
  split; [reflexivity|].
  intros tag' Hne. by rewrite !lookup_insert_ne.
Qed.

Section OptionsParsing.
Import Pdu.

Lemma PutUint16_uint16be (b0 b1 : Z) :
  is_byte b0 -> is_byte b1 -> PutUint16 (uint16 (uint16be [b0; b1])) = [b0; b1].
Proof.
  unfold is_byte, uint16be, uint16, PutUint16. intros H0 H1. cbn [nth].
  rewrite lor_shiftl_add by lia.
  rewrite Z.shiftr_div_pow2 by lia.
  change (2 ^ 8) with 256. change (2 ^ 16) with 65536.
  f_equal; [|f_equal]; Z.div_mod_to_equations; lia.
Qed.

(** A buffer that the loop reads to its end without an error is a
    sequence of records, the last of which has a value. *)
Lemma unmarshalLoop_sound (fuel : nat) (buf : bytes) (flds flds' : gmap Z bytes) :
  Forall is_byte buf ->
  unmarshalLoop fuel buf 0 flds = Some (flds', None) ->
  exists order,
    buf = MarshalBinary_in order
    /\ flds' = stored flds order
    /\ Forall tlv_ok order
    /\ (forall e, last order = Some e -> e.2 <> []).
Proof.
  revert buf flds. induction fuel as [|fuel IH]; intros buf flds Hbytes Hrun.
  - simpl in Hrun. destruct buf as [|b buf]; [|discriminate Hrun].
    injection Hrun as <-. exists []. repeat split; [constructor | done].
  - cbn [unmarshalLoop] in Hrun.
    destruct buf as [|b0 buf].
    { injection Hrun as <-. exists []. repeat split; [constructor | done]. }
    assert (Hpos : (0 <? len (b0 :: buf)) = true)
      by (apply Z.ltb_lt; unfold len; simpl length; lia).
    rewrite Hpos in Hrun.
    destruct (len (b0 :: buf) - 0 <=? 4) eqn:Hshort; [discriminate Hrun|].
    apply Z.leb_gt in Hshort.
    destruct buf as [|b1 [|b2 [|b3 tl]]]; try (unfold len in Hshort; simpl in Hshort; lia).
    change (slice (b0 :: b1 :: b2 :: b3 :: tl) 0 (0 + 2)) with [b0; b1] in Hrun.
    change (slice (b0 :: b1 :: b2 :: b3 :: tl) (0 + 2) (0 + 4)) with [b2; b3] in Hrun.
    set (tag := uint16be [b0; b1]) in *. set (l := uint16be [b2; b3]) in *.
    destruct (0 + 4 + l >=? len (b0 :: b1 :: b2 :: b3 :: tl) + 1) eqn:Hover;
      [discriminate Hrun|].
    apply Forall_cons in Hbytes as [H0 Hbytes]. apply Forall_cons in Hbytes as [H1 Hbytes].
    apply Forall_cons in Hbytes as [H2 Hbytes]. apply Forall_cons in Hbytes as [H3 Hbytes].
    assert (Htag : 0 <= tag < 65536)
      by (apply uint16be_range; repeat (apply Forall_cons_2; [done|]); constructor).
    assert (Hl : 0 <= l < 65536)
      by (apply uint16be_range; repeat (apply Forall_cons_2; [done|]); constructor).
    assert (Hfit : l <= len tl).
    { rewrite Z.geb_leb in Hover. apply Z.leb_gt in Hover.
      unfold len in *. simpl length in Hover. lia. }
    set (val := take (Z.to_nat l) tl). set (rest := drop (Z.to_nat l) tl).
    assert (Hval : slice (b0 :: b1 :: b2 :: b3 :: tl) (0 + 4) (0 + 4 + l) = val).
    { unfold slice. replace (0 + 4 + l - (0 + 4)) with l by lia. reflexivity. }
    assert (Hlen : len val = l).
    { unfold val, len in *. rewrite length_take. lia. }
    assert (Hbuf : b0 :: b1 :: b2 :: b3 :: tl = marshalTLV tag val ++ rest).
    { unfold marshalTLV. rewrite Hlen. unfold tag, l.
      rewrite !PutUint16_uint16be by done.
      unfold val, rest. cbn [app]. by rewrite take_drop. }
    rewrite Hval in Hrun. rewrite Hbuf in Hrun at 1.
    replace (0 + 4 + l) with (len (marshalTLV tag val) + 0) in Hrun
      by (rewrite len_marshalTLV; lia).
    assert (Hrest : Forall is_byte rest) by (by apply Forall_drop).
    rewrite unmarshalLoop_shift in Hrun by (done || lia).
    destruct (IH rest _ Hrest Hrun) as (order & Eorder & Eflds & Hok & Hlast).
    exists ((tag, val) :: order).
    split; [by rewrite MarshalBinary_in_cons, <- Eorder|].
    split; [exact Eflds|].
    split.
    + constructor; [|done]. repeat split; simpl; try lia. by apply Forall_take.
    + intros e He. destruct order as [|e' order].
      * simpl in He. injection He as <-. simpl. intros Hv.
        change (MarshalBinary_in []) with (@nil Z) in Eorder.
        assert (Htl : tl = val ++ rest) by (symmetry; apply take_drop).
        rewrite Hv, Eorder in Htl.
        assert (len tl = 0) by (rewrite Htl; reflexivity).
        unfold len in *. simpl length in Hshort. lia.
      * apply Hlast. exact He.
Qed.

End OptionsParsing.

(** X2. [Options.UnmarshalBinary] accepts a buffer only if it is a
    sequence of TLV records, the last of them with a value: when it
    returns nil, marshalling the records read, in the order read,
    gives the buffer back, and the fields are those records stored one
    after the other over what the receiver held. *)
Theorem UnmarshalBinary_accepts_records_only (o o' : Pdu.Options) (buf : bytes) :
  Forall is_byte buf ->
  Pdu.Options_UnmarshalBinary o buf = Some (o', None) ->
  exists order,
    Pdu.MarshalBinary_in order = buf
    /\ Pdu.fields o' = stored (Pdu.fields o) order
    /\ Forall tlv_ok order
    /\ (forall e, last order = Some e -> e.2 <> []).
Proof.
  intros Hbytes Hrun. unfold Pdu.Options_UnmarshalBinary in Hrun.
  destruct (Pdu.unmarshalLoop _ _ _ _) as [[flds err]|] eqn:E; [|discriminate Hrun].
  injection Hrun as <- ->.
  destruct (unmarshalLoop_sound _ _ _ _ Hbytes E) as (order & -> & -> & Hok & Hlast).
  by exists order.
Qed.

Lemma UnmarshalBinary_accepts_records_only_witness :
  exists order,
    Pdu.MarshalBinary_in order = [0; 5; 0; 0; 0; 6; 0; 1; 7]
    /\ Pdu.fields exShortOptions = stored (Pdu.fields Pdu.NewOptions) order
    /\ Forall tlv_ok order
    /\ (forall e, last order = Some e -> e.2 <> []).
Proof.
  apply (UnmarshalBinary_accepts_records_only Pdu.NewOptions exShortOptions
           [0; 5; 0; 0; 0; 6; 0; 1; 7]).
  - unfold is_byte. repeat constructor; lia.
  - reflexivity.
Defined.

(** X3. The round trip of the options, for any order in which the map
    is ranged over.  For a map whose tags fit sixteen bits and whose
    values are at most 65535 bytes long, [UnmarshalBinary] of what
    [MarshalBinary] wrote gives the map back exactly when the entry
    written last has a value (or the map is empty). *)
Theorem Options_roundtrip_iff (m : gmap Z bytes) (order : list (Z * bytes)) :
  Pdu.range_order {| Pdu.fields := m |} order ->
  map_Forall (fun tag val => tlv_ok (tag, val)) m ->
  Pdu.Options_UnmarshalBinary Pdu.NewOptions (Pdu.MarshalBinary_in order)
  = Some ({| Pdu.fields := m |}, None)
  <-> (forall e, last order = Some e -> e.2 <> []).
Proof.
  intros Horder Hm. pose proof (Options_roundtrip m order Horder Hm) as H.
  destruct (last order) as [[tag val]|] eqn:Hlast.
  - destruct (decide (val = [])) as [->|Hne].
    + destruct H as (flds & -> & _). split; [discriminate|].
      intros Hl. by destruct (Hl (tag, []) eq_refl).
    + split; [|done]. intros _ e He. by injection He as <-.
  - split; [|done]. intros _ e He. discriminate He.
Qed.

Lemma Options_roundtrip_iff_witness :
  Pdu.Options_UnmarshalBinary Pdu.NewOptions (Pdu.MarshalBinary_in [(5, [1; 2])])
  = Some ({| Pdu.fields := {[ 5 := [1; 2] ]} |}, None)
  <-> (forall e, last [(5, [1; 2])] = Some e -> e.2 <> []).
Proof.
  apply (Options_roundtrip_iff {[ 5 := [1; 2] ]} [(5, [1; 2])]).
  - unfold Pdu.range_order. cbn [Pdu.fields]. by rewrite map_to_list_singleton.
  - apply map_Forall_singleton. unfold tlv_ok, is_byte, len. cbn.
    repeat split; try lia. repeat constructor; lia.
Defined.

(** ** pdu.go: bytes of flags, sequence numbers, command ids *)

Section ByteChecks.

(** A boolean test that holds for the first [N] numbers holds below [N]. *)
Lemma check_below (N : nat) (f : Z -> bool) :
  forallb f (map Z.of_nat (seq 0 N)) = true ->
  forall b, 0 <= b < Z.of_nat N -> f b = true.
Proof.
  intros Hall b Hb. rewrite forallb_forall in Hall. apply Hall.
  apply in_map_iff. exists (Z.to_nat b). split; [lia|]. apply in_seq. lia.
Qed.

End ByteChecks.

Section FlagBytes.
Import Pdu.

Lemma EsmClass_Byte_Parse (b : Z) : 0 <= b < 256 -> EsmClass_Byte (ParseEsmClass b) = b.
Proof.
  intros Hb. apply Z.eqb_eq.
  apply (check_below 256 (fun b => EsmClass_Byte (ParseEsmClass b) =? b));
    [vm_compute; reflexivity | exact Hb].
Qed.

Lemma ParseEsmClass_Byte (mode type feature : Z) :
  0 <= mode < 4 -> 0 <= type < 16 -> 0 <= feature < 4 ->
  ParseEsmClass (EsmClass_Byte {| Mode := mode; Type_ := type; Feature := feature |})
  = {| Mode := mode; Type_ := type; Feature := feature |}.
Proof.
  intros Hm Ht Hf.
  set (ok := fun n =>
    let m := n mod 4 in let t := n / 4 mod 16 in let f := n / 64 in
    let ec := ParseEsmClass (EsmClass_Byte {| Mode := m; Type_ := t; Feature := f |}) in
    (Mode ec =? m) && (Type_ ec =? t) && (Feature ec =? f)).
  assert (Hok : ok (mode + 4 * type + 64 * feature) = true).
  { apply (check_below 256 ok); [vm_compute; reflexivity | lia]. }
  unfold ok in Hok. cbv zeta in Hok.
  replace ((mode + 4 * type + 64 * feature) mod 4) with mode in Hok
    by (Z.div_mod_to_equations; lia).
  replace ((mode + 4 * type + 64 * feature) / 4 mod 16) with type in Hok
    by (Z.div_mod_to_equations; lia).
  replace ((mode + 4 * type + 64 * feature) / 64) with feature in Hok
    by (Z.div_mod_to_equations; lia).
  apply andb_prop in Hok as [Hok Hfe]. apply andb_prop in Hok as [Hmo Hty].
  apply Z.eqb_eq in Hmo, Hty, Hfe.
  destruct (ParseEsmClass _) as [m t f]. simpl in Hmo, Hty, Hfe. by subst.
Qed.

Lemma RegisteredDelivery_Byte_Parse (b : Z) :
  0 <= b < 256 -> RegisteredDelivery_Byte (ParseRegisteredDelivery b) = Z.land b 0x3F.
Proof.
  intros Hb. apply Z.eqb_eq.
  apply (check_below 256
           (fun b => RegisteredDelivery_Byte (ParseRegisteredDelivery b) =? Z.land b 0x3F));
    [vm_compute; reflexivity | exact Hb].
Qed.

Lemma ParseRegisteredDelivery_Byte (receipt ack inter : Z) :
  0 <= receipt < 4 -> 0 <= ack < 4 -> 0 <= inter < 2 ->
  ParseRegisteredDelivery
    (RegisteredDelivery_Byte
       {| Receipt := receipt; SMEAck := ack; InterNotification := inter |})
  = {| Receipt := receipt; SMEAck := ack + 4 * inter; InterNotification := inter |}.
Proof.
  intros Hr Ha Hi.
  set (ok := fun n =>
    let r := n mod 4 in let a := n / 4 mod 4 in let i := n / 16 in
    let rd := ParseRegisteredDelivery
                (RegisteredDelivery_Byte
                   {| Receipt := r; SMEAck := a; InterNotification := i |}) in
    (Receipt rd =? r) && (SMEAck rd =? a + 4 * i) && (InterNotification rd =? i)).
  assert (Hok : ok (receipt + 4 * ack + 16 * inter) = true).
  { apply (check_below 32 ok); [vm_compute; reflexivity | lia]. }
  unfold ok in Hok. cbv zeta in Hok.
  replace ((receipt + 4 * ack + 16 * inter) mod 4) with receipt in Hok
    by (Z.div_mod_to_equations; lia).
  replace ((receipt + 4 * ack + 16 * inter) / 4 mod 4) with ack in Hok
    by (Z.div_mod_to_equations; lia).
  replace ((receipt + 4 * ack + 16 * inter) / 16) with inter in Hok
    by (Z.div_mod_to_equations; lia).
  apply andb_prop in Hok as [Hok Hin]. apply andb_prop in Hok as [Hre Hac].
  apply Z.eqb_eq in Hre, Hac, Hin.
  destruct (ParseRegisteredDelivery _) as [r a i]. simpl in Hre, Hac, Hin. by subst.
Qed.

End FlagBytes.

(** X4. The byte of an [EsmClass] holds the mode in bits 0-1, the type
    in bits 2-5 and the feature in bits 6-7: every byte is the byte of
    the class parsed from it, and a class whose fields fit these widths
    is parsed back from its byte.  The mode [NotApplicableEsmMode]
    (7) does not fit: it comes back as mode 3 with bit 0 of the type
    set. *)
Theorem EsmClass_byte_roundtrip :
  (forall b, 0 <= b < 256 -> Pdu.EsmClass_Byte (Pdu.ParseEsmClass b) = b)
  /\ (forall mode type feature,
        0 <= mode < 4 -> 0 <= type < 16 -> 0 <= feature < 4 ->
        Pdu.ParseEsmClass
          (Pdu.EsmClass_Byte {| Pdu.Mode := mode; Pdu.Type_ := type; Pdu.Feature := feature |})
        = {| Pdu.Mode := mode; Pdu.Type_ := type; Pdu.Feature := feature |})
  /\ Pdu.ParseEsmClass (Pdu.EsmClass_Byte {| Pdu.Mode := 7; Pdu.Type_ := 0; Pdu.Feature := 0 |})
     = {| Pdu.Mode := 3; Pdu.Type_ := 1; Pdu.Feature := 0 |}.
Proof.
  split; [exact EsmClass_Byte_Parse|]. split; [exact ParseEsmClass_Byte | reflexivity].
Qed.

(** X5. The byte of a [RegisteredDelivery] holds the receipt in bits
    0-1, the SME acknowledgement from bit 2 and the intermediate
    notification in bit 4, but [ParseRegisteredDelivery] reads the
    acknowledgement with a mask of four bits, which takes in bit 4:
    the byte of what was parsed is the low six bits of the byte, and a
    value with the intermediate notification set comes back with 4
    added to its acknowledgement.  Without that flag the round trip is
    exact. *)
Theorem RegisteredDelivery_byte_roundtrip :
  (forall b, 0 <= b < 256 ->
     Pdu.RegisteredDelivery_Byte (Pdu.ParseRegisteredDelivery b) = Z.land b 0x3F)
  /\ (forall receipt ack inter,
        0 <= receipt < 4 -> 0 <= ack < 4 -> 0 <= inter < 2 ->
        Pdu.ParseRegisteredDelivery
          (Pdu.RegisteredDelivery_Byte
             {| Pdu.Receipt := receipt; Pdu.SMEAck := ack; Pdu.InterNotification := inter |})
        = {| Pdu.Receipt := receipt; Pdu.SMEAck := ack + 4 * inter;
             Pdu.InterNotification := inter |}).
Proof.
  split; [exact RegisteredDelivery_Byte_Parse | exact ParseRegisteredDelivery_Byte].
Qed.

(** X6. The numbers of the default sequencer.  Started at [n] (at 1
    when [n] is 0), it returns [n], [n + 1], ... and wraps from
    [2^32 - 1] to 0: call number [k] returns [(n + k) mod 2^32].  Any
    two of [2^32] calls in a row return different numbers. *)
Theorem default_sequencer_numbers (n : Z) (j k : nat) :
  0 <= n < 2 ^ 32 ->
  let start := if n =? 0 then 1 else n in
  Pdu.nthNext k (Pdu.NewSequencer n) = (start + Z.of_nat k) mod 2 ^ 32
  /\ ((j < k)%nat -> Z.of_nat k - Z.of_nat j < 2 ^ 32 ->
      Pdu.nthNext j (Pdu.NewSequencer n) <> Pdu.nthNext k (Pdu.NewSequencer n)).
Proof.
  intros Hn start.
  assert (Hstart : 0 <= start < 2 ^ 32) by (unfold start; destruct (n =? 0); lia).
  assert (Hnth : forall i, Pdu.nthNext i (Pdu.NewSequencer n) = (start + Z.of_nat i) mod 2 ^ 32).
  { intros i. unfold Pdu.nthNext, Pdu.NewSequencer. fold start.
    rewrite afterCalls_default by exact Hstart. reflexivity. }
  split; [apply Hnth|].
  intros Hjk Hdist. rewrite !Hnth. intros Heq.
  change (2 ^ 32) with 4294967296 in *. Z.div_mod_to_equations. lia.
Qed.

Lemma default_sequencer_numbers_witness :
  Pdu.nthNext 5 (Pdu.NewSequencer 0xFFFFFFFE) = 3
  /\ Pdu.nthNext 2 (Pdu.NewSequencer 0xFFFFFFFE) <> Pdu.nthNext 5 (Pdu.NewSequencer 0xFFFFFFFE).
Proof.
  pose proof (default_sequencer_numbers 0xFFFFFFFE 2 5) as H.
  cbv zeta in H. destruct H as [H1 H2]; [lia|].
  split; [exact H1 | apply H2; lia].
Defined.


(** X8. [SeparateUDH] splits a message at its user data header: the
    first byte is the length of the header that follows it.  On
    success the two parts put together are the input and the header is
    that length byte with as many bytes after it; the call fails, with
    the input handed back as content, exactly when the input is empty
    or the length byte promises more than there is. *)
Theorem SeparateUDH_splits (c : bytes) :
  Forall is_byte c ->
  match Pdu.SeparateUDH c with
  | (udh, content, None) =>
      c = udh ++ content
      /\ exists l hd, udh = l :: hd /\ len hd = l
  | (udh, content, Some _) =>
      udh = [] /\ content = c
      /\ (c = [] \/ exists l tl, c = l :: tl /\ len tl < l)
  end.
Proof.
  intros Hbytes. unfold Pdu.SeparateUDH. destruct c as [|l tl].
  - repeat split. by left.
  - apply Forall_cons in Hbytes as [Hl _]. unfold is_byte in Hl.
    assert (Hlen : len (l :: tl) = 1 + len tl) by (unfold len; simpl length; lia).
    destruct (l >=? len (l :: tl)) eqn:Hge.
    + rewrite Z.geb_leb in Hge. apply Z.leb_le in Hge.
      repeat split. right. exists l, tl. split; [done | lia].
    + rewrite Z.geb_leb in Hge. apply Z.leb_gt in Hge.
      unfold slice. rewrite Z.sub_0_r. change (Z.to_nat 0) with 0%nat. rewrite drop_0.
      replace (Z.to_nat (len (l :: tl) - (l + 1))) with (length (drop (Z.to_nat (l + 1)) (l :: tl))).
      2:{ rewrite length_drop. unfold len in *. lia. }
      rewrite firstn_all. split; [by rewrite take_drop|].
      replace (Z.to_nat (l + 1)) with (S (Z.to_nat l)) by lia. cbn [take].
      exists l, (take (Z.to_nat l) tl). split; [done|].
      unfold len in *. rewrite length_take. lia.
Qed.

Lemma SeparateUDH_splits_witness :
  [5; 0; 3; 2; 1; 0; 104; 105] = [5; 0; 3; 2; 1; 0] ++ [104; 105]
  /\ exists l hd, [5; 0; 3; 2; 1; 0] = l :: hd /\ len hd = l.
Proof.
  apply (SeparateUDH_splits [5; 0; 3; 2; 1; 0; 104; 105]).
  unfold is_byte. repeat constructor; lia.
Defined.

(** ** pdu.go: the reader of the body codecs *)

Section ReaderFacts.
Import Pdu.

(** A character of a C string: any byte but NUL. *)
Definition no_nul (s : bytes) : Prop := Forall (fun b => b <> 0) s.

Lemma readCString_app (limit i : Z) (out s rest : bytes) :
  no_nul s -> i + len s < limit ->
  readCString limit i out (s ++ 0 :: rest) = (rest, Ok (out ++ s)).
Proof.
  intros Hs. revert i out. induction Hs as [|b s Hb Hs IH]; intros i out Hlim.
  - simpl. by rewrite app_nil_r.
  - assert (Hlen : len (b :: s) = 1 + len s) by (unfold len; simpl length; lia).
    pose proof (len_nonneg s).
    cbn [app readCString]. destruct (Z.eqb_spec b 0); [done|].
    destruct (Z.eqb_spec (i + 1) limit); [lia|].
    rewrite IH by lia. by rewrite <- app_assoc.
Qed.

Lemma readCString_too_long (limit i : Z) (out s tl : bytes) :
  no_nul s -> 0 <= i < limit -> limit <= i + len s ->
  exists rest, readCString limit i out (s ++ tl)
               = (rest, Err (errors_New "invalid c string length")).
Proof.
  intros Hs. revert i out. induction Hs as [|b s Hb Hs IH]; intros i out Hi Hlim.
  - unfold len in Hlim. simpl in Hlim. lia.
  - assert (Hlen : len (b :: s) = 1 + len s) by (unfold len; simpl length; lia).
    pose proof (len_nonneg s).
    cbn [app readCString]. destruct (Z.eqb_spec b 0); [done|].
    destruct (Z.eqb_spec (i + 1) limit); [by eexists|].
    apply IH; lia.
Qed.

Lemma readCString_unterminated (limit i : Z) (out s : bytes) :
  no_nul s -> i + len s < limit ->
  readCString limit i out s = ([], Err io_EOF).
Proof.
  intros Hs. revert i out. induction Hs as [|b s Hb Hs IH]; intros i out Hlim.
  - reflexivity.
  - assert (Hlen : len (b :: s) = 1 + len s) by (unfold len; simpl length; lia).
    pose proof (len_nonneg s).
    cbn [readCString]. destruct (Z.eqb_spec b 0); [done|].
    destruct (Z.eqb_spec (i + 1) limit); [lia|].
    apply IH. lia.
Qed.

(** The steps of an [UnmarshalBinary] that succeed. *)
Lemma step_ReadCString {P B} (format : string) (limit : Z) (s rest : bytes) (p : P)
    (k : bytes -> Reader P B) :
  no_nul s -> len s < limit ->
  bind (orFail format (ReadCString limit)) k (s ++ 0 :: rest, p) = k s (rest, p).
Proof.
  intros Hs Hlim. unfold bind, orFail, ReadCString.
  by rewrite readCString_app by (done || lia).
Qed.

Lemma step_ReadByte {P B} (format : string) (b : Z) (rest : bytes) (p : P)
    (k : Z -> Reader P B) :
  bind (orFail format ReadByte) k (b :: rest, p) = k b (rest, p).
Proof. reflexivity. Qed.

Lemma step_assign {P B} (f : P -> P) (buf : bytes) (p : P) (k : unit -> Reader P B) :
  bind (assign f) k (buf, p) = k tt (buf, f p).
Proof. reflexivity. Qed.

Lemma step_liftResult {P A B} (format : string) (a : A) (st : bytes * P)
    (k : A -> Reader P B) :
  bind (orFail format (liftResult (Ok a))) k st = k a st.
Proof. reflexivity. Qed.

Lemma step_ReadString {P B} (format : string) (limit : Z) (s rest : bytes) (p : P)
    (k : bytes -> Reader P B) :
  len s <= limit ->
  bind (orFail format (ReadString limit)) k (len s :: s ++ rest, p) = k s (rest, p).
Proof.
  intros Hlim. unfold bind, orFail, ReadString.
  replace (limit <? len s) with false by lia.
  assert (Hempty : (len (s ++ rest) =? 0) && negb (len s =? 0) = false).
  { rewrite len_app. pose proof (len_nonneg s). pose proof (len_nonneg rest).
    destruct (Z.eqb_spec (len s) 0); [by rewrite andb_false_r|].
    replace (len s + len rest =? 0) with false by lia. done. }
  rewrite Hempty.
  assert (Hn : Z.to_nat (len s) = length s) by (unfold len; lia).
  rewrite !Hn, take_app_length, drop_app_length.
  by rewrite Z.eqb_refl.
Qed.

End ReaderFacts.

(** X9. [ReadCString(limit)] reads up to and including the first NUL
    and counts the NUL within the limit: a string of fewer than
    [limit] bytes before its NUL is returned and the bytes after the
    NUL are left unread; with [limit] or more bytes before any NUL the
    call fails with the length error; and when the input ends before
    a NUL and before the limit it fails with [io.EOF]. *)
Theorem ReadCString_limit {P : Type} (limit : Z) (s rest : bytes) (p : P) :
  no_nul s -> 0 < limit ->
  (len s < limit ->
     Pdu.ReadCString limit (s ++ 0 :: rest, p) = ((rest, p), Ok s)
     /\ Pdu.ReadCString limit (s, p) = (([], p), Err io_EOF))
  /\ (limit <= len s ->
      exists left,
        Pdu.ReadCString limit (s ++ rest, p)
        = ((left, p), Err (errors_New "invalid c string length"))).
Proof.
  intros Hs Hlimit. unfold Pdu.ReadCString. split.
  - intros Hlen. rewrite readCString_app, readCString_unterminated by (done || lia).
    done.
  - intros Hlen.
    destruct (readCString_too_long limit 0 [] s rest Hs) as [left E]; [lia | lia |].
    exists left. by rewrite E.
Qed.

Lemma ReadCString_limit_witness :
  (len (bytes_of_string "test") < 16 ->
     Pdu.ReadCString 16 (bytes_of_string "test" ++ 0 :: [1; 2], tt) = (([1; 2], tt), Ok (bytes_of_string "test"))
     /\ Pdu.ReadCString 16 (bytes_of_string "test", tt) = (([], tt), Err io_EOF))
  /\ (16 <= len (bytes_of_string "test") ->
      exists left,
        Pdu.ReadCString 16 (bytes_of_string "test" ++ [1; 2], tt)
        = ((left, tt), Err (errors_New "invalid c string length"))).
Proof.
  apply (ReadCString_limit 16 (bytes_of_string "test") [1; 2] tt).
  - repeat constructor; discriminate.
  - lia.
Defined.

(** ** The bind family and query_sm *)

(** A string that fits a C string field read with [ReadCString(limit)]:
    no NUL byte, and fewer than [limit] bytes. *)
Definition cstring (limit : Z) (s : string) : Prop :=
  no_nul (bytes_of_string s) /\ len (bytes_of_string s) < limit.

Definition bind_fits (p : Pdu.BindTRx) : Prop :=
  cstring 16 (Pdu.bind_SystemID p) /\ cstring 9 (Pdu.bind_Password p)
  /\ cstring 13 (Pdu.bind_SystemType p) /\ cstring 41 (Pdu.bind_AddressRange p)
  /\ is_byte (Pdu.bind_InterfaceVersion p) /\ is_byte (Pdu.bind_AddrTon p)
  /\ is_byte (Pdu.bind_AddrNpi p).

Section BindFacts.
Import Pdu.

Lemma byte_small (b : Z) : is_byte b -> byte b = b.
Proof. unfold is_byte, byte. intros Hb. apply Z.mod_small. change (2 ^ 8) with 256. lia. Qed.

Lemma unmarshalBind_marshalBind (p q : BindTRx) :
  bind_fits p ->
  unmarshalBind q (marshalBind (bind_SystemID p) (bind_Password p) (bind_SystemType p)
                               (bind_InterfaceVersion p) (bind_AddrTon p) (bind_AddrNpi p)
                               (bind_AddressRange p))
  = (p, None).
Proof.
  intros ([Hsid Lsid] & [Hpw Lpw] & [Hst Lst] & [Har Lar] & Hiv & Hton & Hnpi).
  unfold unmarshalBind, marshalBind. rewrite !byte_small by done.
  rewrite <- !app_assoc. cbn [app].
  match goal with |- context [len ?b <? 7] => replace (len b <? 7) with false end.
  2:{ symmetry. apply Z.ltb_ge. unfold len.
      repeat (rewrite length_app; cbn [length]). lia. }
  unfold runReader.
  rewrite step_ReadCString, step_assign by done.
  rewrite step_ReadCString, step_assign by done.
  rewrite step_ReadCString, step_assign by done.
  rewrite step_ReadByte, step_assign.
  rewrite step_ReadByte, step_assign.
  rewrite step_ReadByte, step_assign.
  rewrite step_ReadCString by done.
  cbn. rewrite !string_of_bytes_of_string. by destruct p.
Qed.

End BindFacts.

(** ** The decoder behind the encoder *)

Section DecodeFacts.
Import Pdu.

Lemma NewPDU_range (now : Gotime.Time) (c : Z) (pdu : anyPDU) :
  NewPDU now c = Return pdu -> 0 <= c < 2 ^ 32.
Proof.
  unfold NewPDU.
  repeat match goal with
         | |- context [if c =? ?k then _ else _] =>
             destruct (Z.eqb_spec c k) as [->|?]; [intros _; vm_compute; split; congruence|]
         end.
  discriminate.
Qed.

(** A frame with a body: the body is read and handed to the
    [UnmarshalBinary] of the PDU that [NewPDU] made. *)
Lemma Decode_with_body (now : Gotime.Time) (c st sq : Z) (pdu : anyPDU) (body rest : bytes) :
  0 <= st < 2 ^ 32 -> 0 <= sq < 2 ^ 32 ->
  NewPDU now c = Return pdu ->
  body <> [] -> len body + 16 <= MaxPDUSize ->
  Decode now (frame (len body + 16) c st sq body ++ rest)
  = match UnmarshalBinary (PDU := any_PDU pdu) (any_value pdu) body with
    | None => None
    | Some (p, err) =>
        Some (Return (rest,
                      (Some {| h_length := len body + 16; h_commandID := c; h_status := st;
                               h_sequence := sq |},
                       Some (Any (any_PDU pdu) p), err)))
    end.
Proof.
  unfold MaxPDUSize. intros Hst Hsq Hnew Hbody Hmax.
  pose proof (NewPDU_range _ _ _ Hnew) as Hc.
  assert (Hpos : 0 < len body) by (destruct body; [done | unfold len; simpl length; lia]).
  unfold Decode, ReadFull, frame.
  rewrite !uint32_small by lia.
  set (hd := PutUint32 (len body + 16) ++ PutUint32 c ++ PutUint32 st ++ PutUint32 sq).
  replace (PutUint32 (len body + 16) ++ PutUint32 c ++ PutUint32 st ++ PutUint32 sq ++ body)
    with (hd ++ body) by (unfold hd; by rewrite <- !app_assoc).
  rewrite <- app_assoc.
  assert (Hlen : len (hd ++ body ++ rest) = 16 + len (body ++ rest)).
  { unfold len. rewrite length_app. change (length hd) with 16%nat. lia. }
  rewrite Hlen. pose proof (len_nonneg (body ++ rest)) as Hnn.
  change (16 <=? 0) with false. cbv iota.
  replace (16 + len (body ++ rest) =? 0) with false by lia.
  replace (16 + len (body ++ rest) <? 16) with false by lia.
  change (Z.to_nat 16) with (length hd).
  rewrite take_app_length, drop_app_length.
  unfold hd. rewrite header_UnmarshalBinary_words by (unfold MaxPDUSize; lia).
  cbn [h_length h_commandID].
  replace (len body + 16 <? 16) with false by lia.
  rewrite Hnew.
  replace (len body + 16 =? 16) with false by lia.
  replace (len body + 16 - 16) with (len body) by lia.
  replace (len body <=? 0) with false by lia.
  rewrite len_app. pose proof (len_nonneg rest).
  replace (len body + len rest =? 0) with false by lia.
  replace (len body + len rest <? len body) with false by lia.
  assert (Hn : Z.to_nat (len body) = length body) by (unfold len; lia).
  rewrite Hn, take_app_length, drop_app_length.
  reflexivity.
Qed.

End DecodeFacts.

(** X10. What [Encode] writes, [Decode] reads.  When the body that
    [MarshalBinary] returns fits the maximum and the command id is one
    that [NewPDU] knows, decoding the bytes that [Encode] wrote to an
    empty buffer consumes them all and returns the header that
    [Encode] composed (length, command id, status and the sequence
    number [Encode] returned); the PDU is the zero value when there is
    no body, and otherwise what [UnmarshalBinary] makes of the body,
    together with its error. *)
Theorem Decode_reads_what_Encode_wrote {S P : Type} {HS : Pdu.Sequencer S} {HP : Pdu.PDU P}
    (now : Gotime.Time) (seqr : S) (p : P) (opts : list Pdu.EncoderOption)
    (body : bytes) (pdu : Pdu.anyPDU) :
  let en := {| Pdu.enc_w := {| buf_bytes := []; buf_closed := false |};
               Pdu.enc_seq := seqr |} in
  let written := Pdu.Encode en p opts in
  let eOpts := fold_left (fun e (o : Pdu.EncoderOption) => o e) opts
                         {| Pdu.eo_seq := 0; Pdu.eo_status := 0 |} in
  let h := {| Pdu.h_length := len body + 16; Pdu.h_commandID := Pdu.CommandID p;
              Pdu.h_status := Pdu.eo_status eOpts; Pdu.h_sequence := fst (snd written) |} in
  Pdu.MarshalBinary p = Ok body ->
  len body + 16 <= Pdu.MaxPDUSize ->
  Pdu.NewPDU now (Pdu.CommandID p) = Return pdu ->
  0 <= Pdu.eo_status eOpts < 2 ^ 32 ->
  0 <= fst (snd written) < 2 ^ 32 ->
  snd (snd written) = None
  /\ Pdu.Decode now (buf_bytes (Pdu.enc_w (fst written)))
     = match body with
       | [] => Some (Return ([], (Some h, Some pdu, None)))
       | _ :: _ =>
           match Pdu.UnmarshalBinary (PDU := Pdu.any_PDU pdu) (Pdu.any_value pdu) body with
           | None => None
           | Some (p', err) =>
               Some (Return ([], (Some h, Some (Pdu.Any (Pdu.any_PDU pdu) p'), err)))
           end
       end.
Proof.
  intros en written eOpts h Hbody Hmax Hnew Hst Hsq.
  pose proof (NewPDU_range _ _ _ Hnew) as Hc.
  subst h written. unfold Pdu.Encode in *. rewrite Hbody in *. cbv zeta in *.
  fold eOpts in Hsq |- *.
  destruct (if Pdu.eo_seq eOpts =? 0 then _ else _) as [seq sq] eqn:Enext.
  cbn -[Pdu.Decode Pdu.frame] in Hsq |- *. split; [reflexivity|].
  rewrite <- (app_nil_r (Pdu.frame _ _ _ _ _)).
  destruct body as [|b body].
  - change (len [] + 16) with 16. by apply Decode_without_body.
  - by apply Decode_with_body.
Qed.

Lemma Decode_reads_what_Encode_wrote_witness :
  Pdu.Decode exNow
    (buf_bytes (Pdu.enc_w (fst (Pdu.Encode (HP := Pdu.SubmitSm_PDU exNow) exEncoder exSubmitSm []))))
  = Some (Return ([], (Some {| Pdu.h_length := 45; Pdu.h_commandID := Pdu.SubmitSmID;
                                Pdu.h_status := 0; Pdu.h_sequence := 1 |},
                       Some (Pdu.Any (Pdu.SubmitSm_PDU exNow) exSubmitSm), None))).
Proof.
  pose proof (Decode_reads_what_Encode_wrote (HP := Pdu.SubmitSm_PDU exNow) exNow
                (Pdu.NewSequencer 1) exSubmitSm [] submitBody
                (Pdu.Any (Pdu.SubmitSm_PDU exNow) Pdu.zeroSubmitSm)) as H.
  cbv zeta in H.
  destruct H as [_ H]; [reflexivity | vm_compute; congruence | reflexivity
                       | vm_compute; split; congruence | vm_compute; split; congruence |].
  exact H.
Defined.

(** X11. The round trip of a bind request.  When the four strings
    hold no NUL byte and are shorter than their fields (16, 9, 13 and
    41 bytes with the NUL) and the three numbers are bytes,
    [UnmarshalBinary] reads back from the body that [MarshalBinary]
    wrote exactly the request, whatever the receiver held before; this
    is so for [BindTRx], [BindTx] and [BindRx] alike. *)
Theorem bind_roundtrip (p q : Pdu.BindTRx) :
  bind_fits p ->
  exists body,
    Pdu.MarshalBinary p = Ok body
    /\ Pdu.MarshalBinary (Pdu.mkBindTx p) = Ok body
    /\ Pdu.MarshalBinary (Pdu.mkBindRx p) = Ok body
    /\ Pdu.UnmarshalBinary q body = Some (p, None)
    /\ Pdu.UnmarshalBinary (Pdu.mkBindTx q) body = Some (Pdu.mkBindTx p, None)
    /\ Pdu.UnmarshalBinary (Pdu.mkBindRx q) body = Some (Pdu.mkBindRx p, None).
Proof.
  intros Hfits. eexists. split; [reflexivity|]. split; [reflexivity|]. split; [reflexivity|].
  cbn [Pdu.UnmarshalBinary Pdu.BindTRx_PDU Pdu.BindTx_PDU Pdu.BindRx_PDU].
  rewrite unmarshalBind_marshalBind by exact Hfits. done.
Qed.

Lemma exBindTRx_fits : bind_fits exBindTRx.
Proof.
  unfold bind_fits, cstring, no_nul, is_byte. cbn.
  repeat split; try lia; repeat constructor; discriminate.
Defined.

Lemma bind_roundtrip_witness :
  exists body,
    Pdu.MarshalBinary exBindTRx = Ok body
    /\ Pdu.MarshalBinary (Pdu.mkBindTx exBindTRx) = Ok body
    /\ Pdu.MarshalBinary (Pdu.mkBindRx exBindTRx) = Ok body
    /\ Pdu.UnmarshalBinary Pdu.zeroBind body = Some (exBindTRx, None)
    /\ Pdu.UnmarshalBinary (Pdu.mkBindTx Pdu.zeroBind) body = Some (Pdu.mkBindTx exBindTRx, None)
    /\ Pdu.UnmarshalBinary (Pdu.mkBindRx Pdu.zeroBind) body = Some (Pdu.mkBindRx exBindTRx, None).
Proof. exact (bind_roundtrip exBindTRx Pdu.zeroBind exBindTRx_fits). Defined.

Section QueryFacts.
Import Pdu.

Definition query_fits (p : QuerySm) : Prop :=
  cstring 65 (q_MessageID p) /\ cstring 21 (q_SourceAddr p)
  /\ is_byte (q_SourceAddrTon p) /\ is_byte (q_SourceAddrNpi p).

(** The number of bytes of the two strings of a [query_sm]. *)
Definition query_text (p : QuerySm) : Z :=
  len (bytes_of_string (q_MessageID p)) + len (bytes_of_string (q_SourceAddr p)).

End QueryFacts.

(** X12. The round trip of [query_sm], and where it stops.  For a
    request whose strings and numbers fit their fields, the body has
    four bytes more than the two strings; [UnmarshalBinary] reads the
    request back from it when the strings have two bytes or more
    between them, and refuses the body as too short (it asks for six
    bytes) when they have fewer, leaving the receiver as it was. *)
Theorem query_sm_roundtrip (p q : Pdu.QuerySm) :
  query_fits p ->
  exists body,
    Pdu.MarshalBinary p = Ok body
    /\ len body = query_text p + 4
    /\ Pdu.UnmarshalBinary q body
       = if query_text p <? 2
         then Some (q, Some (fmt_Errorf "smpp/pdu: query_sm body too short: %d"
                                        [ArgInt (len body)]))
         else Some (p, None).
Proof.
  intros ([Hmid Lmid] & [Hsa Lsa] & Hton & Hnpi).
  eexists. split; [reflexivity|].
  cbn [Pdu.UnmarshalBinary Pdu.QuerySm_PDU]. unfold Pdu.QuerySm_UnmarshalBinary, query_text.
  rewrite !byte_small by done. rewrite <- !app_assoc. cbn [app].
  set (body := bytes_of_string (Pdu.q_MessageID p) ++ _).
  assert (Hlen : len body = len (bytes_of_string (Pdu.q_MessageID p))
                           + len (bytes_of_string (Pdu.q_SourceAddr p)) + 4).
  { unfold body, len. repeat (rewrite length_app; cbn [length]). lia. }
  split; [exact Hlen|]. rewrite Hlen.
  match goal with
  | |- context [?a + 4 <? 6] => destruct (Z.ltb_spec (a + 4) 6) as [Hs|Hs];
      [replace (a <? 2) with true by lia | replace (a <? 2) with false by lia]
  end; [reflexivity|].
  unfold body, Pdu.runReader.
  rewrite step_ReadCString, step_assign by done.
  rewrite step_ReadByte, step_assign.
  rewrite step_ReadByte, step_assign.
  rewrite step_ReadCString by done.
  cbn. rewrite !string_of_bytes_of_string. by destruct p.
Qed.

Lemma query_sm_roundtrip_witness :
  exists body,
    Pdu.MarshalBinary {| Pdu.q_MessageID := "test"; Pdu.q_SourceAddrTon := 1;
                         Pdu.q_SourceAddrNpi := 1; Pdu.q_SourceAddr := "asdf" |} = Ok body
    /\ len body = 8 + 4
    /\ Pdu.UnmarshalBinary {| Pdu.q_MessageID := ""; Pdu.q_SourceAddrTon := 0;
                              Pdu.q_SourceAddrNpi := 0; Pdu.q_SourceAddr := "" |} body
       = Some ({| Pdu.q_MessageID := "test"; Pdu.q_SourceAddrTon := 1;
                  Pdu.q_SourceAddrNpi := 1; Pdu.q_SourceAddr := "asdf" |}, None).
Proof.
  apply (query_sm_roundtrip
           {| Pdu.q_MessageID := "test"; Pdu.q_SourceAddrTon := 1;
              Pdu.q_SourceAddrNpi := 1; Pdu.q_SourceAddr := "asdf" |}
           {| Pdu.q_MessageID := ""; Pdu.q_SourceAddrTon := 0;
              Pdu.q_SourceAddrNpi := 0; Pdu.q_SourceAddr := "" |}).
  unfold query_fits, cstring, no_nul, is_byte. cbn.
  repeat split; try lia; repeat constructor; discriminate.
Defined.

(** ** submit_sm and deliver_sm *)

Section SubmitFacts.
Import Pdu.

(** A message that uses neither a schedule, nor a validity period, nor
    options, and whose fields fit the wire format: C strings shorter
    than their fields, numbers that are bytes, flags within their
    bits (no intermediate notification, see
    [ParseRegisteredDelivery_Byte]), at most 254 bytes of text. *)
Definition submit_fits (p : SubmitSm) : Prop :=
  cstring 6 (ServiceType p) /\ cstring 21 (SourceAddr p) /\ cstring 21 (DestinationAddr p)
  /\ is_byte (SourceAddrTon p) /\ is_byte (SourceAddrNpi p)
  /\ is_byte (DestAddrTon p) /\ is_byte (DestAddrNpi p)
  /\ (0 <= Mode (EsmClass_ p) < 4 /\ 0 <= Type_ (EsmClass_ p) < 16
      /\ 0 <= Feature (EsmClass_ p) < 4)
  /\ is_byte (ProtocolID p) /\ is_byte (PriorityFlag p)
  /\ ScheduleDeliveryTime p = Gotime.zeroTime /\ ValidityPeriod p = Gotime.zeroTime
  /\ (0 <= Receipt (RegisteredDelivery_ p) < 4 /\ 0 <= SMEAck (RegisteredDelivery_ p) < 4
      /\ InterNotification (RegisteredDelivery_ p) = 0)
  /\ is_byte (ReplaceIfPresentFlag p) /\ is_byte (DataCoding p)
  /\ is_byte (SmDefaultMsgID p)
  /\ len (bytes_of_string (ShortMessage p)) <= 254
  /\ Options_ p = None.

(** The number of bytes of the four strings of a message. *)
Definition submit_text (p : SubmitSm) : Z :=
  len (bytes_of_string (ServiceType p)) + len (bytes_of_string (SourceAddr p))
  + len (bytes_of_string (DestinationAddr p)) + len (bytes_of_string (ShortMessage p)).

Lemma step_ReadCString_empty {P B} (format : string) (limit : Z) (rest : bytes) (p : P)
    (k : bytes -> Reader P B) :
  0 < limit ->
  bind (orFail format (ReadCString limit)) k (0 :: rest, p) = k [] (rest, p).
Proof.
  intros Hlim. apply (step_ReadCString format limit [] rest p k); [constructor|].
  exact Hlim.
Qed.

Lemma bytes_of_string_is_byte (s : string) : Forall is_byte (bytes_of_string s).
Proof.
  unfold bytes_of_string. apply Forall_forall. intros b Hb.
  apply list_elem_of_In, in_map_iff in Hb as (a & <- & _).
  unfold is_byte. pose proof (N_ascii_bounded a). lia.
Qed.

(** The mandatory part of a message that fits is read back from its
    body; the options of the receiver are not touched. *)
Lemma readSubmitSm_marshal (now : Gotime.Time) (order : gmap Z bytes -> list (Z * bytes))
    (p q : SubmitSm) :
  submit_fits p ->
  exists body,
    SubmitSm_MarshalBinary now order p = Ok body
    /\ len body = submit_text p + 17
    /\ readSubmitSm now (body, q) = (([], set_Options_ (Options_ q) p), Ok tt).
Proof.
  unfold submit_fits, submit_text.
  destruct p as [st ston snpi sa dton dnpi da [mode type feat] pid prio sched valid
                 [rec ack inter] rep dc def sm opts].
  cbn [ServiceType SourceAddrTon SourceAddrNpi SourceAddr DestAddrTon DestAddrNpi
       DestinationAddr EsmClass_ ProtocolID PriorityFlag ScheduleDeliveryTime ValidityPeriod
       RegisteredDelivery_ ReplaceIfPresentFlag DataCoding SmDefaultMsgID ShortMessage
       Options_ Mode Type_ Feature Receipt SMEAck InterNotification].
  intros ([Hst Lst] & [Hsa Lsa] & [Hda Lda] & Hston & Hsnpi & Hdton & Hdnpi
          & (Hmode & Htype & Hfeat) & Hpid & Hprio & -> & ->
          & (Hrec & Hack & ->) & Hrep & Hdc & Hdef & Lsm & ->).
  unfold SubmitSm_MarshalBinary.
  cbn [ServiceType SourceAddrTon SourceAddrNpi SourceAddr DestAddrTon DestAddrNpi
       DestinationAddr EsmClass_ ProtocolID PriorityFlag ScheduleDeliveryTime ValidityPeriod
       RegisteredDelivery_ ReplaceIfPresentFlag DataCoding SmDefaultMsgID ShortMessage
       Options_].
  change (writeTime now Smpptime.Absolute Gotime.zeroTime) with [0].
  cbv zeta.
  set (msg := bytes_of_string sm) in *.
  pose proof (len_nonneg msg) as Hmsg.
  assert (Hif : forall out : bytes, (if 0 <? len msg then out ++ msg else out) = out ++ msg).
  { intros out. destruct (Z.ltb_spec 0 (len msg)); [done|].
    destruct msg; [by rewrite app_nil_r | unfold len in *; simpl length in *; lia]. }
  rewrite Hif. eexists. split; [reflexivity|].
  rewrite !byte_small by (done || (unfold is_byte; lia)).
  rewrite <- !app_assoc. cbn [app].
  split.
  { unfold len. repeat (rewrite length_app; cbn [length]). fold msg. lia. }
  unfold readSubmitSm.
  rewrite step_ReadCString, step_assign by done.
  rewrite step_ReadByte, step_assign.
  rewrite step_ReadByte, step_assign.
  rewrite step_ReadCString, step_assign by done.
  rewrite step_ReadByte, step_assign.
  rewrite step_ReadByte, step_assign.
  rewrite step_ReadCString, step_assign by done.
  rewrite step_ReadByte, step_assign.
  rewrite step_ReadByte, step_assign.
  rewrite step_ReadByte, step_assign.
  rewrite step_ReadCString_empty by lia.
  change (Smpptime.Parse now []) with (Ok Gotime.zeroTime).
  rewrite step_liftResult, step_assign.
  rewrite step_ReadCString_empty by lia.
  change (Smpptime.Parse now []) with (Ok Gotime.zeroTime).
  rewrite step_liftResult, step_assign.
  rewrite step_ReadByte, step_assign.
  rewrite step_ReadByte, step_assign.
  rewrite step_ReadByte, step_assign.
  rewrite step_ReadByte, step_assign.
  rewrite <- (app_nil_r msg) at 2.
  rewrite step_ReadString by lia.
  unfold assign. subst msg.
  rewrite !string_of_bytes_of_string.
  rewrite ParseEsmClass_Byte by done.
  rewrite ParseRegisteredDelivery_Byte by lia.
  rewrite Z.add_0_r. by destruct q.
Qed.

End SubmitFacts.

(** X13. The round trip of [submit_sm] and [deliver_sm], and where it
    stops.  For a message without schedule, validity period and
    options whose fields fit the wire format, the body has seventeen
    bytes more than its four strings.  [UnmarshalBinary] reads the
    message back from it when the strings have eight bytes or more
    between them, keeping the options the receiver held; with fewer it
    refuses the body as too short (it asks for 25 bytes) and leaves the
    receiver as it was. *)
Theorem submit_sm_roundtrip (now : Gotime.Time) (p q : Pdu.SubmitSm) :
  submit_fits p ->
  exists body,
    Pdu.MarshalBinary (PDU := Pdu.SubmitSm_PDU now) p = Ok body
    /\ Pdu.MarshalBinary (PDU := Pdu.DeliverSm_PDU now) (Pdu.mkDeliverSm p) = Ok body
    /\ len body = submit_text p + 17
    /\ Pdu.UnmarshalBinary (PDU := Pdu.SubmitSm_PDU now) q body
       = (if submit_text p <? 8
          then Some (q, Some (fmt_Errorf "smpp/pdu: submit_sm body too short: %d"
                                         [ArgInt (len body)]))
          else Some (Pdu.set_Options_ (Pdu.Options_ q) p, None))
    /\ Pdu.UnmarshalBinary (PDU := Pdu.DeliverSm_PDU now) (Pdu.mkDeliverSm q) body
       = (if submit_text p <? 8
          then Some (Pdu.mkDeliverSm q,
                     Some (fmt_Errorf "smpp/pdu: deliver_sm body too short: %d"
                                      [ArgInt (len body)]))
          else Some (Pdu.mkDeliverSm (Pdu.set_Options_ (Pdu.Options_ q) p), None)).
Proof.
  intros Hfits.
  destruct (readSubmitSm_marshal now map_to_list p q Hfits) as (body & Hbody & Hlen & Hread).
  exists body. split; [exact Hbody|]. split; [exact Hbody|]. split; [exact Hlen|].
  cbn [Pdu.UnmarshalBinary Pdu.SubmitSm_PDU Pdu.DeliverSm_PDU].
  unfold Pdu.SubmitSm_UnmarshalBinary, Pdu.DeliverSm_UnmarshalBinary.
  rewrite Hread, Hlen.
  destruct (Z.ltb_spec (submit_text p + 17) 25) as [Hs|Hs].
  - replace (submit_text p <? 8) with true by lia. done.
  - replace (submit_text p <? 8) with false by lia. done.
Qed.

Lemma submit_sm_roundtrip_witness :
  exists body,
    Pdu.MarshalBinary (PDU := Pdu.SubmitSm_PDU exNow) exSubmitSm = Ok body
    /\ Pdu.MarshalBinary (PDU := Pdu.DeliverSm_PDU exNow) (Pdu.mkDeliverSm exSubmitSm) = Ok body
    /\ len body = 12 + 17
    /\ Pdu.UnmarshalBinary (PDU := Pdu.SubmitSm_PDU exNow) Pdu.zeroSubmitSm body
       = Some (exSubmitSm, None)
    /\ Pdu.UnmarshalBinary (PDU := Pdu.DeliverSm_PDU exNow) (Pdu.mkDeliverSm Pdu.zeroSubmitSm) body
       = Some (Pdu.mkDeliverSm exSubmitSm, None).
Proof.
  apply (submit_sm_roundtrip exNow exSubmitSm Pdu.zeroSubmitSm).
  unfold submit_fits, cstring, no_nul, is_byte. cbn.
  repeat split; try lia; repeat constructor; discriminate.
Defined.

(** ** The responses made of a C string and options *)

Section RespFacts.
Import Pdu.

(** Options that the wire format can hold and that come back from it
    in whatever order they are written: every value has between 1 and
    65535 bytes. *)
Definition options_fit (o : Options) : Prop :=
  map_Forall (fun tag val => tlv_ok (tag, val) /\ val <> []) (fields o).

(** What the options of a response are after a round trip: options
    without any field are written as no bytes and come back as nil. *)
Definition options_read_back (opts : option Options) : option Options :=
  match opts with
  | Some o => if decide (fields o = ∅) then None else Some o
  | None => None
  end.

Lemma cStringOptsResp_roundtrip (order : gmap Z bytes -> list (Z * bytes))
    (str : string) (opts : option Options) :
  (forall o, range_order o (order (fields o))) ->
  no_nul (bytes_of_string str) ->
  (forall o, opts = Some o -> options_fit o) ->
  cStringOptsRespUnmarshal (cStringOptsRespMarshal order str opts)
  = Some (str, options_read_back opts, None).
Proof.
  intros Horder Hstr Hfit. unfold cStringOptsRespMarshal.
  destruct opts as [[m]|]; cbn [options_read_back fields].
  - specialize (Hfit _ eq_refl). unfold options_fit in Hfit. cbn [fields] in Hfit.
    pose proof (Horder {| fields := m |}) as Hperm.
    unfold range_order in Hperm. cbn [fields] in Hperm.
    rewrite <- app_assoc. cbn [app].
    rewrite cStringOptsRespUnmarshal_app by exact Hstr.
    destruct (decide (m = ∅)) as [->|Hne].
    + rewrite map_to_list_empty in Hperm. apply Permutation_nil_r in Hperm.
      rewrite Hperm. reflexivity.
    + assert (Hnil : order m <> []).
      { intros Hnil. rewrite Hnil in Hperm. symmetry in Hperm.
        apply Permutation_nil_r in Hperm. by apply map_to_list_empty_iff in Hperm. }
      pose proof (MarshalBinary_in_nonempty _ Hnil) as Hpos.
      apply Z.ltb_lt in Hpos. rewrite Hpos.
      assert (Hok : map_Forall (fun tag val => tlv_ok (tag, val)) m).
      { intros tag val Hin. by destruct (Hfit tag val Hin). }
      pose proof (Options_roundtrip m (order m) Hperm Hok) as Hround.
      destruct (last (order m)) as [[tag val]|] eqn:Hlast.
      * destruct (decide (val = [])) as [->|Hval].
        -- apply last_Some_elem_of in Hlast. rewrite Hperm in Hlast.
           apply elem_of_map_to_list in Hlast.
           by destruct (Hfit tag [] Hlast).
        -- by rewrite Hround.
      * by rewrite Hround.
  - rewrite cStringOptsRespUnmarshal_app by exact Hstr. reflexivity.
Qed.

End RespFacts.

(** X14. The round trip of the responses that carry a C string and
    options ([bind_transmitter_resp], [bind_receiver_resp],
    [bind_transceiver_resp] and [submit_sm_resp]), for every order in
    which [MarshalBinary] may range over the map of the options.  When
    the string holds no NUL byte and every option value has between 1
    and 65535 bytes, [UnmarshalBinary] reads back from the body that
    [MarshalBinary] wrote the same string and the same options,
    whatever the receiver held, with one exception: options without a
    single field come back as nil. *)
Theorem resp_roundtrip (order : gmap Z bytes -> list (Z * bytes))
    (str : string) (opts : option Pdu.Options)
    (q : Pdu.BindTRxResp) (qtx : Pdu.BindTxResp) (qrx : Pdu.BindRxResp)
    (qs : Pdu.SubmitSmResp) :
  (forall o, Pdu.range_order o (order (Pdu.fields o))) ->
  no_nul (bytes_of_string str) ->
  (forall o, opts = Some o -> options_fit o) ->
  let back := options_read_back opts in
  (exists body,
     Pdu.MarshalBinary (PDU := Pdu.BindTRxResp_PDU_in order)
                       {| Pdu.trxresp_SystemID := str; Pdu.trxresp_Options := opts |} = Ok body
     /\ Pdu.UnmarshalBinary (PDU := Pdu.BindTRxResp_PDU_in order) q body
        = Some ({| Pdu.trxresp_SystemID := str; Pdu.trxresp_Options := back |}, None))
  /\ (exists body,
        Pdu.MarshalBinary (PDU := Pdu.BindTxResp_PDU_in order)
                          {| Pdu.txresp_SystemID := str; Pdu.txresp_Options := opts |} = Ok body
        /\ Pdu.UnmarshalBinary (PDU := Pdu.BindTxResp_PDU_in order) qtx body
           = Some ({| Pdu.txresp_SystemID := str; Pdu.txresp_Options := back |}, None))
  /\ (exists body,
        Pdu.MarshalBinary (PDU := Pdu.BindRxResp_PDU_in order)
                          {| Pdu.rxresp_SystemID := str; Pdu.rxresp_Options := opts |} = Ok body
        /\ Pdu.UnmarshalBinary (PDU := Pdu.BindRxResp_PDU_in order) qrx body
           = Some ({| Pdu.rxresp_SystemID := str; Pdu.rxresp_Options := back |}, None))
  /\ (exists body,
        Pdu.MarshalBinary (PDU := Pdu.SubmitSmResp_PDU_in order)
                          {| Pdu.sresp_MessageID := str; Pdu.sresp_Options := opts |} = Ok body
        /\ Pdu.UnmarshalBinary (PDU := Pdu.SubmitSmResp_PDU_in order) qs body
           = Some ({| Pdu.sresp_MessageID := str; Pdu.sresp_Options := back |}, None)).
Proof.
  intros Horder Hstr Hfit back.
  repeat split; eexists; (split; [reflexivity|]);
    cbn [Pdu.UnmarshalBinary Pdu.BindTRxResp_PDU_in Pdu.BindTxResp_PDU_in
         Pdu.BindRxResp_PDU_in Pdu.SubmitSmResp_PDU_in Pdu.trxresp_SystemID
         Pdu.trxresp_Options Pdu.txresp_SystemID Pdu.txresp_Options Pdu.rxresp_SystemID
         Pdu.rxresp_Options Pdu.sresp_MessageID Pdu.sresp_Options];
    by rewrite cStringOptsResp_roundtrip.
Qed.

(** A response with two options, and a range that visits the options
    in the order opposite to that of the instances. *)
Definition exRespOptions : Pdu.Options :=
  Pdu.SetMessageState (Pdu.SetScInterfaceVersion Pdu.NewOptions 0x34) 2.

Definition exRange (m : gmap Z bytes) : list (Z * bytes) := reverse (map_to_list m).

Lemma exRespOptions_fit : options_fit exRespOptions.
Proof.
  unfold options_fit, exRespOptions.
  cbn [Pdu.fields Pdu.SetMessageState Pdu.SetScInterfaceVersion Pdu.SetSingle Pdu.Set_
       Pdu.NewOptions].
  apply map_Forall_insert_2; [|apply map_Forall_insert_2; [|apply map_Forall_empty]].
  - unfold tlv_ok, is_byte, len. cbn. repeat split; try lia; try discriminate.
    apply Forall_cons_2; [vm_compute; split; congruence | constructor].
  - unfold tlv_ok, is_byte, len. cbn. repeat split; try lia; try discriminate.
    apply Forall_cons_2; [vm_compute; split; congruence | constructor].
Defined.

Lemma resp_roundtrip_witness :
  (exists body,
     Pdu.MarshalBinary (PDU := Pdu.BindTRxResp_PDU_in exRange)
       {| Pdu.trxresp_SystemID := "test"; Pdu.trxresp_Options := Some exRespOptions |}
     = Ok body
     /\ Pdu.UnmarshalBinary (PDU := Pdu.BindTRxResp_PDU_in exRange)
          {| Pdu.trxresp_SystemID := ""; Pdu.trxresp_Options := None |} body
        = Some ({| Pdu.trxresp_SystemID := "test";
                   Pdu.trxresp_Options := Some exRespOptions |}, None))
  /\ Pdu.MarshalBinary (PDU := Pdu.BindTRxResp_PDU_in exRange)
       {| Pdu.trxresp_SystemID := "test"; Pdu.trxresp_Options := Some exRespOptions |}
     <> Pdu.MarshalBinary
          {| Pdu.trxresp_SystemID := "test"; Pdu.trxresp_Options := Some exRespOptions |}.
Proof.
  assert (H0 : forall o, Pdu.range_order o (exRange (Pdu.fields o))).
  { intros o. unfold Pdu.range_order, exRange. apply reverse_Permutation. }
  assert (H1 : no_nul (bytes_of_string "test")) by (repeat constructor; discriminate).
  assert (H2 : forall o, Some exRespOptions = Some o -> options_fit o).
  { intros o [= <-]. exact exRespOptions_fit. }
  pose proof (resp_roundtrip exRange "test" (Some exRespOptions)
                {| Pdu.trxresp_SystemID := ""; Pdu.trxresp_Options := None |}
                {| Pdu.txresp_SystemID := ""; Pdu.txresp_Options := None |}
                {| Pdu.rxresp_SystemID := ""; Pdu.rxresp_Options := None |}
                {| Pdu.sresp_MessageID := ""; Pdu.sresp_Options := None |} H0 H1 H2) as H.
  cbv zeta in H. split; [exact (proj1 H)|].
  vm_compute. discriminate.
Defined.

(** ** The decoder on frames it does not accept *)

Section DecodeErrors.
Import Pdu.

(** The header of a reader that holds sixteen bytes or more. *)
Lemma Decode_header (now : Gotime.Time) (l c st sq : Z) (rest : bytes) :
  Decode now ((PutUint32 l ++ PutUint32 c ++ PutUint32 st ++ PutUint32 sq) ++ rest)
  = match header_UnmarshalBinary
            {| h_length := 0; h_commandID := 0; h_status := 0; h_sequence := 0 |}
            (PutUint32 l ++ PutUint32 c ++ PutUint32 st ++ PutUint32 sq) with
    | Panic msg => Some (Panic msg)
    | Return (h, Some err) => Some (Return (rest, (Some h, None, Some err)))
    | Return (h, None) =>
        Decode now ((PutUint32 l ++ PutUint32 c ++ PutUint32 st ++ PutUint32 sq) ++ rest)
    end.
Proof.
  set (hd := PutUint32 l ++ PutUint32 c ++ PutUint32 st ++ PutUint32 sq).
  destruct (header_UnmarshalBinary _ hd) as [[h [err|]]|msg] eqn:E; [| reflexivity |].
  - unfold Decode, ReadFull.
    assert (Hlen : len (hd ++ rest) = 16 + len rest).
    { unfold len. rewrite length_app. change (length hd) with 16%nat. lia. }
    rewrite Hlen. pose proof (len_nonneg rest).
    change (16 <=? 0) with false. cbv iota.
    replace (16 + len rest =? 0) with false by lia.
    replace (16 + len rest <? 16) with false by lia.
    change (Z.to_nat 16) with (length hd).
    rewrite take_app_length, drop_app_length. by rewrite E.
  - unfold Decode, ReadFull.
    assert (Hlen : len (hd ++ rest) = 16 + len rest).
    { unfold len. rewrite length_app. change (length hd) with 16%nat. lia. }
    rewrite Hlen. pose proof (len_nonneg rest).
    change (16 <=? 0) with false. cbv iota.
    replace (16 + len rest =? 0) with false by lia.
    replace (16 + len rest <? 16) with false by lia.
    change (Z.to_nat 16) with (length hd).
    rewrite take_app_length, drop_app_length. by rewrite E.
Qed.

Lemma header_UnmarshalBinary_length (h : header) (l c st sq : Z) :
  0 <= l < 2 ^ 32 -> l < 16 \/ MaxPDUSize < l ->
  header_UnmarshalBinary h (PutUint32 l ++ PutUint32 c ++ PutUint32 st ++ PutUint32 sq)
  = Return ({| h_length := l; h_commandID := h_commandID h; h_status := h_status h;
               h_sequence := h_sequence h |},
            Some (errors_New (if l <? 16 then "smpp: pdu length under lower limit"
                              else "smpp: pdu length over upper limit"))).
Proof.
  unfold MaxPDUSize. intros Hl Hout. unfold header_UnmarshalBinary.
  set (body := PutUint32 l ++ PutUint32 c ++ PutUint32 st ++ PutUint32 sq).
  change (len body) with 16. change (16 <? 4) with false. cbv iota.
  change (slice body 0 4) with (PutUint32 l ++ []).
  rewrite Uint32_PutUint32 by lia.
  destruct (Z.ltb_spec l 16); [reflexivity|].
  unfold MaxPDUSize. replace (4096 <? l) with true by lia. reflexivity.
Qed.

End DecodeErrors.

(** X15. The frames [Decode] does not accept.  A reader that is empty
    gives [io.EOF] and one that ends within the header gives the
    unexpected-EOF error.  A header whose length word is below 16 or
    above 4096 is refused with the matching error, and none of the
    bytes after the header is read.  A header whose length is within
    the limits and whose command id is none of those [NewPDU] knows
    makes [Decode] panic, whether or not a body follows. *)
Theorem Decode_refuses (now : Gotime.Time) (l c st sq : Z) (short rest : bytes) :
  0 <= l < 2 ^ 32 -> 0 <= c < 2 ^ 32 -> 0 <= st < 2 ^ 32 -> 0 <= sq < 2 ^ 32 ->
  0 < len short < 16 ->
  let header := PutUint32 l ++ PutUint32 c ++ PutUint32 st ++ PutUint32 sq in
  Pdu.Decode now [] = Some (Return ([], (None, None, Some io_EOF)))
  /\ Pdu.Decode now short
     = Some (Return ([], (None, None, Some (errors_New "unexpected EOF"))))
  /\ (l < 16 ->
      Pdu.Decode now (header ++ rest)
      = Some (Return (rest,
                      (Some {| Pdu.h_length := l; Pdu.h_commandID := 0; Pdu.h_status := 0;
                               Pdu.h_sequence := 0 |},
                       None, Some (errors_New "smpp: pdu length under lower limit")))))
  /\ (Pdu.MaxPDUSize < l ->
      Pdu.Decode now (header ++ rest)
      = Some (Return (rest,
                      (Some {| Pdu.h_length := l; Pdu.h_commandID := 0; Pdu.h_status := 0;
                               Pdu.h_sequence := 0 |},
                       None, Some (errors_New "smpp: pdu length over upper limit")))))
  /\ (16 <= l <= Pdu.MaxPDUSize ->
      (forall pdu, Pdu.NewPDU now c <> Return pdu) ->
      Pdu.Decode now (header ++ rest) = Some (Panic "pdu: unsupported PDU command")).
Proof.
  intros Hl Hc Hst Hsq Hshort header.
  split; [reflexivity|]. split.
  { unfold Pdu.Decode, Pdu.ReadFull. change (16 <=? 0) with false. cbv iota.
    replace (len short =? 0) with false by lia.
    replace (len short <? 16) with true by lia. reflexivity. }
  split; [|split].
  - intros Hlow. unfold header. rewrite Decode_header.
    rewrite header_UnmarshalBinary_length by (done || lia).
    replace (l <? 16) with true by lia. reflexivity.
  - unfold Pdu.MaxPDUSize. intros Hhigh. unfold header. rewrite Decode_header.
    rewrite header_UnmarshalBinary_length by (done || (unfold Pdu.MaxPDUSize; lia)).
    replace (l <? 16) with false by lia. reflexivity.
  - unfold Pdu.MaxPDUSize. intros Hin Hnew. unfold header, Pdu.Decode, Pdu.ReadFull.
    set (hd := PutUint32 l ++ PutUint32 c ++ PutUint32 st ++ PutUint32 sq).
    assert (Hlen : len (hd ++ rest) = 16 + len rest).
    { unfold len. rewrite length_app. change (length hd) with 16%nat. lia. }
    rewrite Hlen. pose proof (len_nonneg rest).
    change (16 <=? 0) with false. cbv iota.
    replace (16 + len rest =? 0) with false by lia.
    replace (16 + len rest <? 16) with false by lia.
    change (Z.to_nat 16) with (length hd).
    rewrite take_app_length, drop_app_length. unfold hd.
    rewrite header_UnmarshalBinary_words by (done || (unfold Pdu.MaxPDUSize; lia)).
    cbn [Pdu.h_length Pdu.h_commandID].
    replace (l <? 16) with false by lia.
    destruct (Pdu.NewPDU now c) as [pdu|msg] eqn:E; [by destruct (Hnew pdu)|].
    f_equal. f_equal. revert E. unfold Pdu.NewPDU.
    repeat match goal with
           | |- context [if c =? ?k then _ else _] =>
               destruct (c =? k); [discriminate|]
           end.
    by intros [= <-].
Qed.

Lemma Decode_refuses_witness :
  Pdu.Decode exNow ((PutUint32 16 ++ PutUint32 0x77 ++ PutUint32 0 ++ PutUint32 1) ++ [])
  = Some (Panic "pdu: unsupported PDU command").
Proof.
  pose proof (Decode_refuses exNow 16 0x77 0 1 [0] []) as H.
  cbv zeta in H.
  destruct H as (_ & _ & _ & _ & H); [lia | lia | lia | lia | unfold len; simpl; lia |].
  apply H; [unfold Pdu.MaxPDUSize; lia | intros pdu; discriminate].
Defined.

(** ** The session as a whole *)

Section SessionSteps.
Import Pdu Smpp.
Context {W S : Type} `{Stream W} `{Sequencer S}.
Implicit Type sess : Session W S pduValue.





Lemma setState_conf sess (st : SessionState) :
  conf (fst (setState sess st)) = conf sess.
Proof.
  unfold setState, commitState.
  destruct (decide (state sess = st)); [done|].
  destruct (state sess), st; simpl; done.
Qed.

Lemma makeTransition_conf sess (ID : Z) (received : bool) :
  conf (fst (makeTransition sess ID received)) = conf sess.
Proof.
  unfold makeTransition.
  repeat match goal with
         | |- context [if ?b then _ else _] => destruct b
         | |- context [match state sess with _ => _ end] => destruct (state sess) eqn:?
         end; try done; apply setState_conf.
Qed.

Lemma setState_enc sess (st : SessionState) :
  enc (fst (setState sess st)) = enc sess
  /\ reqCount (fst (setState sess st)) = reqCount sess
  /\ wg (fst (setState sess st)) = wg sess
  /\ systemID (fst (setState sess st)) = systemID sess.
Proof.
  unfold setState, commitState.
  destruct (decide (state sess = st)); [done|].
  destruct (state sess), st; simpl; done.
Qed.

Lemma makeTransition_enc sess (ID : Z) (received : bool) :
  enc (fst (makeTransition sess ID received)) = enc sess
  /\ reqCount (fst (makeTransition sess ID received)) = reqCount sess
  /\ wg (fst (makeTransition sess ID received)) = wg sess
  /\ systemID (fst (makeTransition sess ID received)) = systemID sess.
Proof.
  unfold makeTransition.
  repeat match goal with
         | |- context [if ?b then _ else _] => destruct b
         | |- context [match state sess with _ => _ end] => destruct (state sess) eqn:?
         end; try done; apply setState_enc.
Qed.









End SessionSteps.


(** A session whose receive loop hands over decoded PDUs: the ESME of
    the examples after [Send] of a [bind_transceiver], with the request
    1 in flight. *)
Definition exServing : Smpp.Session Buffer Pdu.defaultSequencer Pdu.pduValue :=
  fst (Smpp.Send (Smpp.NewSession {| buf_bytes := []; buf_closed := false |} exConf
                                  (Pdu.NewSequencer 1) "0A0B0C0D-0E0F-1011")
                 (Some exBindTRx)).

(** The same session after the [bind_transceiver_resp], with as many
    requests in progress as the request window takes. *)
Definition exBoundServing : Smpp.Session Buffer Pdu.defaultSequencer Pdu.pduValue :=
  Smpp.with_requests (fst (Smpp.makeTransition exServing Pdu.BindTransceiverRespID true))
                     11 10.



(** ** Responses *)

Section ServeFacts.
Import Pdu Smpp.
Context {W S : Type} `{Stream W} `{Sequencer S}.
Implicit Type sess : Session W S pduValue.

(** [toError] is nil for [StatusOK] alone, and the error of any other
    status carries that status. *)
Lemma toError_status (status : Z) :
  match toError status with
  | None => status = StatusOK
  | Some se => status <> StatusOK /\ se_status se = status
  end.
Proof.
  unfold toError.
  repeat match goal with
         | |- context [if status =? ?k then _ else _] =>
             destruct (Z.eqb_spec status k) as [->|?]; [done|]
         end.
  done.
Qed.

Lemma makeTransition_received sess (id : string) (ID : Z) :
  ID ∈ allowed (Type_ (conf sess)) true (state sess) ->
  exists sess1,
    makeTransition (with_systemID sess id) ID true = (sess1, None)
    /\ sent sess1 = sent sess /\ chans sess1 = chans sess /\ conf sess1 = conf sess
    /\ enc sess1 = enc sess /\ reqCount sess1 = reqCount sess /\ wg sess1 = wg sess
    /\ systemID sess1 = id.
Proof.
  intros Hin.
  pose proof (makeTransition_allowed (with_systemID sess id) ID true Hin) as Hnone.
  pose proof (makeTransition_slots (with_systemID sess id) ID true) as [Hs Hc].
  pose proof (makeTransition_conf (with_systemID sess id) ID true) as Hconf.
  pose proof (makeTransition_enc (with_systemID sess id) ID true) as (He & Hr & Hw & Hid).
  destruct (makeTransition (with_systemID sess id) ID true) as [sess1 e].
  simpl in *. subst e. by exists sess1.
Qed.

End ServeFacts.

(** X17. A response is matched with its request by the sequence number
    alone.  When the table holds a slot for the sequence number of a
    received response that the state machine accepts, the round of
    [serve] removes the slot, queues the PDU on the channel of the slot
    and touches no other channel; the [Send] that waits there then
    returns this PDU, whatever its command id is, with a nil error when
    the status of the header is [StatusOK] and with a [StatusError]
    otherwise. *)
Theorem serve_delivers_response {W S : Type} `{Stream W} `{Pdu.Sequencer S}
    (sess : Smpp.Session W S Pdu.pduValue) (h : Pdu.header) (p : Pdu.pduValue) (l : nat) :
  Pdu.IsRequest (Pdu.h_commandID h) = false ->
  Pdu.h_commandID h ∈ allowed (Smpp.Type_ (Smpp.conf sess)) true (Smpp.state sess) ->
  Smpp.sent sess !! Pdu.h_sequence h = Some l ->
  Smpp.chans sess !! l = Some (Smpp.ChanOpen None) ->
  let err := match Smpp.toError (Pdu.h_status h) with
             | Some se => Some (Smpp.StatusError_error se)
             | None => None
             end in
  exists sess',
    Smpp.serve_step sess h p = Return (sess', Smpp.Delivered l)
    /\ Smpp.sent sess' = delete (Pdu.h_sequence h) (Smpp.sent sess)
    /\ Smpp.chans sess' = <[l := Smpp.ChanOpen (Some (p, err))]> (Smpp.chans sess)
    /\ Smpp.chan_recv (Smpp.chans sess') l = Some (Smpp.SlotDelivered (p, err))
    /\ Smpp.Send_select (Smpp.SlotDelivered (p, err)) = (Some p, err)
    /\ (err = None <-> Pdu.h_status h = Pdu.StatusOK).
Proof.
  intros Hresp Hin Hl Hopen err.
  destruct (makeTransition_received sess (Pdu.SystemID p) _ Hin)
    as (sess1 & E & Hs & Hc & _).
  unfold Smpp.serve_step. cbv zeta. rewrite E, Hresp, Hs, Hl.
  unfold Smpp.chan_send. cbn [Smpp.with_slots Smpp.chans Smpp.sent]. rewrite Hc, Hopen.
  eexists. split; [reflexivity|]. cbn [Smpp.with_slots Smpp.chans Smpp.sent].
  split; [reflexivity|]. split; [reflexivity|]. split.
  { unfold Smpp.chan_recv. by rewrite lookup_insert_eq. }
  split.
  { fold err. by destruct err. }
  unfold err. pose proof (toError_status (Pdu.h_status h)) as Hst.
  destruct (Smpp.toError (Pdu.h_status h)); [|done].
  destruct Hst as [Hne _]. split; [discriminate | done].
Qed.

Lemma serve_delivers_response_witness :
  exists sess',
    Smpp.serve_step exServing
                    {| Pdu.h_length := 16; Pdu.h_commandID := Pdu.GenericNackID;
                       Pdu.h_status := Pdu.StatusInvBnd; Pdu.h_sequence := 1 |}
                    (Pdu.PGenericNack Pdu.mkGenericNack)
    = Return (sess', Smpp.Delivered 0%nat)
    /\ Smpp.sent sess' = ∅.
Proof.
  destruct (serve_delivers_response exServing
              {| Pdu.h_length := 16; Pdu.h_commandID := Pdu.GenericNackID;
                 Pdu.h_status := Pdu.StatusInvBnd; Pdu.h_sequence := 1 |}
              (Pdu.PGenericNack Pdu.mkGenericNack) 0%nat)
    as (sess' & E & Hsent & _).
  - reflexivity.
  - apply (bool_decide_unpack _). vm_compute. exact I.
  - reflexivity.
  - reflexivity.
  - exists sess'. split; [exact E|]. rewrite Hsent. reflexivity.
Defined.

(** X18. A response whose sequence number has no slot in the table is
    dropped: the round does nothing but store the system id of the PDU
    and make the transition, and no waiting [Send] is woken. *)
Theorem serve_drops_unexpected_response {W S : Type} `{Stream W} `{Pdu.Sequencer S}
    (sess : Smpp.Session W S Pdu.pduValue) (h : Pdu.header) (p : Pdu.pduValue) :
  Pdu.IsRequest (Pdu.h_commandID h) = false ->
  Pdu.h_commandID h ∈ allowed (Smpp.Type_ (Smpp.conf sess)) true (Smpp.state sess) ->
  Smpp.sent sess !! Pdu.h_sequence h = None ->
  exists sess',
    Smpp.serve_step sess h p = Return (sess', Smpp.Unexpected)
    /\ sess' = fst (Smpp.makeTransition (Smpp.with_systemID sess (Pdu.SystemID p))
                                        (Pdu.h_commandID h) true)
    /\ Smpp.sent sess' = Smpp.sent sess
    /\ Smpp.chans sess' = Smpp.chans sess
    /\ Smpp.enc sess' = Smpp.enc sess
    /\ Smpp.systemID sess' = Pdu.SystemID p.
Proof.
  intros Hresp Hin Hl.
  destruct (makeTransition_received sess (Pdu.SystemID p) _ Hin)
    as (sess1 & E & Hs & Hc & _ & He & _ & _ & Hid).
  exists sess1. unfold Smpp.serve_step. cbv zeta. rewrite E, Hresp, Hs, Hl. done.
Qed.

Lemma serve_drops_unexpected_response_witness :
  exists sess',
    Smpp.serve_step exServing
                    {| Pdu.h_length := 16; Pdu.h_commandID := Pdu.GenericNackID;
                       Pdu.h_status := 0; Pdu.h_sequence := 7 |}
                    (Pdu.PGenericNack Pdu.mkGenericNack)
    = Return (sess', Smpp.Unexpected)
    /\ Smpp.sent sess' = Smpp.sent exServing.
Proof.
  destruct (serve_drops_unexpected_response exServing
              {| Pdu.h_length := 16; Pdu.h_commandID := Pdu.GenericNackID;
                 Pdu.h_status := 0; Pdu.h_sequence := 7 |}
              (Pdu.PGenericNack Pdu.mkGenericNack))
    as (sess' & E & _ & Hsent & _).
  - reflexivity.
  - apply (bool_decide_unpack _). vm_compute. exact I.
  - reflexivity.
  - exists sess'. split; [exact E | exact Hsent].
Defined.

(** ** Requests *)

(** X19. A request that the state machine accepts is counted against
    the request window.  Below the window it is handed to a handler
    task, the counter and the wait group go up by one and nothing is
    written.  With [ReqWinSize] requests in progress it is answered at
    once with a [generic_nack] of status [StatusThrottled] (0x58)
    carrying the sequence number of the request, in a single [Write] of
    sixteen bytes, and is not counted; the transition made for it
    stays.  A request with the sequence number 0 is answered with the
    next number of the sequencer instead. *)
Theorem serve_counts_requests {W S : Type} `{Stream W} `{Pdu.Sequencer S}
    (sess : Smpp.Session W S Pdu.pduValue) (h : Pdu.header) (p : Pdu.pduValue) :
  Pdu.IsRequest (Pdu.h_commandID h) = true ->
  Pdu.h_commandID h ∈ allowed (Smpp.Type_ (Smpp.conf sess)) true (Smpp.state sess) ->
  let sess1 := fst (Smpp.makeTransition (Smpp.with_systemID sess (Pdu.SystemID p))
                                         (Pdu.h_commandID h) true) in
  let seq := if Pdu.h_sequence h =? 0 then fst (Pdu.Next (Pdu.enc_seq (Smpp.enc sess)))
             else Pdu.h_sequence h in
  (Smpp.reqCount sess <> Smpp.ReqWinSize (Smpp.conf sess) ->
   Smpp.serve_step sess h p
   = Return (Smpp.with_requests sess1 (Smpp.wg sess + 1) (Smpp.reqCount sess + 1),
             Smpp.Handling (Pdu.h_sequence h) p)
   /\ Smpp.enc sess1 = Smpp.enc sess)
  /\ (Smpp.reqCount sess = Smpp.ReqWinSize (Smpp.conf sess) ->
      exists sess',
        Smpp.serve_step sess h p = Return (sess', Smpp.Throttled)
        /\ Smpp.rwc sess'
           = fst (Write (Smpp.rwc sess)
                        ([0; 0; 0; 16; 0x80; 0; 0; 0; 0; 0; 0; 0x58] ++ PutUint32 seq))
        /\ Smpp.reqCount sess' = Smpp.reqCount sess
        /\ Smpp.wg sess' = Smpp.wg sess
        /\ Smpp.sent sess' = Smpp.sent sess
        /\ Smpp.state sess' = Smpp.state sess1).
Proof.
  intros Hreq Hin sess1 seq.
  destruct (makeTransition_received sess (Pdu.SystemID p) _ Hin)
    as (s1 & E & Hs & Hc & Hconf & He & Hr & Hw & _).
  assert (Hs1 : sess1 = s1) by (unfold sess1; by rewrite E).
  rewrite Hs1. clear sess1 Hs1.
  unfold Smpp.serve_step. cbv zeta. rewrite E, Hreq, Hr, Hconf, Hw.
  split.
  - intros Hne. destruct (Z.eqb_spec (Smpp.reqCount sess) (Smpp.ReqWinSize (Smpp.conf sess)));
      [contradiction|]. done.
  - intros Hfull. rewrite Hfull, Z.eqb_refl.
    unfold Smpp.throttle, Pdu.Encode. cbn [Pdu.MarshalBinary Pdu.GenericNack_PDU fold_left].
    cbn [Pdu.EncodeSeq Pdu.EncodeStatus Pdu.eo_seq Pdu.eo_status].
    rewrite He.
    assert (Hframe : forall sq,
               Pdu.frame (len (@nil Z) + 16) (Pdu.CommandID Pdu.mkGenericNack)
                         Pdu.StatusThrottled sq []
               = [0; 0; 0; 16; 0x80; 0; 0; 0; 0; 0; 0; 0x58] ++ PutUint32 sq).
    { intros sq. unfold Pdu.frame. rewrite app_nil_r. reflexivity. }
    unfold seq, Smpp.rwc. destruct (Pdu.h_sequence h =? 0).
    + destruct (Pdu.Next (Pdu.enc_seq (Smpp.enc sess))) as [sq' nxt]. rewrite Hframe.
      cbn [fst]. destruct (Write (Pdu.enc_w (Smpp.enc sess)) _) as [w e].
      eexists. split; [reflexivity|]. cbn. repeat split; congruence.
    + rewrite Hframe.
      destruct (Write (Pdu.enc_w (Smpp.enc sess)) _) as [w e].
      eexists. split; [reflexivity|]. cbn. repeat split; congruence.
Qed.

Lemma serve_counts_requests_witness :
  exists sess',
    Smpp.serve_step exBoundServing
                    {| Pdu.h_length := 16; Pdu.h_commandID := Pdu.EnquireLinkID;
                       Pdu.h_status := 0; Pdu.h_sequence := 9 |}
                    (Pdu.PEnquireLink Pdu.mkEnquireLink)
    = Return (sess', Smpp.Throttled)
    /\ buf_bytes (Smpp.rwc sess')
       = buf_bytes (Smpp.rwc exBoundServing)
         ++ [0; 0; 0; 16; 0x80; 0; 0; 0; 0; 0; 0; 0x58; 0; 0; 0; 9].
Proof.
  assert (Hin : Pdu.EnquireLinkID
                ∈ allowed (Smpp.Type_ (Smpp.conf exBoundServing)) true
                          (Smpp.state exBoundServing)).
  { apply (bool_decide_unpack _). vm_compute. exact I. }
  pose proof (serve_counts_requests exBoundServing
                {| Pdu.h_length := 16; Pdu.h_commandID := Pdu.EnquireLinkID;
                   Pdu.h_status := 0; Pdu.h_sequence := 9 |}
                (Pdu.PEnquireLink Pdu.mkEnquireLink) eq_refl Hin) as Hthm.
  cbv zeta in Hthm. destruct Hthm as [_ Hfull].
  destruct Hfull as (sess' & E & Hw & _); [reflexivity|].
  exists sess'. split; [exact E|]. rewrite Hw. reflexivity.
Defined.

(** ** The moves of the state machine *)

(** The moves that [makeTransition] makes. *)
Definition moves : list (Smpp.SessionState * Smpp.SessionState) :=
  [(Smpp.StateOpen, Smpp.StateBinding); (Smpp.StateBinding, Smpp.StateOpen);
   (Smpp.StateBinding, Smpp.StateBoundTx); (Smpp.StateBinding, Smpp.StateBoundRx);
   (Smpp.StateBinding, Smpp.StateBoundTRx); (Smpp.StateBoundTx, Smpp.StateUnbinding);
   (Smpp.StateBoundRx, Smpp.StateUnbinding); (Smpp.StateBoundTRx, Smpp.StateUnbinding)].

(** X20. [makeTransition] either returns the session exactly as it
    was, or it returns nil and makes one of eight moves, reporting the
    new state to the hook: open to binding, binding back to open or on
    to one of the bound states, a bound state to unbinding.  So it
    never leaves [StateUnbinding], [StateClosing] or [StateClosed], and
    never enters the last two: only [Close] does. *)
Theorem makeTransition_moves {W S R : Type} `{Stream W} `{Pdu.Sequencer S}
    (sess : Smpp.Session W S R) (ID : Z) (received : bool) :
  fst (Smpp.makeTransition sess ID received) = sess
  \/ (snd (Smpp.makeTransition sess ID received) = None
      /\ (Smpp.state sess, Smpp.state (fst (Smpp.makeTransition sess ID received))) ∈ moves
      /\ fst (Smpp.makeTransition sess ID received)
         = fst (Smpp.commitState sess
                  (Smpp.state (fst (Smpp.makeTransition sess ID received))))).
Proof.
  unfold Smpp.makeTransition, Smpp.setState, Smpp.commitState.
  destruct (Smpp.Type_ (Smpp.conf sess)), received, (Smpp.state sess) eqn:Hst; simpl;
    repeat match goal with
           | |- context [if ?b then _ else _] => destruct b
           end;
    try (left; reflexivity);
    right; (split; [reflexivity|]); (split; [|reflexivity]);
    unfold moves; set_solver.
Qed.

(** ** A closed session *)

(** X21. [StateClosed] is final.  On a closed session every [Send] of
    a PDU fails and leaves the session as it is, writing nothing, and
    the error it returns is marked temporary; [Close] returns an error
    that is not; every [setState] is refused; and a round of [serve]
    refuses the PDU, having stored its system id. *)
Theorem closed_session_is_final {W S : Type} `{Stream W} `{Pdu.Sequencer S}
    (sess : Smpp.Session W S Pdu.pduValue) :
  Smpp.state sess = Smpp.StateClosed ->
  (forall (P : Type) (HP : Pdu.PDU P) (req : P),
      exists e, Smpp.Send sess (Some req) = (sess, Smpp.SendFailed e)
                /\ Smpp.Temporary e = true)
  /\ (exists e, Smpp.Close sess = Return (sess, Some e) /\ Smpp.Temporary e = false)
  /\ (forall st, exists e, Smpp.setState sess st = (sess, Some e))
  /\ (forall h p, Smpp.serve_step sess h p
                  = Return (Smpp.with_systemID sess (Pdu.SystemID p),
                            Smpp.Refused (Smpp.invalidState (Pdu.h_commandID h)
                                                            Smpp.StateClosed))).
Proof.
  intros Hst. split; [|split; [|split]].
  - intros P HP req. unfold Smpp.Send.
    destruct (_ =? _); [by eexists|].
    unfold Smpp.makeTransition. rewrite Hst.
    destruct (_ || _); [by eexists|]. destruct (_ || _); by eexists.
  - unfold Smpp.Close, Smpp.setState. rewrite Hst. cbn. by eexists.
  - intros st. unfold Smpp.setState. rewrite Hst.
    destruct (decide (Smpp.StateClosed = st)); by eexists.
  - intros h p. unfold Smpp.serve_step, Smpp.makeTransition. cbn. rewrite Hst.
    destruct (_ || _); [done|]. by destruct (_ || _).
Qed.

(** The session of the examples after [Close]. *)
Definition exClosed : Smpp.Session Buffer Pdu.defaultSequencer Pdu.pduValue :=
  match Smpp.Close (fst (Smpp.makeTransition exServing Pdu.BindTransceiverRespID true)) with
  | Return (sess, _) => sess
  | Panic _ => exServing
  end.

Lemma closed_session_is_final_witness :
  Smpp.state exClosed = Smpp.StateClosed
  /\ exists e, Smpp.Send exClosed (Some Pdu.mkEnquireLink) = (exClosed, Smpp.SendFailed e)
               /\ Smpp.Temporary e = true.
Proof.
  split; [reflexivity|].
  destruct (closed_session_is_final exClosed eq_refl) as [Hsend _].
  exact (Hsend _ _ Pdu.mkEnquireLink).
Defined.

(** ** Send *)

(** X22. [Send] makes the transition before it writes, and does not
    take it back.  When the window has room, the state machine accepts
    the PDU and the body marshals, but the [Write] of the frame fails,
    [Send] returns the error of the [Write] with no slot added; the
    sequence number is used up and the session stays in the state the
    transition led to.  For a bind request on an open ESME session
    that is [StateBinding], where a second [Send] of the request is
    refused by the state machine. *)
Theorem Send_keeps_transition_on_failed_write {W S P : Type}
    `{Stream W} `{Pdu.Sequencer S} `{Pdu.PDU P}
    (sess : Smpp.Session W S Pdu.pduValue) (req : P) (body : bytes) (w : W) (err : error) :
  Z.of_nat (size (Smpp.sent sess)) <> Smpp.SendWinSize (Smpp.conf sess) ->
  Pdu.CommandID req ∈ allowed (Smpp.Type_ (Smpp.conf sess)) false (Smpp.state sess) ->
  Pdu.MarshalBinary req = Ok body ->
  Write (Smpp.rwc sess)
        (Pdu.frame (len body + 16) (Pdu.CommandID req) 0
                   (fst (Pdu.Next (Pdu.enc_seq (Smpp.enc sess)))) body)
  = (w, Some err) ->
  exists sess',
    Smpp.Send sess (Some req) = (sess', Smpp.SendFailed err)
    /\ Smpp.state sess' = Smpp.state (fst (Smpp.makeTransition sess (Pdu.CommandID req) false))
    /\ Smpp.sent sess' = Smpp.sent sess
    /\ Smpp.chans sess' = Smpp.chans sess
    /\ Smpp.enc sess' = {| Pdu.enc_w := w;
                           Pdu.enc_seq := snd (Pdu.Next (Pdu.enc_seq (Smpp.enc sess))) |}
    /\ (Smpp.state sess = Smpp.StateOpen -> Smpp.Type_ (Smpp.conf sess) = Smpp.ESME ->
        Smpp.state sess' = Smpp.StateBinding
        /\ Smpp.Send sess' (Some req)
           = (sess', Smpp.SendFailed (Smpp.invalidState (Pdu.CommandID req)
                                                        Smpp.StateBinding))).
Proof.
  intros Hroom Hin Hbody Hwrite.
  pose proof (makeTransition_allowed sess _ false Hin) as Hnone.
  pose proof (makeTransition_slots sess (Pdu.CommandID req) false) as [Hs Hc].
  pose proof (makeTransition_conf sess (Pdu.CommandID req) false) as Hconf.
  pose proof (makeTransition_enc sess (Pdu.CommandID req) false) as (He & _).
  assert (Hopen : Smpp.state sess = Smpp.StateOpen ->
                  Smpp.Type_ (Smpp.conf sess) = Smpp.ESME ->
                  Smpp.state (fst (Smpp.makeTransition sess (Pdu.CommandID req) false))
                  = Smpp.StateBinding
                  /\ (Pdu.CommandID req ∉ allowed Smpp.ESME false Smpp.StateBinding)).
  { intros Hst Hty. revert Hin. unfold Smpp.makeTransition, allowed, clientToServer.
    rewrite Hst, Hty. cbn.
    rewrite !elem_of_cons, elem_of_nil.
    intros [-> | [-> | [-> | []]]]; (split; [unfold Smpp.setState; rewrite Hst; reflexivity|]);
      apply (bool_decide_unpack _); vm_compute; exact I. }
  unfold Smpp.Send.
  destruct (Z.eqb_spec (Z.of_nat (size (Smpp.sent sess))) (Smpp.SendWinSize (Smpp.conf sess)));
    [contradiction|].
  destruct (Smpp.makeTransition sess (Pdu.CommandID req) false) as [sess1 e].
  simpl in Hnone, Hs, Hc, Hconf, He, Hopen. subst e.
  unfold Pdu.Encode. rewrite Hbody. cbn [fold_left Pdu.eo_seq Pdu.eo_status].
  change (0 =? 0) with true. cbv iota. rewrite He.
  destruct (Pdu.Next (Pdu.enc_seq (Smpp.enc sess))) as [seq sq].
  cbn [fst snd] in *. unfold Smpp.rwc in Hwrite. rewrite Hwrite.
  eexists. split; [reflexivity|]. cbn [Smpp.with_enc Smpp.state Smpp.sent Smpp.chans Smpp.enc].
  split; [reflexivity|]. split; [exact Hs|]. split; [exact Hc|]. split; [reflexivity|].
  intros Hst Hty. destruct (Hopen Hst Hty) as [Hbinding Hunlisted].
  split; [exact Hbinding|].
  set (sess' := Smpp.with_enc sess1 _).
  assert (Hs' : Smpp.sent sess' = Smpp.sent sess) by exact Hs.
  assert (Hconf' : Smpp.conf sess' = Smpp.conf sess) by exact Hconf.
  assert (Hst' : Smpp.state sess' = Smpp.StateBinding) by exact Hbinding.
  rewrite Hs, Hconf'.
  destruct (Z.eqb_spec (Z.of_nat (size (Smpp.sent sess))) (Smpp.SendWinSize (Smpp.conf sess)));
    [contradiction|].
  rewrite makeTransition_unlisted.
  - by rewrite Hst'.
  - by rewrite Hconf', Hty, Hst'.
Qed.

(** An open ESME session on a stream whose peer is gone. *)
Definition exBrokenOpen : Smpp.Session Broken Pdu.defaultSequencer Pdu.pduValue :=
  Smpp.NewSession {| broken_closed := false |} exConf (Pdu.NewSequencer 1)
                  "0A0B0C0D-0E0F-1011".

(** The body of the example [bind_transceiver]. *)
Definition exBindBody : bytes :=
  Eval vm_compute in
    match Pdu.MarshalBinary exBindTRx with Ok b => b | Err _ => [] end.

Lemma Send_keeps_transition_on_failed_write_witness :
  exists sess',
    Smpp.Send exBrokenOpen (Some exBindTRx)
    = (sess', Smpp.SendFailed (errors_New "write: broken pipe"))
    /\ Smpp.state sess' = Smpp.StateBinding
    /\ Smpp.Send sess' (Some exBindTRx)
       = (sess', Smpp.SendFailed (Smpp.invalidState Pdu.BindTransceiverID Smpp.StateBinding)).
Proof.
  assert (Hin : Pdu.CommandID exBindTRx
                ∈ allowed (Smpp.Type_ (Smpp.conf exBrokenOpen)) false
                          (Smpp.state exBrokenOpen)).
  { apply (bool_decide_unpack _). vm_compute. exact I. }
  assert (Hroom : Z.of_nat (size (Smpp.sent exBrokenOpen))
                  <> Smpp.SendWinSize (Smpp.conf exBrokenOpen)).
  { vm_compute. discriminate. }
  assert (Hbody : Pdu.MarshalBinary exBindTRx = Ok exBindBody) by (vm_compute; reflexivity).
  assert (Hwrite : Write (Smpp.rwc exBrokenOpen)
                          (Pdu.frame (len exBindBody + 16) (Pdu.CommandID exBindTRx) 0
                                     (fst (Pdu.Next (Pdu.enc_seq (Smpp.enc exBrokenOpen))))
                                     exBindBody)
                    = ({| broken_closed := false |}, Some (errors_New "write: broken pipe")))
    by reflexivity.
  destruct (Send_keeps_transition_on_failed_write exBrokenOpen exBindTRx exBindBody
              {| broken_closed := false |} (errors_New "write: broken pipe")
              Hroom Hin Hbody Hwrite)
    as (sess' & E & _ & _ & _ & _ & Hstuck).
  destruct (Hstuck eq_refl eq_refl) as [Hst Hagain].
  exists sess'. split; [exact E|]. split; [exact Hst | exact Hagain].
Defined.

(** X23. A successful [Send]: when the window has room, the state
    machine admits the PDU, the body marshals and the [Write] succeeds,
    the frame that went out carries status 0 and the next number of
    the sequencer, and the request waits under that number on a new
    channel, which is open and empty, so that the [select] has nothing
    to receive yet.  A slot that was in the table under the same number
    is replaced without being closed. *)
Theorem Send_registers_request {W S P : Type}
    `{Stream W} `{Pdu.Sequencer S} `{Pdu.PDU P}
    (sess : Smpp.Session W S Pdu.pduValue) (req : P) (body : bytes) (w : W) :
  Z.of_nat (size (Smpp.sent sess)) <> Smpp.SendWinSize (Smpp.conf sess) ->
  Pdu.CommandID req ∈ allowed (Smpp.Type_ (Smpp.conf sess)) false (Smpp.state sess) ->
  Pdu.MarshalBinary req = Ok body ->
  let seq := fst (Pdu.Next (Pdu.enc_seq (Smpp.enc sess))) in
  let l := Smpp.newChan (Smpp.chans sess) in
  Write (Smpp.rwc sess) (Pdu.frame (len body + 16) (Pdu.CommandID req) 0 seq body)
  = (w, None) ->
  exists sess',
    Smpp.Send sess (Some req) = (sess', Smpp.SendWaiting seq l)
    /\ Smpp.chans sess !! l = None
    /\ Smpp.sent sess' = <[seq := l]> (Smpp.sent sess)
    /\ Smpp.chans sess' = <[l := Smpp.ChanOpen None]> (Smpp.chans sess)
    /\ Smpp.chan_recv (Smpp.chans sess') l = None
    /\ Smpp.enc sess' = {| Pdu.enc_w := w;
                           Pdu.enc_seq := snd (Pdu.Next (Pdu.enc_seq (Smpp.enc sess))) |}
    /\ Smpp.state sess' = Smpp.state (fst (Smpp.makeTransition sess (Pdu.CommandID req) false)).
Proof.
  intros Hroom Hin Hbody seq l Hwrite.
  pose proof (makeTransition_allowed sess _ false Hin) as Hnone.
  pose proof (makeTransition_slots sess (Pdu.CommandID req) false) as [Hs Hc].
  pose proof (makeTransition_enc sess (Pdu.CommandID req) false) as (He & _).
  assert (Hfresh : Smpp.chans sess !! l = None).
  { apply not_elem_of_dom. apply is_fresh. }
  unfold Smpp.Send.
  destruct (Z.eqb_spec (Z.of_nat (size (Smpp.sent sess))) (Smpp.SendWinSize (Smpp.conf sess)));
    [contradiction|].
  destruct (Smpp.makeTransition sess (Pdu.CommandID req) false) as [sess1 e].
  simpl in Hnone, Hs, Hc, He. subst e.
  unfold Pdu.Encode. rewrite Hbody. cbn [fold_left Pdu.eo_seq Pdu.eo_status].
  change (0 =? 0) with true. cbv iota. rewrite He.
  unfold seq in *. clear seq.
  destruct (Pdu.Next (Pdu.enc_seq (Smpp.enc sess))) as [seq sq].
  cbn [fst snd] in *. unfold Smpp.rwc in Hwrite. rewrite Hwrite.
  cbn [Smpp.with_enc Smpp.chans Smpp.sent]. rewrite Hs, Hc. fold l.
  eexists. split; [reflexivity|].
  cbn [Smpp.with_slots Smpp.with_enc Smpp.state Smpp.sent Smpp.chans Smpp.enc].
  split; [exact Hfresh|]. split; [reflexivity|]. split; [reflexivity|].
  split; [|done].
  unfold Smpp.chan_recv. by rewrite lookup_insert_eq.
Qed.

(** The ESME of the examples before its first [Send]. *)
Definition exServingOpen : Smpp.Session Buffer Pdu.defaultSequencer Pdu.pduValue :=
  Smpp.NewSession {| buf_bytes := []; buf_closed := false |} exConf
                  (Pdu.NewSequencer 1) "0A0B0C0D-0E0F-1011".

Lemma Send_registers_request_witness :
  exists sess',
    Smpp.Send exServingOpen (Some exBindTRx) = (sess', Smpp.SendWaiting 1 0%nat)
    /\ Smpp.sent sess' = {[ 1 := 0%nat ]}.
Proof.
  assert (Hin : Pdu.CommandID exBindTRx
                ∈ allowed (Smpp.Type_ (Smpp.conf exServingOpen)) false
                          (Smpp.state exServingOpen)).
  { apply (bool_decide_unpack _). vm_compute. exact I. }
  assert (Hroom : Z.of_nat (size (Smpp.sent exServingOpen))
                  <> Smpp.SendWinSize (Smpp.conf exServingOpen)).
  { vm_compute. discriminate. }
  assert (Hbody : Pdu.MarshalBinary exBindTRx = Ok exBindBody) by (vm_compute; reflexivity).
  assert (Hwrite : Write (Smpp.rwc exServingOpen)
                          (Pdu.frame (len exBindBody + 16) (Pdu.CommandID exBindTRx) 0
                                     (fst (Pdu.Next (Pdu.enc_seq (Smpp.enc exServingOpen))))
                                     exBindBody)
                    = ({| buf_bytes := Pdu.frame 45 Pdu.BindTransceiverID 0 1 exBindBody;
                          buf_closed := false |}, None))
    by (vm_compute; reflexivity).
  pose proof (Send_registers_request exServingOpen exBindTRx exBindBody _
                Hroom Hin Hbody Hwrite) as Hthm.
  cbv zeta in Hthm. destruct Hthm as (sess' & E & _ & Hsent & _).
  exists sess'. split; [exact E|]. rewrite Hsent. reflexivity.
Defined.

(** ** The two ends of a connection *)

(** X24. The tables of the two roles mirror each other: what an ESME
    may send in a state is what an SMSC accepts on receipt in that
    state, and the other way round, and both make the same move.  Two
    peers that are in the same state therefore stay in the same state
    when one sends a PDU and the other receives it. *)
Theorem peers_move_together {W S R W' S' R' : Type}
    `{Stream W} `{Pdu.Sequencer S} `{Stream W'} `{Pdu.Sequencer S'}
    (esme : Smpp.Session W S R) (smsc : Smpp.Session W' S' R') (ID : Z) (received : bool) :
  Smpp.Type_ (Smpp.conf esme) = Smpp.ESME ->
  Smpp.Type_ (Smpp.conf smsc) = Smpp.SMSC ->
  Smpp.state esme = Smpp.state smsc ->
  snd (Smpp.makeTransition esme ID received) = snd (Smpp.makeTransition smsc ID (negb received))
  /\ Smpp.state (fst (Smpp.makeTransition esme ID received))
     = Smpp.state (fst (Smpp.makeTransition smsc ID (negb received))).
Proof.
  intros Hesme Hsmsc Hst.
  unfold Smpp.makeTransition, Smpp.setState, Smpp.commitState.
  rewrite Hesme, Hsmsc, <- Hst.
  destruct received, (Smpp.state esme) eqn:Hst'; simpl;
    repeat match goal with
           | |- context [if ?b then _ else _] => destruct b
           end;
    (split; [reflexivity | simpl; congruence]).
Qed.

(** The SMSC end of the example connection. *)
Definition exSmscOpen : Smpp.Session Buffer Pdu.defaultSequencer unit :=
  Smpp.NewSession {| buf_bytes := []; buf_closed := false |}
                  {| Smpp.Type_ := Smpp.SMSC; Smpp.SendWinSize := 0; Smpp.ReqWinSize := 0;
                     Smpp.WindowTimeout := 0; Smpp.SessionStateHook := false;
                     Smpp.conf_SystemID := "TestingSMSC"; Smpp.ID := "" |}
                  (Pdu.NewSequencer 1) "11121314-1516-1718".

Lemma peers_move_together_witness :
  Smpp.state (fst (Smpp.makeTransition exOpen Pdu.BindTransceiverID false))
  = Smpp.state (fst (Smpp.makeTransition exSmscOpen Pdu.BindTransceiverID true)).
Proof.
  exact (proj2 (peers_move_together exOpen exSmscOpen Pdu.BindTransceiverID false
                  eq_refl eq_refl eq_refl)).
Defined.

(** ** SMPP times *)

(** The two ASCII digits of a number below 100. *)
Definition digitPair (n : Z) : bytes := [48 + n / 10; 48 + n mod 10].

Lemma twoDigits_digitPair (n : Z) :
  0 <= n < 100 ->
  byte (byte (48 + n / 10 - 48) * 10 + byte (48 + n mod 10 - 48)) = n.
Proof.
  intros Hn. unfold byte.
  replace (48 + n / 10 - 48) with (n / 10) by lia.
  replace (48 + n mod 10 - 48) with (n mod 10) by lia.
  assert (0 <= n / 10 < 10) by (split; [apply Z.div_pos; lia | apply Z.div_lt_upper_bound; lia]).
  assert (0 <= n mod 10 < 10) by (apply Z.mod_pos_bound; lia).
  rewrite (Z.mod_small (n / 10)), (Z.mod_small (n mod 10)) by lia.
  rewrite Z.mod_small by lia.
  pose proof (Z.div_mod n 10). lia.
Qed.

(** X25. The relative layout.  Sixteen bytes that end in [R] are
    never refused by [Parse], whatever the other bytes are.  When the
    first twelve are six two-digit numbers, the result is the current
    time moved by that many years, months and days and then by the
    hours, minutes and seconds; the three bytes before the [R] are not
    looked at. *)
Theorem Parse_relative (now : Gotime.Time) (y mo d h mi s : Z) (frac inp : bytes) :
  0 <= y < 100 -> 0 <= mo < 100 -> 0 <= d < 100 ->
  0 <= h < 100 -> 0 <= mi < 100 -> 0 <= s < 100 ->
  length frac = 3%nat ->
  length inp = 16%nat -> nth 15 inp 0 = 82 ->
  Smpptime.Parse now (digitPair y ++ digitPair mo ++ digitPair d ++ digitPair h
                      ++ digitPair mi ++ digitPair s ++ frac ++ [82])
  = Ok (Gotime.Add (Gotime.AddDate now y mo d) ((h * 3600 + mi * 60 + s) * 1000000000))
  /\ exists t, Smpptime.Parse now inp = Ok t.
Proof.
  intros Hy Hmo Hd Hh Hmi Hs Hfrac Hlen Hind. split.
  - destruct frac as [|a [|b [|c [|]]]]; try discriminate Hfrac.
    unfold Smpptime.Parse, digitPair. cbn [app len length Z.of_nat Pos.of_succ_nat Pos.succ nth].
    cbn [Z.eqb Pos.eqb orb]. unfold Smpptime.twoDigits. cbn [nth].
    rewrite !twoDigits_digitPair by done. reflexivity.
  - unfold Smpptime.Parse, len. rewrite Hlen, Hind.
    cbn [Z.of_nat Pos.of_succ_nat Pos.succ Z.eqb Pos.eqb orb]. by eexists.
Qed.

Lemma Parse_relative_witness :
  Smpptime.Parse exNow (bytes_of_string "000001020304000R")
  = Ok (Gotime.Add (Gotime.AddDate exNow 0 0 1) ((2 * 3600 + 3 * 60 + 4) * 1000000000)).
Proof.
  exact (proj1 (Parse_relative exNow 0 0 1 2 3 4 [48; 48; 48]
                  (bytes_of_string "000001020304000R")
                  ltac:(lia) ltac:(lia) ltac:(lia) ltac:(lia) ltac:(lia) ltac:(lia)
                  eq_refl eq_refl eq_refl)).
Defined.
